(** * Prediction-market arbitrage engine: paper bot, real bot, probability
      engine, opportunity pipeline and question parser.

    Shallow embedding of
      - bot/dist/trading-bot.js          (Modules PaperBot, PaperBot64 and
                                          Persistence)
      - bot/real-trading-bot.ts          (Modules RealBot and PaperBotTs)
      - lib/crypto-math (probability engine and question parser,
                                          Modules CryptoMath and Parser)
      - app/api/crypto-arbitrage/route.ts (Modules Pipeline and Fetch)

    Numbers.  A JavaScript number is an IEEE 754 binary64 value.  Module
    [PaperBot64] keeps it so, as a primitive [float], and is where the
    balance equation, which rounding breaks, is settled.  Elsewhere a number
    is modelled by an exact number: a rational [Q] in the two bots (which
    only add, subtract, multiply, divide, compare, take [Math.abs],
    [Math.min], [Math.max] and [Math.round]) and a real [R] in the
    probability engine and the pipeline (which need [Math.log], [Math.sqrt]
    and [Math.exp]).  In these exact models rounding, [NaN] and the signed
    zero do not occur, and [Infinity] is modelled where the code returns it
    on purpose ([calculateZScore]).  A division by zero and the logarithm
    of a number that is not positive, which are an infinity or [NaN] in the
    source, have no counterpart in [R]: the statements about the call delta
    and the vertical spread keep to inputs without them.

    Texts.  A text is a [string]: a sequence of code units below 256. *)

From Stdlib Require Import QArith Qabs Qminmax Qround ZArith List String Ascii Bool.
From Stdlib Require Import Arith Lia Lqa Permutation Sorted.
From Stdlib Require Import Reals Lra Qreals.
From Stdlib Require PrimFloat SpecFloat FloatOps Uint63.
Import ListNotations.

Set Implicit Arguments.

(** A decimal constant of the source stands for the nearest binary64 value,
    as in JavaScript. *)
Set Warnings "-inexact-float".

(* ------------------------------------------------------------------ *)
(** * Comparisons on rationals as booleans *)
(* ------------------------------------------------------------------ *)

Module QB.
Open Scope Q_scope.

(** [x < y] as JavaScript evaluates it on finite numbers. *)
Definition ltb (x y : Q) : bool := negb (Qle_bool y x).
(** [x > y] *)
Definition gtb (x y : Q) : bool := ltb y x.
(** [x <= y] *)
Definition leb (x y : Q) : bool := Qle_bool x y.
(** [x >= y] *)
Definition geb (x y : Q) : bool := Qle_bool y x.

(** [Math.round]: the nearest integer, halves rounded towards plus
    infinity, that is [floor (x + 1/2)]. *)
Definition Math_round (x : Q) : Q := inject_Z (Qfloor (x + (1 # 2))).

End QB.

(* ------------------------------------------------------------------ *)
(** * The [fs] calls of [saveState] and [loadState] *)
(* ------------------------------------------------------------------ *)

(** The calls can fail: each of them ends as the environment decides, and
    [saveState] and [loadState] catch what is thrown. *)

Module Persistence.

(** A path is its list of components; [path.dirname] drops the last one and
    [path.join] appends. *)
Definition path := list string.
Definition dirname (p : path) : path := removelast p.
Definition join (p q : path) : path := p ++ q.

Fixpoint path_eqb (p q : path) : bool :=
  match p, q with
  | [], [] => true
  | a :: p', b :: q' => String.eqb a b && path_eqb p' q'
  | _, _ => false
  end.

(** The directories [mkdirSync(p, { recursive: true })] has made when it
    stops after [n] levels: the leading parts of [p] of length 1 to [n]. *)
Fixpoint leading (n : nat) (p : path) : list path :=
  match n with
  | O => []
  | S n' => leading n' p ++ [firstn (S n') p]
  end.

Section FileSystem.

(** The value a state file stands for: what [JSON.stringify] printed and
    [JSON.parse] gives back. *)
Variable Content : Type.

(** The calls into Node's [fs] module, as the code issues them. *)
Inductive FsCall : Type :=
| existsSync (p : path)
| mkdirSync (p : path) (recursive : bool)
| readFileSync (p : path)
| writeFileSync (p : path) (data : Content)
| renameSync (src dst : path).

(** What a file holds: the JSON text of a value, or a text that
    [JSON.parse] rejects, such as the beginning of a JSON text that a failed
    write left behind. *)
Inductive Image : Type :=
| json (c : Content)
| unparsable.

(** How a call ends.  [throwsAfter n] is a call that throws an error after
    [n] steps of its work: [mkdirSync] after it has made [n] of the
    directories, [writeFileSync] before it has opened the file ([n] is 0) or
    after it has opened and so truncated it.  [existsSync] never throws. *)
Inductive Outcome : Type :=
| succeeds
| throwsAfter (progress : nat).

(** The file system: the directories, the files with what they hold, the
    calls made so far (latest last), and how each call to come ends:
    [faults n] is the outcome of the call made after [n] others.  The
    outcomes are the part of the environment the code cannot see: rights,
    free space, a file in the place of a directory. *)
Record FS : Type := Build_FS {
  dirs : list path;
  files : list (path * Image);
  calls : list FsCall;
  faults : nat -> Outcome
}.

(** A file system in which no call fails. *)
Definition mkFS (dirs : list path) (files : list (path * Image))
    (calls : list FsCall) : FS :=
  Build_FS dirs files calls (fun _ => succeeds).

Definition dir_exists (fs : FS) (d : path) : bool :=
  existsb (path_eqb d) (dirs fs).

Fixpoint lookup_file (fl : list (path * Image)) (p : path) : option Image :=
  match fl with
  | [] => None
  | (q, c) :: rest => if path_eqb p q then Some c else lookup_file rest p
  end.

Definition read_file (fs : FS) (p : path) : option Image :=
  lookup_file (files fs) p.

Definition log (c : FsCall) (fs : FS) : FS :=
  Build_FS (dirs fs) (files fs) (calls fs ++ [c]) (faults fs).

(** The outcome of the call that comes after [k] more calls. *)
Definition outcomeAfter (k : nat) (fs : FS) : Outcome :=
  faults fs (k + List.length (calls fs)).

(** The outcome of the next call. *)
Definition outcome (fs : FS) : Outcome := outcomeAfter 0 fs.

Definition fs_existsSync (p : path) (fs : FS) : bool * FS :=
  (dir_exists fs p || match read_file fs p with Some _ => true | None => false end,
   log (existsSync p) fs).

(** [fs.mkdirSync(p, { recursive: true })]; [None] is a throw. *)
Definition fs_mkdirSync (p : path) (fs : FS) : option unit * FS :=
  match outcome fs with
  | succeeds =>
    (Some tt,
     log (mkdirSync p true)
         (Build_FS (leading (List.length p) p ++ dirs fs) (files fs) (calls fs)
                   (faults fs)))
  | throwsAfter n =>
    (None,
     log (mkdirSync p true)
         (Build_FS (leading (Nat.min n (List.length p - 1)) p ++ dirs fs)
                   (files fs) (calls fs) (faults fs)))
  end.

(** [fs.writeFileSync(p, JSON.stringify(data, null, 2))]; [None] is a
    throw.  The file is written in place: a write that fails after it has
    opened the file leaves a text cut short. *)
Definition fs_writeFileSync (p : path) (data : Content) (fs : FS) : option unit * FS :=
  match outcome fs with
  | succeeds =>
    (Some tt,
     log (writeFileSync p data)
         (Build_FS (dirs fs) ((p, json data) :: files fs) (calls fs) (faults fs)))
  | throwsAfter O => (None, log (writeFileSync p data) fs)
  | throwsAfter (S _) =>
    (None,
     log (writeFileSync p data)
         (Build_FS (dirs fs) ((p, unparsable) :: files fs) (calls fs) (faults fs)))
  end.

(** [fs.readFileSync(p, 'utf-8')]; [None] is a throw, as when there is no
    file at [p]. *)
Definition fs_readFileSync (p : path) (fs : FS) : option Image * FS :=
  (match outcome fs with
   | succeeds => read_file fs p
   | throwsAfter _ => None
   end,
   log (readFileSync p) fs).

(** The [try] block of [saveState], the same text in the paper bot and in
    the real bot; [None] is a throw, which leaves the block at once:
<<
    try {
      const dir = path.dirname(STATE_FILE);
      if (!fs.existsSync(dir)) { fs.mkdirSync(dir, { recursive: true }); }
      fs.writeFileSync(STATE_FILE, JSON.stringify(state, null, 2));
    }
>> *)
Definition saveState_try (STATE_FILE : path) (state : Content) (fs : FS)
  : option unit * FS :=
  let dir := dirname STATE_FILE in
  let (found, fs1) := fs_existsSync dir fs in
  match (if negb found then fs_mkdirSync dir fs1 else (Some tt, fs1)) with
  | (None, fs2) => (None, fs2)
  | (Some _, fs2) => fs_writeFileSync STATE_FILE state fs2
  end.

(** [saveState]: the [catch] block prints the error and the function
    returns. *)
Definition saveState (STATE_FILE : path) (state : Content) (fs : FS) : FS :=
  snd (saveState_try STATE_FILE state fs).

(** [loadState]: the parsed file when it exists, can be read and parses; in
    every other case, a throw of [readFileSync] or of [JSON.parse] included,
    the initial state:
<<
    try {
      if (fs.existsSync(STATE_FILE)) {
        const data = fs.readFileSync(STATE_FILE, 'utf-8');
        return JSON.parse(data);
      }
    } catch (e) { console.error('Error loading state:', e); }
    return { ... };
>> *)
Definition loadState (STATE_FILE : path) (initial : Content) (fs : FS) : Content * FS :=
  let (found, fs1) := fs_existsSync STATE_FILE fs in
  if found then
    match fs_readFileSync STATE_FILE fs1 with
    | (Some (json data), fs2) => (data, fs2)
    | (Some unparsable, fs2) => (initial, fs2)
    | (None, fs2) => (initial, fs2)
    end
  else (initial, fs1).

(** Whether the call that comes after [k] more calls succeeds. *)
Definition answers (k : nat) (fs : FS) : bool :=
  match outcomeAfter k fs with succeeds => true | throwsAfter _ => false end.

Definition is_rename (c : FsCall) : bool :=
  match c with renameSync _ _ => true | _ => false end.

Definition writes_to (c : FsCall) : option path :=
  match c with writeFileSync p _ => Some p | _ => None end.

(** The calls [saveState] adds to the log. *)
Definition saveState_calls (STATE_FILE : path) (state : Content) (fs : FS) : list FsCall :=
  skipn (List.length (calls fs)) (calls (saveState STATE_FILE state fs)).

(** A save by replacement, as the specification describes it: the text goes
    to a temporary file in the directory of the target, the temporary file
    is renamed over the target, and the target is never written in place. *)
Definition writeTempThenRename (target : path) (cs : list FsCall) : Prop :=
  exists tmp data,
    path_eqb tmp target = false /\
    dirname tmp = dirname target /\
    In (writeFileSync tmp data) cs /\
    In (renameSync tmp target) cs /\
    forall d, ~ In (writeFileSync target d) cs.

End FileSystem.

Arguments existsSync {Content} p.
Arguments mkdirSync {Content} p recursive.
Arguments readFileSync {Content} p.
Arguments renameSync {Content} src dst.
Arguments unparsable {Content}.
Arguments mkFS {Content} dirs files calls.

(** The state file of the paper bot below the directory [root]
    ([process.cwd()] in production, the parent of [__dirname] otherwise). *)
Definition STATE_FILE (root : path) (name : string) : path :=
  join root ["data"%string; name].

End Persistence.

(* ------------------------------------------------------------------ *)
(** * The paper trading bot (bot/dist/trading-bot.js) *)
(* ------------------------------------------------------------------ *)

(** The numbers are rationals and the arithmetic is exact: what is proved
    of this module are the rules of the bot (who enters, who exits, which
    side, which size, what is logged), which do not depend on rounding.
    [PaperBot64] below has the same functions on binary64 numbers. *)

Module PaperBot.
Open Scope Q_scope.
Import QB.

Inductive Side := long | short.
Inductive BetType := binary | one_touch.
Inductive Direction := above | below.
Inductive Status := status_open | status_closed | status_expired.
Inductive Action := action_open | action_close.

(** The [reason] of an exit check: ['expired'], ['edge_aligned'] or the
    empty string. *)
Inductive ExitReason := reason_expired | reason_edge_aligned | reason_none.

(** The [reason] of a refused entry.  The source builds a message from a
    template; the tag names the template. *)
Inductive EntryRefusal :=
| edge_below_threshold
| too_close_to_expiry
| already_have_position
| would_exceed_max_exposure
| insufficient_balance.

Definition side_eqb (a b : Side) : bool :=
  match a, b with
  | long, long | short, short => true
  | _, _ => false
  end.

Record BotConfig := mkBotConfig {
  cfg_startingBalance : Q;
  minEdgeToEnter : Q;
  maxEdgeToExit : Q;
  basePositionSize : Q;
  edgeMultiplier : Q;
  maxPositionSize : Q;
  maxTotalExposure : Q;
  pollIntervalMs : Z;
  maxPositionsPerMarket : nat;
  minTimeToExpiry : Q
}.

Definition CONFIG : BotConfig := {|
  cfg_startingBalance := 1000;
  minEdgeToEnter := 0.05;
  maxEdgeToExit := 0.05;
  basePositionSize := 25;
  edgeMultiplier := 500;
  maxPositionSize := 100;
  maxTotalExposure := 500;
  pollIntervalMs := 60000;
  maxPositionsPerMarket := 1;
  minTimeToExpiry := 1
|}.

(** [opp.market]; [m_expiryDate] is [new Date(expiryDate).getTime()], in
    milliseconds. *)
Record Market := mkMarket {
  m_id : string;
  m_question : string;
  m_crypto : string;
  m_targetPrice : Q;
  m_direction : Direction;
  m_betType : BetType;
  m_expiryDate : Z
}.

(** An opportunity as the bot reads it from [/api/crypto-arbitrage];
    [spotPrice] is [opp.currentPrice.price], [zscoreProb] and [deribitProb]
    are the [probability] fields of the two estimates. *)
Record ArbitrageOpportunity := mkOpportunity {
  market : Market;
  spotPrice : Q;
  polymarketProb : Q;
  zscoreProb : Q;
  deribitProb : option Q;
  edgeVsZscore : Q;
  edgeVsDeribit : option Q
}.

Record Position := mkPosition {
  pos_id : string;
  marketId : string;
  marketQuestion : string;
  crypto : string;
  targetPrice : Q;
  direction : Direction;
  betType : BetType;
  expiryDate : Z;
  side : Side;
  entryPrice : Q;
  size : Q;
  shares : Q;
  entryEdge : Q;
  entryZscoreProb : Q;
  entryDeribitProb : option Q;
  entryTimestamp : Z;
  currentPrice : Q;
  currentEdge : Q;
  unrealizedPnl : Q;
  status : Status;
  closeReason : option ExitReason;
  closePrice : option Q;
  closeTimestamp : option Z;
  realizedPnl : option Q
}.

Record Trade := mkTrade {
  t_id : string;
  t_positionId : string;
  t_marketId : string;
  t_timestamp : Z;
  t_action : Action;
  t_side : Side;
  t_price : Q;
  t_size : Q;
  t_shares : Q;
  t_edge : Q;
  t_zscoreProb : Q;
  t_deribitProb : option Q;
  t_cryptoPrice : Q;
  t_pnl : option Q
}.

Record BotState := mkBotState {
  startingBalance : Q;
  currentBalance : Q;
  totalPnl : Q;
  openPositions : list Position;
  closedPositions : list Position;
  trades : list Trade;
  isRunning : bool;
  lastUpdate : Z;
  lastError : option string;
  totalTrades : nat;
  winningTrades : nat;
  losingTrades : nat;
  winRate : Q;
  config : BotConfig
}.

(** What one cycle reads from outside: the opportunities the API returned,
    the clock ([Date.now()], milliseconds) and the identifiers that
    [`pos_${Date.now()}_${Math.random()...}`] and the like produce:
    [newPositionId k] and [openTradeId k] at iteration [k] of the entry loop,
    [closeTradeId j] at iteration [j] of the exit loop. *)
Record CycleEnv := mkCycleEnv {
  opportunities : list ArbitrageOpportunity;
  now : Z;
  newPositionId : nat -> string;
  openTradeId : nat -> string;
  closeTradeId : nat -> string
}.

(** The initial state of [loadState] when there is no state file. *)
Definition initialState (t : Z) : BotState := {|
  startingBalance := cfg_startingBalance CONFIG;
  currentBalance := cfg_startingBalance CONFIG;
  totalPnl := 0;
  openPositions := [];
  closedPositions := [];
  trades := [];
  isRunning := true;
  lastUpdate := t;
  lastError := None;
  totalTrades := 0;
  winningTrades := 0;
  losingTrades := 0;
  winRate := 0;
  config := CONFIG
|}.

(** [opp.edgeVsDeribit ?? opp.edgeVsZscore] *)
Definition effectiveEdge (opp : ArbitrageOpportunity) : Q :=
  match edgeVsDeribit opp with
  | Some e => e
  | None => edgeVsZscore opp
  end.

Definition calculatePositionSize (edge : Q) (config : BotConfig) : Q :=
  let absEdge := Qabs edge in
  let size := basePositionSize config + absEdge * edgeMultiplier config in
  Qmin size (maxPositionSize config).

(** [positions.reduce((sum, p) => sum + p.size, 0)] *)
Definition getTotalExposure (positions : list Position) : Q :=
  fold_left (fun sum p => sum + size p) positions 0.

(** [opportunities.find(o => o.market.id === marketId)] *)
Definition findOpportunity (opps : list ArbitrageOpportunity) (mid : string)
  : option ArbitrageOpportunity :=
  find (fun o => String.eqb (m_id (market o)) mid) opps.

Record EntryCheck := mkEntryCheck {
  shouldEnter : bool;
  ec_side : Side;
  ec_edge : Q;
  ec_reason : option EntryRefusal
}.

Definition refuse (edge : Q) (r : EntryRefusal) : EntryCheck :=
  mkEntryCheck false long edge (Some r).

Definition msPerDay : Q := 1000 * 60 * 60 * 24.

Definition shouldEnterPosition (t : Z) (opp : ArbitrageOpportunity)
    (state : BotState) (config : BotConfig) : EntryCheck :=
  let edge := effectiveEdge opp in
  let absEdge := Qabs edge in
  if ltb absEdge (minEdgeToEnter config) then refuse edge edge_below_threshold
  else
    let daysToExpiry := inject_Z (m_expiryDate (market opp) - t) / msPerDay in
    if ltb daysToExpiry (minTimeToExpiry config) then refuse edge too_close_to_expiry
    else
      match find (fun p => String.eqb (marketId p) (m_id (market opp)))
                 (openPositions state) with
      | Some _ => refuse edge already_have_position
      | None =>
        let currentExposure := getTotalExposure (openPositions state) in
        let positionSize := calculatePositionSize edge config in
        if gtb (currentExposure + positionSize) (maxTotalExposure config)
        then refuse edge would_exceed_max_exposure
        else if gtb positionSize (currentBalance state)
        then refuse edge insufficient_balance
        else
          let side := if gtb edge 0 then short else long in
          mkEntryCheck true side edge None
      end.

Record ExitCheck := mkExitCheck {
  shouldExit : bool;
  xc_reason : ExitReason;
  xc_currentPrice : Q;
  xc_currentEdge : Q
}.

Definition shouldExitPosition (t : Z) (position : Position)
    (opp : option ArbitrageOpportunity) (config : BotConfig) : ExitCheck :=
  match opp with
  | None =>
    if Z.ltb (expiryDate position) t
    then mkExitCheck true reason_expired (currentPrice position) 0
    else mkExitCheck false reason_none (currentPrice position) (currentEdge position)
  | Some opp =>
    let currentPrice := polymarketProb opp in
    let currentEdge := effectiveEdge opp in
    let absEdge := Qabs currentEdge in
    if ltb absEdge (maxEdgeToExit config)
    then mkExitCheck true reason_edge_aligned currentPrice currentEdge
    else
      let newSide := if gtb currentEdge 0 then short else long in
      if negb (side_eqb newSide (side position)) && geb absEdge (minEdgeToEnter config)
      then mkExitCheck true reason_edge_aligned currentPrice currentEdge
      else mkExitCheck false reason_none currentPrice currentEdge
  end.

(** [state.trades.push(trade); state.totalTrades++; state.currentBalance -= size]
    of [openPosition]. *)
Definition recordOpen (trade : Trade) (sz : Q) (state : BotState) : BotState := {|
  startingBalance := startingBalance state;
  currentBalance := currentBalance state - sz;
  totalPnl := totalPnl state;
  openPositions := openPositions state;
  closedPositions := closedPositions state;
  trades := trades state ++ [trade];
  isRunning := isRunning state;
  lastUpdate := lastUpdate state;
  lastError := lastError state;
  totalTrades := S (totalTrades state);
  winningTrades := winningTrades state;
  losingTrades := losingTrades state;
  winRate := winRate state;
  config := config state
|}.

(** [openPosition] returns the new position and has updated the state;
    [k] is the iteration of the entry loop. *)
Definition openPosition (env : CycleEnv) (k : nat) (opp : ArbitrageOpportunity)
    (sd : Side) (edge : Q) (state : BotState) (config : BotConfig)
  : Position * BotState :=
  let size := calculatePositionSize edge config in
  let entryPrice := polymarketProb opp in
  let effectivePrice := match sd with long => entryPrice | short => 1 - entryPrice end in
  let shares := size / effectivePrice in
  let position := {|
    pos_id := newPositionId env k;
    marketId := m_id (market opp);
    marketQuestion := m_question (market opp);
    crypto := m_crypto (market opp);
    targetPrice := m_targetPrice (market opp);
    direction := m_direction (market opp);
    betType := m_betType (market opp);
    expiryDate := m_expiryDate (market opp);
    side := sd;
    entryPrice := entryPrice;
    size := size;
    shares := shares;
    entryEdge := edge;
    entryZscoreProb := zscoreProb opp;
    entryDeribitProb := deribitProb opp;
    entryTimestamp := now env;
    currentPrice := entryPrice;
    currentEdge := edge;
    unrealizedPnl := 0;
    status := status_open;
    closeReason := None;
    closePrice := None;
    closeTimestamp := None;
    realizedPnl := None
  |} in
  let trade := {|
    t_id := openTradeId env k;
    t_positionId := pos_id position;
    t_marketId := m_id (market opp);
    t_timestamp := now env;
    t_action := action_open;
    t_side := sd;
    t_price := entryPrice;
    t_size := size;
    t_shares := shares;
    t_edge := edge;
    t_zscoreProb := zscoreProb opp;
    t_deribitProb := deribitProb opp;
    t_cryptoPrice := spotPrice opp;
    t_pnl := None
  |} in
  (position, recordOpen trade size state).

(** The profit or loss [closePosition] computes. *)
Definition closePnl (position : Position) (price : Q) : Q :=
  match side position with
  | long => shares position * (price - entryPrice position)
  | short => shares position * (entryPrice position - price)
  end.

(** The position object after the assignments of [closePosition]. *)
Definition closedPosition (t : Z) (position : Position) (price edge : Q)
    (reason : ExitReason) : Position := {|
  pos_id := pos_id position;
  marketId := marketId position;
  marketQuestion := marketQuestion position;
  crypto := crypto position;
  targetPrice := targetPrice position;
  direction := direction position;
  betType := betType position;
  expiryDate := expiryDate position;
  side := side position;
  entryPrice := entryPrice position;
  size := size position;
  shares := shares position;
  entryEdge := entryEdge position;
  entryZscoreProb := entryZscoreProb position;
  entryDeribitProb := entryDeribitProb position;
  entryTimestamp := entryTimestamp position;
  currentPrice := price;
  currentEdge := edge;
  unrealizedPnl := unrealizedPnl position;
  status := status_closed;
  closeReason := Some reason;
  closePrice := Some price;
  closeTimestamp := Some t;
  realizedPnl := Some (closePnl position price)
|}.

(** [j] is the iteration of the exit loop. *)
Definition closePosition (env : CycleEnv) (j : nat) (position : Position)
    (price edge : Q) (reason : ExitReason) (state : BotState) : BotState :=
  let pnl := closePnl position price in
  let position' := closedPosition (now env) position price edge reason in
  let trade := {|
    t_id := closeTradeId env j;
    t_positionId := pos_id position;
    t_marketId := marketId position;
    t_timestamp := now env;
    t_action := action_close;
    t_side := side position;
    t_price := price;
    t_size := size position;
    t_shares := shares position;
    t_edge := edge;
    t_zscoreProb := 0;
    t_deribitProb := None;
    t_cryptoPrice := 0;
    t_pnl := Some pnl
  |} in
  let winning := if gtb pnl 0 then S (winningTrades state) else winningTrades state in
  let losing :=
    if gtb pnl 0 then losingTrades state
    else if ltb pnl 0 then S (losingTrades state) else losingTrades state in
  {|
    startingBalance := startingBalance state;
    currentBalance := currentBalance state + (size position + pnl);
    totalPnl := totalPnl state + pnl;
    openPositions :=
      filter (fun p => negb (String.eqb (pos_id p) (pos_id position)))
             (openPositions state);
    closedPositions := closedPositions state ++ [position'];
    trades := trades state ++ [trade];
    isRunning := isRunning state;
    lastUpdate := lastUpdate state;
    lastError := lastError state;
    totalTrades := S (totalTrades state);
    winningTrades := winning;
    losingTrades := losing;
    winRate := inject_Z (Z.of_nat winning)
               / inject_Z (Z.of_nat (Nat.max 1 (winning + losing)));
    config := config state
  |}.

(** One position of [updateOpenPositions]. *)
Definition refreshPosition (opps : list ArbitrageOpportunity) (position : Position)
  : Position :=
  match findOpportunity opps (marketId position) with
  | None => position
  | Some opp =>
    let price := polymarketProb opp in
    {|
      pos_id := pos_id position;
      marketId := marketId position;
      marketQuestion := marketQuestion position;
      crypto := crypto position;
      targetPrice := targetPrice position;
      direction := direction position;
      betType := betType position;
      expiryDate := expiryDate position;
      side := side position;
      entryPrice := entryPrice position;
      size := size position;
      shares := shares position;
      entryEdge := entryEdge position;
      entryZscoreProb := entryZscoreProb position;
      entryDeribitProb := entryDeribitProb position;
      entryTimestamp := entryTimestamp position;
      currentPrice := price;
      currentEdge := effectiveEdge opp;
      unrealizedPnl :=
        match side position with
        | long => shares position * (price - entryPrice position)
        | short => shares position * (entryPrice position - price)
        end;
      status := status position;
      closeReason := closeReason position;
      closePrice := closePrice position;
      closeTimestamp := closeTimestamp position;
      realizedPnl := realizedPnl position
    |}
  end.

Definition withOpenPositions (ps : list Position) (state : BotState) : BotState := {|
  startingBalance := startingBalance state;
  currentBalance := currentBalance state;
  totalPnl := totalPnl state;
  openPositions := ps;
  closedPositions := closedPositions state;
  trades := trades state;
  isRunning := isRunning state;
  lastUpdate := lastUpdate state;
  lastError := lastError state;
  totalTrades := totalTrades state;
  winningTrades := winningTrades state;
  losingTrades := losingTrades state;
  winRate := winRate state;
  config := config state
|}.

Definition updateOpenPositions (opps : list ArbitrageOpportunity) (state : BotState)
  : BotState :=
  withOpenPositions (map (refreshPosition opps) (openPositions state)) state.

(** The exit loop of [runBotCycle] over the copy [[...state.openPositions]];
    [j] counts the iterations. *)
Fixpoint exitLoop (env : CycleEnv) (j : nat) (snapshot : list Position)
    (state : BotState) : BotState :=
  match snapshot with
  | [] => state
  | position :: rest =>
    let opp := findOpportunity (opportunities env) (marketId position) in
    let exitCheck := shouldExitPosition (now env) position opp CONFIG in
    let state' :=
      if shouldExit exitCheck
      then closePosition env j position (xc_currentPrice exitCheck)
                         (xc_currentEdge exitCheck) (xc_reason exitCheck) state
      else state in
    exitLoop env (S j) rest state'
  end.

(** The entry loop of [runBotCycle]; [k] counts the iterations. *)
Fixpoint entryLoop (env : CycleEnv) (k : nat) (opps : list ArbitrageOpportunity)
    (state : BotState) : BotState :=
  match opps with
  | [] => state
  | opp :: rest =>
    let entryCheck := shouldEnterPosition (now env) opp state CONFIG in
    let state' :=
      if shouldEnter entryCheck
      then
        let (position, state1) :=
          openPosition env k opp (ec_side entryCheck) (ec_edge entryCheck) state CONFIG in
        withOpenPositions (openPositions state1 ++ [position]) state1
      else state in
    entryLoop env (S k) rest state'
  end.

(** [state.lastUpdate = new Date().toISOString(); state.lastError = undefined] *)
Definition stamp (t : Z) (state : BotState) : BotState := {|
  startingBalance := startingBalance state;
  currentBalance := currentBalance state;
  totalPnl := totalPnl state;
  openPositions := openPositions state;
  closedPositions := closedPositions state;
  trades := trades state;
  isRunning := isRunning state;
  lastUpdate := t;
  lastError := None;
  totalTrades := totalTrades state;
  winningTrades := winningTrades state;
  losingTrades := losingTrades state;
  winRate := winRate state;
  config := config state
|}.

(** The state at the end of the [try] block of [runBotCycle]; with no
    opportunity the function returns at once. *)
Definition cycleState (env : CycleEnv) (state : BotState) : BotState :=
  match opportunities env with
  | [] => state
  | _ :: _ =>
    let s1 := updateOpenPositions (opportunities env) state in
    let s2 := exitLoop env 0 (openPositions s1) s1 in
    let s3 := entryLoop env 0 (opportunities env) s2 in
    stamp (now env) s3
  end.

(** [runBotCycle]: the [return] taken when there is no opportunity leaves
    the function before [saveState(state)], every other cycle ends by
    saving. *)
Definition runBotCycle (STATE_FILE : Persistence.path) (env : CycleEnv)
    (state : BotState) (fs : Persistence.FS BotState)
  : BotState * Persistence.FS BotState :=
  match opportunities env with
  | [] => (state, fs)
  | _ :: _ =>
    let state' := cycleState env state in
    (state', Persistence.saveState STATE_FILE state' fs)
  end.

(** The identifiers drawn in a cycle are new: the entry loop never draws
    the same identifier twice, nor that of a position that is open. *)
Definition freshIds (env : CycleEnv) (state : BotState) : Prop :=
  let n := List.length (opportunities env) in
  (forall a b, (a < n)%nat -> (b < n)%nat ->
     newPositionId env a = newPositionId env b -> a = b) /\
  (forall a, (a < n)%nat ->
     ~ In (newPositionId env a) (map pos_id (openPositions state))).

(** The states the bot reaches from the initial state, cycle after cycle. *)
Inductive reachable : BotState -> Prop :=
| reachable_initial t : reachable (initialState t)
| reachable_cycle env state :
    reachable state -> freshIds env state -> reachable (cycleState env state).

(** [currentBalance + sum of the open sizes = startingBalance + totalPnl] *)
Definition balanced (state : BotState) : Prop :=
  currentBalance state + getTotalExposure (openPositions state)
  == startingBalance state + totalPnl state.

(** The scenario "open, then close" of the specification: a balance of
    1000, an edge of +0.10 at a price of 0.40, then an edge of +0.04 at a
    price of 0.32 one minute later. *)
Module Scenario.
Open Scope string_scope.

Definition btc200k : Market :=
  mkMarket "m1" "Will Bitcoin hit $200k by December 31, 2025?" "BTC"
           200000 above one_touch (30 * 86400000).

Definition firstQuote : ArbitrageOpportunity :=
  mkOpportunity btc200k 100000 0.40 0.30 None 0.10 None.

Definition secondQuote : ArbitrageOpportunity :=
  mkOpportunity btc200k 100000 0.32 0.28 None 0.04 None.

Definition firstCycle : CycleEnv :=
  mkCycleEnv [firstQuote] 0 (fun _ => "pos_a") (fun _ => "trade_a") (fun _ => "trade_b").

Definition secondCycle : CycleEnv :=
  mkCycleEnv [secondQuote] 60000 (fun _ => "pos_b") (fun _ => "trade_c")
             (fun _ => "trade_d").

Definition afterOpen : BotState := cycleState firstCycle (initialState 0).
Definition afterClose : BotState := cycleState secondCycle afterOpen.

End Scenario.

End PaperBot.

(* ------------------------------------------------------------------ *)
(** * The paper trading bot in binary64 arithmetic *)
(* ------------------------------------------------------------------ *)

(** The same functions of bot/dist/trading-bot.js as in [PaperBot], with the
    numbers of JavaScript as they are: IEEE 754 binary64 values, every
    operation rounded to the nearest.  The enumerations are those of
    [PaperBot]. *)

Module PaperBot64.
Import PrimFloat SpecFloat FloatOps.
Import PaperBot.
Local Open Scope float_scope.

(** [x < y], [x > y], [x <= y] and [x >= y] on numbers: false when an
    operand is [NaN]. *)
Definition ltb (x y : float) : bool := PrimFloat.ltb x y.
Definition gtb (x y : float) : bool := PrimFloat.ltb y x.
Definition leb (x y : float) : bool := PrimFloat.leb x y.
Definition geb (x y : float) : bool := PrimFloat.leb y x.

(** [Math.min] of two numbers: [NaN] when an operand is [NaN], and the
    negative zero is the smaller of the two zeros. *)
Definition Math_min (a b : float) : float :=
  if is_nan a || is_nan b then nan
  else if ltb a b then a
  else if ltb b a then b
  else if get_sign a then a else b.

(** The number an integer converts to; exact for the integers below 2^53 in
    absolute value, which the time values of dates and the counters are. *)
Definition ofZ (z : Z) : float :=
  match z with
  | Z0 => 0
  | Zpos _ => of_uint63 (Uint63.of_Z z)
  | Zneg p => - of_uint63 (Uint63.of_Z (Zpos p))
  end.

Record BotConfig := mkBotConfig {
  cfg_startingBalance : float;
  minEdgeToEnter : float;
  maxEdgeToExit : float;
  basePositionSize : float;
  edgeMultiplier : float;
  maxPositionSize : float;
  maxTotalExposure : float;
  pollIntervalMs : Z;
  maxPositionsPerMarket : nat;
  minTimeToExpiry : float
}.

Definition CONFIG : BotConfig := {|
  cfg_startingBalance := 1000;
  minEdgeToEnter := 0.05;
  maxEdgeToExit := 0.05;
  basePositionSize := 25;
  edgeMultiplier := 500;
  maxPositionSize := 100;
  maxTotalExposure := 500;
  pollIntervalMs := 60000;
  maxPositionsPerMarket := 1;
  minTimeToExpiry := 1
|}.

(** [opp.market]; [m_expiryDate] is [new Date(expiryDate).getTime()], in
    milliseconds. *)
Record Market := mkMarket {
  m_id : string;
  m_question : string;
  m_crypto : string;
  m_targetPrice : float;
  m_direction : Direction;
  m_betType : BetType;
  m_expiryDate : Z
}.

(** An opportunity as the bot reads it from [/api/crypto-arbitrage];
    [spotPrice] is [opp.currentPrice.price], [zscoreProb] and [deribitProb]
    are the [probability] fields of the two estimates. *)
Record ArbitrageOpportunity := mkOpportunity {
  market : Market;
  spotPrice : float;
  polymarketProb : float;
  zscoreProb : float;
  deribitProb : option float;
  edgeVsZscore : float;
  edgeVsDeribit : option float
}.

Record Position := mkPosition {
  pos_id : string;
  marketId : string;
  marketQuestion : string;
  crypto : string;
  targetPrice : float;
  direction : Direction;
  betType : BetType;
  expiryDate : Z;
  side : Side;
  entryPrice : float;
  size : float;
  shares : float;
  entryEdge : float;
  entryZscoreProb : float;
  entryDeribitProb : option float;
  entryTimestamp : Z;
  currentPrice : float;
  currentEdge : float;
  unrealizedPnl : float;
  status : Status;
  closeReason : option ExitReason;
  closePrice : option float;
  closeTimestamp : option Z;
  realizedPnl : option float
}.

Record Trade := mkTrade {
  t_id : string;
  t_positionId : string;
  t_marketId : string;
  t_timestamp : Z;
  t_action : Action;
  t_side : Side;
  t_price : float;
  t_size : float;
  t_shares : float;
  t_edge : float;
  t_zscoreProb : float;
  t_deribitProb : option float;
  t_cryptoPrice : float;
  t_pnl : option float
}.

Record BotState := mkBotState {
  startingBalance : float;
  currentBalance : float;
  totalPnl : float;
  openPositions : list Position;
  closedPositions : list Position;
  trades : list Trade;
  isRunning : bool;
  lastUpdate : Z;
  lastError : option string;
  totalTrades : nat;
  winningTrades : nat;
  losingTrades : nat;
  winRate : float;
  config : BotConfig
}.

(** What one cycle reads from outside: the opportunities the API returned,
    the clock ([Date.now()], milliseconds) and the identifiers that
    [`pos_${Date.now()}_${Math.random()...}`] and the like produce:
    [newPositionId k] and [openTradeId k] at iteration [k] of the entry loop,
    [closeTradeId j] at iteration [j] of the exit loop. *)
Record CycleEnv := mkCycleEnv {
  opportunities : list ArbitrageOpportunity;
  now : Z;
  newPositionId : nat -> string;
  openTradeId : nat -> string;
  closeTradeId : nat -> string
}.

(** The initial state of [loadState] when there is no state file. *)
Definition initialState (t : Z) : BotState := {|
  startingBalance := cfg_startingBalance CONFIG;
  currentBalance := cfg_startingBalance CONFIG;
  totalPnl := 0;
  openPositions := [];
  closedPositions := [];
  trades := [];
  isRunning := true;
  lastUpdate := t;
  lastError := None;
  totalTrades := 0;
  winningTrades := 0;
  losingTrades := 0;
  winRate := 0;
  config := CONFIG
|}.

(** [opp.edgeVsDeribit ?? opp.edgeVsZscore] *)
Definition effectiveEdge (opp : ArbitrageOpportunity) : float :=
  match edgeVsDeribit opp with
  | Some e => e
  | None => edgeVsZscore opp
  end.

Definition calculatePositionSize (edge : float) (config : BotConfig) : float :=
  let absEdge := abs edge in
  let size := basePositionSize config + absEdge * edgeMultiplier config in
  Math_min size (maxPositionSize config).

(** [positions.reduce((sum, p) => sum + p.size, 0)] *)
Definition getTotalExposure (positions : list Position) : float :=
  fold_left (fun sum p => sum + size p) positions 0.

(** [opportunities.find(o => o.market.id === marketId)] *)
Definition findOpportunity (opps : list ArbitrageOpportunity) (mid : string)
  : option ArbitrageOpportunity :=
  find (fun o => String.eqb (m_id (market o)) mid) opps.

Record EntryCheck := mkEntryCheck {
  shouldEnter : bool;
  ec_side : Side;
  ec_edge : float;
  ec_reason : option EntryRefusal
}.

Definition refuse (edge : float) (r : EntryRefusal) : EntryCheck :=
  mkEntryCheck false long edge (Some r).

Definition msPerDay : float := 1000 * 60 * 60 * 24.

Definition shouldEnterPosition (t : Z) (opp : ArbitrageOpportunity)
    (state : BotState) (config : BotConfig) : EntryCheck :=
  let edge := effectiveEdge opp in
  let absEdge := abs edge in
  if ltb absEdge (minEdgeToEnter config) then refuse edge edge_below_threshold
  else
    let daysToExpiry := (ofZ (m_expiryDate (market opp)) - ofZ t) / msPerDay in
    if ltb daysToExpiry (minTimeToExpiry config) then refuse edge too_close_to_expiry
    else
      match find (fun p => String.eqb (marketId p) (m_id (market opp)))
                 (openPositions state) with
      | Some _ => refuse edge already_have_position
      | None =>
        let currentExposure := getTotalExposure (openPositions state) in
        let positionSize := calculatePositionSize edge config in
        if gtb (currentExposure + positionSize) (maxTotalExposure config)
        then refuse edge would_exceed_max_exposure
        else if gtb positionSize (currentBalance state)
        then refuse edge insufficient_balance
        else
          let side := if gtb edge 0 then short else long in
          mkEntryCheck true side edge None
      end.

Record ExitCheck := mkExitCheck {
  shouldExit : bool;
  xc_reason : ExitReason;
  xc_currentPrice : float;
  xc_currentEdge : float
}.

Definition shouldExitPosition (t : Z) (position : Position)
    (opp : option ArbitrageOpportunity) (config : BotConfig) : ExitCheck :=
  match opp with
  | None =>
    if Z.ltb (expiryDate position) t
    then mkExitCheck true reason_expired (currentPrice position) 0
    else mkExitCheck false reason_none (currentPrice position) (currentEdge position)
  | Some opp =>
    let currentPrice := polymarketProb opp in
    let currentEdge := effectiveEdge opp in
    let absEdge := abs currentEdge in
    if ltb absEdge (maxEdgeToExit config)
    then mkExitCheck true reason_edge_aligned currentPrice currentEdge
    else
      let newSide := if gtb currentEdge 0 then short else long in
      if negb (side_eqb newSide (side position)) && geb absEdge (minEdgeToEnter config)
      then mkExitCheck true reason_edge_aligned currentPrice currentEdge
      else mkExitCheck false reason_none currentPrice currentEdge
  end.

(** [state.trades.push(trade); state.totalTrades++; state.currentBalance -= size]
    of [openPosition]. *)
Definition recordOpen (trade : Trade) (sz : float) (state : BotState) : BotState := {|
  startingBalance := startingBalance state;
  currentBalance := currentBalance state - sz;
  totalPnl := totalPnl state;
  openPositions := openPositions state;
  closedPositions := closedPositions state;
  trades := trades state ++ [trade];
  isRunning := isRunning state;
  lastUpdate := lastUpdate state;
  lastError := lastError state;
  totalTrades := S (totalTrades state);
  winningTrades := winningTrades state;
  losingTrades := losingTrades state;
  winRate := winRate state;
  config := config state
|}.

(** [openPosition] returns the new position and has updated the state;
    [k] is the iteration of the entry loop. *)
Definition openPosition (env : CycleEnv) (k : nat) (opp : ArbitrageOpportunity)
    (sd : Side) (edge : float) (state : BotState) (config : BotConfig)
  : Position * BotState :=
  let size := calculatePositionSize edge config in
  let entryPrice := polymarketProb opp in
  let effectivePrice := match sd with long => entryPrice | short => 1 - entryPrice end in
  let shares := size / effectivePrice in
  let position := {|
    pos_id := newPositionId env k;
    marketId := m_id (market opp);
    marketQuestion := m_question (market opp);
    crypto := m_crypto (market opp);
    targetPrice := m_targetPrice (market opp);
    direction := m_direction (market opp);
    betType := m_betType (market opp);
    expiryDate := m_expiryDate (market opp);
    side := sd;
    entryPrice := entryPrice;
    size := size;
    shares := shares;
    entryEdge := edge;
    entryZscoreProb := zscoreProb opp;
    entryDeribitProb := deribitProb opp;
    entryTimestamp := now env;
    currentPrice := entryPrice;
    currentEdge := edge;
    unrealizedPnl := 0;
    status := status_open;
    closeReason := None;
    closePrice := None;
    closeTimestamp := None;
    realizedPnl := None
  |} in
  let trade := {|
    t_id := openTradeId env k;
    t_positionId := pos_id position;
    t_marketId := m_id (market opp);
    t_timestamp := now env;
    t_action := action_open;
    t_side := sd;
    t_price := entryPrice;
    t_size := size;
    t_shares := shares;
    t_edge := edge;
    t_zscoreProb := zscoreProb opp;
    t_deribitProb := deribitProb opp;
    t_cryptoPrice := spotPrice opp;
    t_pnl := None
  |} in
  (position, recordOpen trade size state).

(** The profit or loss [closePosition] computes. *)
Definition closePnl (position : Position) (price : float) : float :=
  match side position with
  | long => shares position * (price - entryPrice position)
  | short => shares position * (entryPrice position - price)
  end.

(** The position object after the assignments of [closePosition]. *)
Definition closedPosition (t : Z) (position : Position) (price edge : float)
    (reason : ExitReason) : Position := {|
  pos_id := pos_id position;
  marketId := marketId position;
  marketQuestion := marketQuestion position;
  crypto := crypto position;
  targetPrice := targetPrice position;
  direction := direction position;
  betType := betType position;
  expiryDate := expiryDate position;
  side := side position;
  entryPrice := entryPrice position;
  size := size position;
  shares := shares position;
  entryEdge := entryEdge position;
  entryZscoreProb := entryZscoreProb position;
  entryDeribitProb := entryDeribitProb position;
  entryTimestamp := entryTimestamp position;
  currentPrice := price;
  currentEdge := edge;
  unrealizedPnl := unrealizedPnl position;
  status := status_closed;
  closeReason := Some reason;
  closePrice := Some price;
  closeTimestamp := Some t;
  realizedPnl := Some (closePnl position price)
|}.

(** [j] is the iteration of the exit loop. *)
Definition closePosition (env : CycleEnv) (j : nat) (position : Position)
    (price edge : float) (reason : ExitReason) (state : BotState) : BotState :=
  let pnl := closePnl position price in
  let position' := closedPosition (now env) position price edge reason in
  let trade := {|
    t_id := closeTradeId env j;
    t_positionId := pos_id position;
    t_marketId := marketId position;
    t_timestamp := now env;
    t_action := action_close;
    t_side := side position;
    t_price := price;
    t_size := size position;
    t_shares := shares position;
    t_edge := edge;
    t_zscoreProb := 0;
    t_deribitProb := None;
    t_cryptoPrice := 0;
    t_pnl := Some pnl
  |} in
  let winning := if gtb pnl 0 then S (winningTrades state) else winningTrades state in
  let losing :=
    if gtb pnl 0 then losingTrades state
    else if ltb pnl 0 then S (losingTrades state) else losingTrades state in
  {|
    startingBalance := startingBalance state;
    currentBalance := currentBalance state + (size position + pnl);
    totalPnl := totalPnl state + pnl;
    openPositions :=
      filter (fun p => negb (String.eqb (pos_id p) (pos_id position)))
             (openPositions state);
    closedPositions := closedPositions state ++ [position'];
    trades := trades state ++ [trade];
    isRunning := isRunning state;
    lastUpdate := lastUpdate state;
    lastError := lastError state;
    totalTrades := S (totalTrades state);
    winningTrades := winning;
    losingTrades := losing;
    winRate := ofZ (Z.of_nat winning)
               / ofZ (Z.of_nat (Nat.max 1 (winning + losing)));
    config := config state
  |}.

(** One position of [updateOpenPositions]. *)
Definition refreshPosition (opps : list ArbitrageOpportunity) (position : Position)
  : Position :=
  match findOpportunity opps (marketId position) with
  | None => position
  | Some opp =>
    let price := polymarketProb opp in
    {|
      pos_id := pos_id position;
      marketId := marketId position;
      marketQuestion := marketQuestion position;
      crypto := crypto position;
      targetPrice := targetPrice position;
      direction := direction position;
      betType := betType position;
      expiryDate := expiryDate position;
      side := side position;
      entryPrice := entryPrice position;
      size := size position;
      shares := shares position;
      entryEdge := entryEdge position;
      entryZscoreProb := entryZscoreProb position;
      entryDeribitProb := entryDeribitProb position;
      entryTimestamp := entryTimestamp position;
      currentPrice := price;
      currentEdge := effectiveEdge opp;
      unrealizedPnl :=
        match side position with
        | long => shares position * (price - entryPrice position)
        | short => shares position * (entryPrice position - price)
        end;
      status := status position;
      closeReason := closeReason position;
      closePrice := closePrice position;
      closeTimestamp := closeTimestamp position;
      realizedPnl := realizedPnl position
    |}
  end.

Definition withOpenPositions (ps : list Position) (state : BotState) : BotState := {|
  startingBalance := startingBalance state;
  currentBalance := currentBalance state;
  totalPnl := totalPnl state;
  openPositions := ps;
  closedPositions := closedPositions state;
  trades := trades state;
  isRunning := isRunning state;
  lastUpdate := lastUpdate state;
  lastError := lastError state;
  totalTrades := totalTrades state;
  winningTrades := winningTrades state;
  losingTrades := losingTrades state;
  winRate := winRate state;
  config := config state
|}.

Definition updateOpenPositions (opps : list ArbitrageOpportunity) (state : BotState)
  : BotState :=
  withOpenPositions (map (refreshPosition opps) (openPositions state)) state.

(** The exit loop of [runBotCycle] over the copy [[...state.openPositions]];
    [j] counts the iterations. *)
Fixpoint exitLoop (env : CycleEnv) (j : nat) (snapshot : list Position)
    (state : BotState) : BotState :=
  match snapshot with
  | [] => state
  | position :: rest =>
    let opp := findOpportunity (opportunities env) (marketId position) in
    let exitCheck := shouldExitPosition (now env) position opp CONFIG in
    let state' :=
      if shouldExit exitCheck
      then closePosition env j position (xc_currentPrice exitCheck)
                         (xc_currentEdge exitCheck) (xc_reason exitCheck) state
      else state in
    exitLoop env (S j) rest state'
  end.

(** The entry loop of [runBotCycle]; [k] counts the iterations. *)
Fixpoint entryLoop (env : CycleEnv) (k : nat) (opps : list ArbitrageOpportunity)
    (state : BotState) : BotState :=
  match opps with
  | [] => state
  | opp :: rest =>
    let entryCheck := shouldEnterPosition (now env) opp state CONFIG in
    let state' :=
      if shouldEnter entryCheck
      then
        let (position, state1) :=
          openPosition env k opp (ec_side entryCheck) (ec_edge entryCheck) state CONFIG in
        withOpenPositions (openPositions state1 ++ [position]) state1
      else state in
    entryLoop env (S k) rest state'
  end.

(** [state.lastUpdate = new Date().toISOString(); state.lastError = undefined] *)
Definition stamp (t : Z) (state : BotState) : BotState := {|
  startingBalance := startingBalance state;
  currentBalance := currentBalance state;
  totalPnl := totalPnl state;
  openPositions := openPositions state;
  closedPositions := closedPositions state;
  trades := trades state;
  isRunning := isRunning state;
  lastUpdate := t;
  lastError := None;
  totalTrades := totalTrades state;
  winningTrades := winningTrades state;
  losingTrades := losingTrades state;
  winRate := winRate state;
  config := config state
|}.

(** The state at the end of the [try] block of [runBotCycle]; with no
    opportunity the function returns at once. *)
Definition cycleState (env : CycleEnv) (state : BotState) : BotState :=
  match opportunities env with
  | [] => state
  | _ :: _ =>
    let s1 := updateOpenPositions (opportunities env) state in
    let s2 := exitLoop env 0 (openPositions s1) s1 in
    let s3 := entryLoop env 0 (opportunities env) s2 in
    stamp (now env) s3
  end.

(** The identifiers drawn in a cycle are new: the entry loop never draws
    the same identifier twice, nor that of a position that is open. *)
Definition freshIds (env : CycleEnv) (state : BotState) : Prop :=
  let n := List.length (opportunities env) in
  (forall a b, (a < n)%nat -> (b < n)%nat ->
     newPositionId env a = newPositionId env b -> a = b) /\
  (forall a, (a < n)%nat ->
     ~ In (newPositionId env a) (map pos_id (openPositions state))).

(** The states the bot reaches from the initial state, cycle after cycle. *)
Inductive reachable : BotState -> Prop :=
| reachable_initial t : reachable (initialState t)
| reachable_cycle env state :
    reachable state -> freshIds env state -> reachable (cycleState env state).

(** The number a finite double stands for; 0 for an infinity and for
    [NaN], which [finite] tells apart. *)
Definition exact (x : float) : Q :=
  match Prim2SF x with
  | S754_finite s m e =>
    ((if s then -1 else 1) * inject_Z (Zpos m) * Qpower 2 e)%Q
  | _ => 0%Q
  end.

Definition finite (x : float) : bool :=
  match Prim2SF x with
  | S754_zero _ | S754_finite _ _ _ => true
  | _ => false
  end.





(** The state after [openPosition] and the [push] of the entry loop. *)
Definition entered (env : CycleEnv) (k : nat) (opp : ArbitrageOpportunity)
    (sd : Side) (edge : float) (state : BotState) : BotState :=
  let (position, state1) := openPosition env k opp sd edge state CONFIG in
  withOpenPositions (openPositions state1 ++ [position]) state1.

(** Open, then close: a balance of 1000, an edge of -0.14 at a price of
    0.35, then an edge of -0.04 at a price of 0.36 one minute later. *)
Module Scenario.
Open Scope string_scope.

Definition btc200k : Market :=
  mkMarket "m1" "Will Bitcoin hit $200k by December 31, 2025?" "BTC"
           200000 above one_touch (30 * 86400000).

Definition firstQuote : ArbitrageOpportunity :=
  mkOpportunity btc200k 100000 0.35 0.49 None (-0.14) None.

Definition secondQuote : ArbitrageOpportunity :=
  mkOpportunity btc200k 100000 0.36 0.40 None (-0.04) None.

Definition firstCycle : CycleEnv :=
  mkCycleEnv [firstQuote] 0 (fun _ => "pos_a") (fun _ => "trade_a") (fun _ => "trade_b").

Definition secondCycle : CycleEnv :=
  mkCycleEnv [secondQuote] 60000 (fun _ => "pos_b") (fun _ => "trade_c")
             (fun _ => "trade_d").

Definition afterOpen : BotState := cycleState firstCycle (initialState 0).
Definition afterClose : BotState := cycleState secondCycle afterOpen.


End Scenario.

End PaperBot64.

(* ------------------------------------------------------------------ *)
(** * The entry check of the real-money bot (bot/real-trading-bot.ts) *)
(* ------------------------------------------------------------------ *)

Module RealBot.
Open Scope Q_scope.
Import QB.
Import PaperBot.

Record RealBotConfig := mkRealBotConfig {
  maxTotalExposure : Q;
  minEdgeToEnter : Q;
  maxEdgeToExit : Q;
  basePositionSize : Q;
  edgeMultiplier : Q;
  maxPositionSize : Q;
  pollIntervalMs : Z;
  minTimeToExpiry : Q;
  dryRun : bool
}.

Definition CONFIG : RealBotConfig := {|
  maxTotalExposure := 10;
  minEdgeToEnter := 0.05;
  maxEdgeToExit := 0.05;
  basePositionSize := 1;
  edgeMultiplier := 20;
  maxPositionSize := 5;
  pollIntervalMs := 120000;
  minTimeToExpiry := 1;
  dryRun := false
|}.

Record RealPosition := mkRealPosition {
  rp_id : string;
  rp_marketId : string;
  rp_marketQuestion : string;
  rp_tokenId : string;
  rp_side : Side;
  rp_entryPrice : Q;
  rp_size : Q;
  rp_shares : Q;
  rp_entryEdge : Q;
  rp_entryTimestamp : Z;
  rp_orderId : option string;
  rp_status : Status;
  rp_closePrice : option Q;
  rp_realizedPnl : option Q
}.

Record RealBotState := mkRealBotState {
  maxExposure : Q;
  currentExposure : Q;
  rs_totalPnl : Q;
  rs_openPositions : list RealPosition;
  rs_closedPositions : list RealPosition;
  rs_isRunning : bool;
  rs_lastUpdate : Z;
  rs_lastError : option string;
  rs_config : RealBotConfig
}.

(** The templates of the [reason] of a refused entry. *)
Inductive EntryRefusal :=
| price_above_99_resolved
| price_below_1_resolved
| dip_already_happened
| target_already_hit
| edge_below_threshold
| too_close_to_expiry
| already_have_position
| remaining_exposure_too_small
| position_size_too_small.

Record EntryCheck := mkEntryCheck {
  shouldEnter : bool;
  ec_side : Side;
  ec_edge : Q;
  ec_size : Q;
  ec_reason : option EntryRefusal
}.

Definition refuse (edge : Q) (r : EntryRefusal) : EntryCheck :=
  mkEntryCheck false long edge 0 (Some r).

(** A number in a condition: true unless it is zero. *)
Definition truthy (x : Q) : bool := negb (Qeq_bool x 0).

Definition calculatePositionSize (edge : Q) (config : RealBotConfig)
    (remainingExposure : Q) : Q :=
  let absEdge := Qabs edge in
  let size := basePositionSize config + absEdge * edgeMultiplier config in
  let size := Qmin size (maxPositionSize config) in
  let size := Qmin size remainingExposure in
  Math_round (size * 100) / 100.

Definition shouldEnterPosition (t : Z) (opp : ArbitrageOpportunity)
    (state : RealBotState) (config : RealBotConfig) : EntryCheck :=
  let edge := effectiveEdge opp in
  let absEdge := Qabs edge in
  let polyPrice := polymarketProb opp in
  if gtb polyPrice 0.99 then refuse edge price_above_99_resolved
  else if ltb polyPrice 0.01 then refuse edge price_below_1_resolved
  else
    let currentCryptoPrice := spotPrice opp in
    let targetPrice := m_targetPrice (market opp) in
    let direction := m_direction (market opp) in
    let oneTouch := match m_betType (market opp) with one_touch => true | binary => false end in
    let isBelow := match direction with below => true | above => false end in
    let guarded := truthy currentCryptoPrice && truthy targetPrice && oneTouch in
    if guarded && isBelow && leb currentCryptoPrice targetPrice
    then refuse edge dip_already_happened
    else if guarded && negb isBelow && geb currentCryptoPrice targetPrice
    then refuse edge target_already_hit
    else if ltb absEdge (minEdgeToEnter config) then refuse edge edge_below_threshold
    else
      let daysToExpiry := inject_Z (m_expiryDate (market opp) - t) / msPerDay in
      if ltb daysToExpiry (minTimeToExpiry config) then refuse edge too_close_to_expiry
      else
        match find (fun p => String.eqb (rp_marketId p) (m_id (market opp)))
                   (rs_openPositions state) with
        | Some _ => refuse edge already_have_position
        | None =>
          let remainingExposure := maxTotalExposure config - currentExposure state in
          if ltb remainingExposure 0.50 then refuse edge remaining_exposure_too_small
          else
            let size := calculatePositionSize edge config remainingExposure in
            if ltb size 0.50 then refuse edge position_size_too_small
            else
              let side := if gtb edge 0 then short else long in
              mkEntryCheck true side edge size None
        end.

(** The entry was refused by the guard on resolved markets. *)
Definition refusedAsResolved (c : EntryCheck) : bool :=
  match ec_reason c with
  | Some price_above_99_resolved | Some price_below_1_resolved => true
  | _ => false
  end.

Definition emptyState : RealBotState := {|
  maxExposure := maxTotalExposure CONFIG;
  currentExposure := 0;
  rs_totalPnl := 0;
  rs_openPositions := [];
  rs_closedPositions := [];
  rs_isRunning := true;
  rs_lastUpdate := 0;
  rs_lastError := None;
  rs_config := CONFIG
|}.

(** A market quoted at exactly 0.99, with an edge of 0.19. *)
Definition quotedAt99 : ArbitrageOpportunity :=
  mkOpportunity Scenario.btc200k 100000 0.99 0.80 None 0.19 None.

End RealBot.

(* ------------------------------------------------------------------ *)
(** * The entry check of the paper bot's TypeScript source
      (the second [shouldEnterPosition] of bot/real-trading-bot.ts) *)
(* ------------------------------------------------------------------ *)

Module PaperBotTs.
Open Scope Q_scope.
Import QB.
Import PaperBot.

Inductive EntryRefusal :=
| price_above_95_likely_resolved
| price_below_5_likely_resolved
| dip_already_happened
| target_already_hit
| agree_at_high_probability
| agree_at_low_probability
| edge_below_threshold
| too_close_to_expiry
| already_have_position
| would_exceed_max_exposure
| insufficient_balance.

Record EntryCheck := mkEntryCheck {
  shouldEnter : bool;
  ec_side : Side;
  ec_edge : Q;
  ec_reason : option EntryRefusal
}.

Definition refuse (edge : Q) (r : EntryRefusal) : EntryCheck :=
  mkEntryCheck false long edge (Some r).

Definition truthy (x : Q) : bool := negb (Qeq_bool x 0).

(** [opp.deribitProb?.probability ?? opp.zscoreProb?.probability] *)
Definition modelProbability (opp : ArbitrageOpportunity) : Q :=
  match deribitProb opp with
  | Some p => p
  | None => zscoreProb opp
  end.

Definition shouldEnterPosition (t : Z) (opp : ArbitrageOpportunity)
    (state : BotState) (config : BotConfig) : EntryCheck :=
  let edge := effectiveEdge opp in
  let absEdge := Qabs edge in
  let polyPrice := polymarketProb opp in
  if gtb polyPrice 0.95 then refuse edge price_above_95_likely_resolved
  else if ltb polyPrice 0.05 then refuse edge price_below_5_likely_resolved
  else
    let currentCryptoPrice := spotPrice opp in
    let targetPrice := m_targetPrice (market opp) in
    let oneTouch := match m_betType (market opp) with one_touch => true | binary => false end in
    let isBelow := match m_direction (market opp) with below => true | above => false end in
    let guarded := truthy currentCryptoPrice && truthy targetPrice && oneTouch in
    if guarded && isBelow && leb currentCryptoPrice targetPrice
    then refuse edge dip_already_happened
    else if guarded && negb isBelow && geb currentCryptoPrice targetPrice
    then refuse edge target_already_hit
    else
      let modelProb := modelProbability opp in
      if truthy modelProb && gtb modelProb 0.90 && gtb polyPrice 0.90
      then refuse edge agree_at_high_probability
      else if truthy modelProb && ltb modelProb 0.10 && ltb polyPrice 0.10
      then refuse edge agree_at_low_probability
      else if ltb absEdge (PaperBot.minEdgeToEnter config)
      then refuse edge edge_below_threshold
      else
        let daysToExpiry := inject_Z (m_expiryDate (market opp) - t) / msPerDay in
        if ltb daysToExpiry (PaperBot.minTimeToExpiry config)
        then refuse edge too_close_to_expiry
        else
          match find (fun p => String.eqb (marketId p) (m_id (market opp)))
                     (openPositions state) with
          | Some _ => refuse edge already_have_position
          | None =>
            let currentExposure := getTotalExposure (openPositions state) in
            let positionSize := PaperBot.calculatePositionSize edge config in
            if gtb (currentExposure + positionSize) (PaperBot.maxTotalExposure config)
            then refuse edge would_exceed_max_exposure
            else if gtb positionSize (currentBalance state)
            then refuse edge insufficient_balance
            else
              let side := if gtb edge 0 then short else long in
              mkEntryCheck true side edge None
          end.

Definition refusedAsResolved (c : EntryCheck) : bool :=
  match ec_reason c with
  | Some price_above_95_likely_resolved | Some price_below_5_likely_resolved => true
  | _ => false
  end.

(** A market quoted at 0.97, with an edge of 0.17. *)
Definition quotedAt97 : ArbitrageOpportunity :=
  mkOpportunity Scenario.btc200k 100000 0.97 0.80 None 0.17 None.

End PaperBotTs.

(* ------------------------------------------------------------------ *)
(** * Comparisons on reals as booleans *)
(* ------------------------------------------------------------------ *)

Module RB.
Open Scope R_scope.

Definition ltb (x y : R) : bool := if Rlt_dec x y then true else false.
Definition gtb (x y : R) : bool := ltb y x.
Definition leb (x y : R) : bool := if Rle_dec x y then true else false.
Definition geb (x y : R) : bool := leb y x.
(** A number in a condition: true unless it is zero. *)
Definition truthy (x : R) : bool := if Req_dec_T x 0 then false else true.

End RB.

(* ------------------------------------------------------------------ *)
(** * The probability engine (lib/crypto-math) *)
(* ------------------------------------------------------------------ *)

Module CryptoMath.
Open Scope R_scope.
Import RB.

(** A z-score: a real, or one of the two infinities [calculateZScore]
    returns for inputs that are not positive. *)
Inductive Num := finite (r : R) | plus_infinity | minus_infinity.

Inductive BetType := binary | one_touch.
Inductive Direction := above | below.
Inductive Method := zscore | deribit_delta | vertical_spread.
Inductive Signal := buy | sell | neutral.
Inductive Confidence := high | medium | low.

(** [normalCDF] on a finite argument. *)
Definition normalCDF_finite (x : R) : R :=
  let a1 := 0.254829592 in
  let a2 := -0.284496736 in
  let a3 := 1.421413741 in
  let a4 := -1.453152027 in
  let a5 := 1.061405429 in
  let p := 0.3275911 in
  let sign := if ltb x 0 then -1 else 1 in
  let x := Rabs x / sqrt 2 in
  let t := 1 / (1 + p * x) in
  let y := 1 - (((((a5 * t + a4) * t) + a3) * t + a2) * t + a1) * t * exp (- x * x) in
  0.5 * (1 + sign * y).

(** [normalCDF].  At [Infinity] the source computes [t = 1/(1 + p*Infinity) = 0]
    and [Math.exp(-Infinity) = 0], hence [y = 1]: the result is
    [0.5 * (1 + 1)] at plus infinity and [0.5 * (1 - 1)] at minus infinity. *)
Definition normalCDF (x : Num) : R :=
  match x with
  | finite r => normalCDF_finite r
  | plus_infinity => 1
  | minus_infinity => 0
  end.

Definition msPerYear : R := 365.25 * 24 * 60 * 60 * 1000.

(** Dates are milliseconds since the epoch ([getTime()]). *)
Definition timeToExpiryYears (expiryDate fromDate : R) : R :=
  let diffMs := expiryDate - fromDate in
  Rmax 0 (diffMs / msPerYear).

Definition calculateZScore (currentPrice targetPrice volatility timeYears : R) : Num :=
  if leb currentPrice 0 || leb targetPrice 0 || leb volatility 0 || leb timeYears 0
  then (if gtb targetPrice currentPrice then plus_infinity else minus_infinity)
  else
    let logReturn := ln (targetPrice / currentPrice) in
    let scaledVol := volatility * sqrt timeYears in
    finite (logReturn / scaledVol).

(** A [ProbabilityEstimate] without its [mathBreakdown], which is text for
    display. *)
Record ProbabilityEstimate := mkEstimate {
  method : Method;
  probability : R;
  volatilityUsed : R;
  timeToExpiry : R;
  zScore : option Num;
  delta : option R
}.

Definition calculateZScoreProbability
    (currentPrice targetPrice volatility timeYears : R) : ProbabilityEstimate :=
  let zScore := calculateZScore currentPrice targetPrice volatility timeYears in
  let probability := 1 - normalCDF zScore in
  mkEstimate zscore probability volatility timeYears (Some zScore) None.

Definition calculateOneTouchProbability
    (currentPrice targetPrice volatility timeYears : R) : ProbabilityEstimate :=
  let zScore := calculateZScore currentPrice targetPrice volatility timeYears in
  let isUpward := gtb targetPrice currentPrice in
  let binaryProb := if isUpward then 1 - normalCDF zScore else normalCDF zScore in
  let oneTouchProb := Rmin 1.0 (2 * binaryProb) in
  mkEstimate zscore oneTouchProb volatility timeYears (Some zScore) None.

(** [calculateD1D2] with its default [riskFreeRate = 0], for prices whose
    quotient is positive; of another quotient [Math.log] is [NaN] or an
    infinity, which the real logarithm here is not. *)
Definition calculateD1D2 (currentPrice strikePrice volatility timeYears : R) : R * R :=
  let riskFreeRate := 0 in
  if leb timeYears 0 || leb volatility 0 then (0, 0)
  else
    let sqrtT := sqrt timeYears in
    let d1 := (ln (currentPrice / strikePrice)
               + (riskFreeRate + 0.5 * volatility * volatility) * timeYears)
              / (volatility * sqrtT) in
    let d2 := d1 - volatility * sqrtT in
    (d1, d2).

Definition calculateCallDelta (currentPrice strikePrice volatility timeYears : R) : R :=
  let (d1, _) := calculateD1D2 currentPrice strikePrice volatility timeYears in
  normalCDF (finite d1).

Definition calculateDeribitProbability (delta : R) (betType : BetType)
    (volatility timeYears : R) : ProbabilityEstimate :=
  let probability :=
    match betType with
    | binary => delta
    | one_touch => Rmin 1.0 (2 * delta)
    end in
  mkEstimate deribit_delta probability volatility timeYears None (Some delta).

Record Edge := mkEdge {
  edge : R;
  signal : Signal;
  confidence : Confidence
}.

Definition calculateEdge (polymarketPrice modelProbability : R) : Edge :=
  let edge := polymarketPrice - modelProbability in
  let absEdge := Rabs edge in
  let signal :=
    if ltb absEdge 0.03 then neutral
    else if gtb edge 0 then sell
    else buy in
  let confidence :=
    if gtb absEdge 0.10 then high
    else if gtb absEdge 0.05 then medium
    else low in
  mkEdge edge signal confidence.

End CryptoMath.

(* ------------------------------------------------------------------ *)
(** * The opportunity pipeline (app/api/crypto-arbitrage/route.ts) *)
(* ------------------------------------------------------------------ *)

Module Pipeline.
Open Scope R_scope.
Import RB.
Import CryptoMath.

(** A [CryptoMarket]; [expiryDate] in milliseconds, [volume] the number
    whose decimal text the field holds. *)
Record CryptoMarket := mkCryptoMarket {
  id : string;
  question : string;
  crypto : string;
  targetPrice : R;
  expiryDate : R;
  betType : BetType;
  direction : Direction;
  polymarketPrice : R;
  volume : option R
}.

(** One entry of [ivByStrike]. *)
Record StrikeData := mkStrikeData {
  strike : R;
  callIv : R;
  putIv : R;
  callDelta : R;
  putDelta : R
}.

(** [DeribitOptionsData]: [ivByStrike] lists the entries of the object by
    key, in the order of [Object.keys]. *)
Record DeribitOptionsData := mkDeribit {
  atmIv : R;
  ivByStrike : list (R * StrikeData)
}.

Inductive VolSource := source_deribit | source_default.

Record VolatilityData := mkVolatility {
  vol_symbol : string;
  deribitIv : option R;
  defaultVol : R;
  source : VolSource;
  volatility : R
}.

Definition DERIBIT_SUPPORTED : list string := ["BTC"%string; "ETH"%string].

Definition includes (l : list string) (s : string) : bool :=
  existsb (String.eqb s) l.

(** [DEFAULT_VOLATILITY[symbol] || DEFAULT_VOLATILITY.DEFAULT] *)
Definition DEFAULT_VOLATILITY (symbol : string) : R :=
  if String.eqb symbol "BTC" then 0.55
  else if String.eqb symbol "ETH" then 0.65
  else if String.eqb symbol "SOL" then 0.85
  else if String.eqb symbol "ADA" then 0.75
  else if String.eqb symbol "DOGE" then 1.00
  else if String.eqb symbol "XRP" then 0.70
  else if String.eqb symbol "MATIC" then 0.80
  else if String.eqb symbol "AVAX" then 0.80
  else if String.eqb symbol "LINK" then 0.75
  else if String.eqb symbol "DOT" then 0.75
  else if String.eqb symbol "LTC" then 0.65
  else 0.70.

Definition getVolatilityData (symbol : string)
    (deribitData : string -> option DeribitOptionsData) : VolatilityData :=
  match deribitData symbol with
  | Some deribit =>
    if gtb (atmIv deribit) 0
    then mkVolatility symbol (Some (atmIv deribit)) (DEFAULT_VOLATILITY symbol)
                      source_deribit (atmIv deribit)
    else mkVolatility symbol None (DEFAULT_VOLATILITY symbol) source_default
                      (DEFAULT_VOLATILITY symbol)
  | None =>
    mkVolatility symbol None (DEFAULT_VOLATILITY symbol) source_default
                 (DEFAULT_VOLATILITY symbol)
  end.

Record StrikeIV := mkStrikeIV {
  iv : R;
  iv_delta : option R
}.

(** [strikes.reduce((best, strike) => |strike - target| < |best - target| ? strike : best)] *)
Definition closestStrike (strikes : list R) (targetStrike first : R) : R :=
  fold_left
    (fun best strike =>
       if ltb (Rabs (strike - targetStrike)) (Rabs (best - targetStrike))
       then strike else best)
    strikes first.

(** [ivByStrike[closest]] *)
Fixpoint lookupStrike (l : list (R * StrikeData)) (k : R) : option StrikeData :=
  match l with
  | [] => None
  | (s, d) :: rest => if Req_dec_T s k then Some d else lookupStrike rest k
  end.

(** [a || b] on numbers *)
Definition orElse (a b : R) : R := if truthy a then a else b.

Definition findClosestStrikeIV (deribit : DeribitOptionsData) (targetStrike : R)
    (targetExpiry : R) : option StrikeIV :=
  match map fst (ivByStrike deribit) with
  | [] => Some (mkStrikeIV (atmIv deribit) None)
  | first :: others =>
    let closest := closestStrike others targetStrike first in
    match lookupStrike (ivByStrike deribit) closest with
    | None => Some (mkStrikeIV (atmIv deribit) None)
    | Some data =>
      let strikeIsClose := ltb (Rabs (closest - targetStrike) / targetStrike) 0.2 in
      Some (mkStrikeIV
              (orElse (callIv data) (atmIv deribit))
              (if strikeIsClose && truthy (callDelta data)
                  && gtb (callDelta data) 0 && ltb (callDelta data) 1
               then Some (callDelta data) else None))
    end
  end.

Record ArbitrageOpportunity := mkOpportunity {
  market : CryptoMarket;
  currentPrice : R;
  opp_volatility : VolatilityData;
  polymarketProb : R;
  zscoreProb : ProbabilityEstimate;
  deribitProb : option ProbabilityEstimate;
  edgeVsZscore : R;
  edgeVsDeribit : option R;
  opp_signal : Signal;
  opp_confidence : Confidence
}.

(** The z-score estimate of a market (step 5 of [GET], first half). *)
Definition zscoreEstimate (m : CryptoMarket) (currentPrice vol timeYears : R)
  : ProbabilityEstimate :=
  let effectiveTarget :=
    match direction m with below => targetPrice m | above => targetPrice m end in
  match betType m with
  | one_touch => calculateOneTouchProbability currentPrice effectiveTarget vol timeYears
  | binary =>
    let z := calculateZScoreProbability currentPrice effectiveTarget vol timeYears in
    match direction m with
    | below => mkEstimate (method z) (1 - probability z) (volatilityUsed z)
                          (timeToExpiry z) (zScore z) (delta z)
    | above => z
    end
  end.

(** The variable [probability] of the options-delta branch, computed from
    the implied volatility [strikeIv] of the closest strike. *)
Definition deltaProbability (m : CryptoMarket) (currentPrice strikeIv timeYears : R) : R :=
  let effectiveTarget := targetPrice m in
  let callDelta := calculateCallDelta currentPrice effectiveTarget strikeIv timeYears in
  let putDelta := 1 - callDelta in
  let isTargetAbove := gtb effectiveTarget currentPrice in
  match betType m with
  | one_touch =>
    let baseDelta := if isTargetAbove then callDelta else putDelta in
    Rmin 1.0 (2 * baseDelta)
  | binary =>
    let useCallDelta := match direction m with above => true | below => false end in
    if useCallDelta then callDelta else putDelta
  end.

(** The options-delta estimate of a market, when there is one. *)
Definition deltaEstimate (m : CryptoMarket)
    (deribitData : string -> option DeribitOptionsData)
    (currentPrice timeYears : R) : option ProbabilityEstimate :=
  match deribitData (crypto m) with
  | None => None
  | Some deribit =>
    if includes DERIBIT_SUPPORTED (crypto m) then
      match findClosestStrikeIV deribit (targetPrice m) (expiryDate m) with
      | None => None
      | Some ivData =>
        if gtb (iv ivData) 0 then
          let strikeIv := iv ivData in
          let callDelta :=
            calculateCallDelta currentPrice (targetPrice m) strikeIv timeYears in
          let putDelta := 1 - callDelta in
          let isTargetAbove := gtb (targetPrice m) currentPrice in
          let probability := deltaProbability m currentPrice strikeIv timeYears in
          if gtb probability 0 && ltb probability 1
          then Some (mkEstimate deribit_delta probability strikeIv timeYears None
                                (Some (if isTargetAbove then callDelta else putDelta)))
          else None
        else None
      end
    else None
  end.

(** The body of the loop over the markets: [None] where the source
    [continue]s, the opportunity it pushes otherwise. *)
Definition processMarket (prices : string -> option R)
    (deribitData : string -> option DeribitOptionsData) (nowMs : R)
    (m : CryptoMarket) : option ArbitrageOpportunity :=
  match prices (crypto m) with
  | None => None
  | Some currentPrice =>
    if negb (truthy currentPrice) || leb currentPrice 0 then None
    else
      let volatility := getVolatilityData (crypto m) deribitData in
      let timeYears := timeToExpiryYears (expiryDate m) nowMs in
      if leb timeYears 0 then None
      else
        let zscoreProb := zscoreEstimate m currentPrice (Pipeline.volatility volatility) timeYears in
        let deribitProb := deltaEstimate m deribitData currentPrice timeYears in
        let polymarketProb := polymarketPrice m in
        let zscoreEdge := calculateEdge polymarketProb (probability zscoreProb) in
        let deribitEdge :=
          option_map (fun e => calculateEdge polymarketProb (probability e)) deribitProb in
        let primaryEdge := match deribitEdge with Some e => e | None => zscoreEdge end in
        Some {|
          market := m;
          currentPrice := currentPrice;
          opp_volatility := volatility;
          polymarketProb := polymarketProb;
          zscoreProb := zscoreProb;
          deribitProb := deribitProb;
          edgeVsZscore := edge zscoreEdge;
          edgeVsDeribit := option_map edge deribitEdge;
          opp_signal := signal primaryEdge;
          opp_confidence := confidence primaryEdge
        |}
  end.










(** The same market with another direction. *)
Definition withDirection (d : Direction) (m : CryptoMarket) : CryptoMarket := {|
  id := id m;
  question := question m;
  crypto := crypto m;
  targetPrice := targetPrice m;
  expiryDate := expiryDate m;
  betType := betType m;
  direction := d;
  polymarketPrice := polymarketPrice m;
  volume := volume m
|}.

(** What an opportunity says about the model: both estimates, both edges
    and the recommendation. *)
Definition modelView (o : ArbitrageOpportunity) :=
  (zscoreProb o, deribitProb o, edgeVsZscore o, edgeVsDeribit o,
   opp_signal o, opp_confidence o).

Module Example.
Open Scope string_scope.

(** A one-touch market on 120000 that expires one year after time 0. *)
Definition btc120k : CryptoMarket :=
  mkCryptoMarket "m1" "Will Bitcoin hit $120k?" "BTC" 120000 msPerYear
                 one_touch above 0.40 (Some 1000).

Definition prices (symbol : string) : option R :=
  if String.eqb symbol "BTC" then Some 100000 else None.

Definition deribitData (symbol : string) : option DeribitOptionsData :=
  if String.eqb symbol "BTC" then Some (mkDeribit 0.55 []) else None.




End Example.

End Pipeline.

(* ------------------------------------------------------------------ *)
(** * Regular expressions, as far as the question parser uses them *)
(* ------------------------------------------------------------------ *)

Module Regex.

Inductive re : Type :=
| Empty
| Char (c : ascii)
| Class (p : ascii -> bool)
| Seq (a b : re)
| Alt (a b : re)
| Repeat (a : re) (lo : nat) (hi : option nat)
| Group (n : nat) (a : re)
| WordBoundary
| StartOfInput
| EndOfInput
| NotFollowedBy (a : re).

Definition between (lo hi c : ascii) : bool :=
  (nat_of_ascii lo <=? nat_of_ascii c)%nat && (nat_of_ascii c <=? nat_of_ascii hi)%nat.

Definition isDigit (c : ascii) : bool := between "0" "9" c.

(** [\w] *)
Definition isWord (c : ascii) : bool :=
  between "a" "z" c || between "A" "Z" c || isDigit c || Ascii.eqb c "_".

(** [\s] on the code units below 256, which are the characters a [string]
    holds: tab, line feed, vertical tab, form feed, carriage return, space
    and the no-break space U+00A0. *)
Definition isSpace (c : ascii) : bool :=
  let n := nat_of_ascii c in
  (n =? 32)%nat || ((9 <=? n)%nat && (n <=? 13)%nat) || (n =? 160)%nat.

Definition toLower (c : ascii) : ascii :=
  if between "A" "Z" c then ascii_of_nat (nat_of_ascii c + 32) else c.

Definition toLowerCase (s : string) : string :=
  string_of_list_ascii (map toLower (list_ascii_of_string s)).

(** The state of a match: the position in the input and the spans of the
    groups matched so far. *)
Record MState := mkMState {
  pos : nat;
  caps : list (nat * (nat * nat))
}.

Section Matcher.

(** The flag [i] and the subject string. *)
Variable ignoreCase : bool.
Variable input : list ascii.

Definition charAt (i : nat) : option ascii := nth_error input i.

Definition sameChar (c d : ascii) : bool :=
  if ignoreCase then Ascii.eqb (toLower c) (toLower d) else Ascii.eqb c d.

Definition wordAt (i : nat) : bool :=
  match charAt i with Some c => isWord c | None => false end.

Definition advance (s : MState) : MState := mkMState (S (pos s)) (caps s).

(** A backtracking matcher in continuation-passing style: [run r s k]
    matches [r] at [s] and hands the state behind the match to [k]; when [k]
    fails the next alternative is tried.  A repetition is greedy and, once
    its lower bound is reached, stops at an iteration that consumes
    nothing. *)
Fixpoint run (r : re) (s : MState) (k : MState -> option MState) {struct r}
  : option MState :=
  match r with
  | Empty => k s
  | Char c =>
    match charAt (pos s) with
    | Some d => if sameChar c d then k (advance s) else None
    | None => None
    end
  | Class p =>
    match charAt (pos s) with
    | Some d => if p d then k (advance s) else None
    | None => None
    end
  | Seq a b => run a s (fun s' => run b s' k)
  | Alt a b =>
    match run a s k with
    | Some res => Some res
    | None => run b s k
    end
  | Repeat a lo hi =>
    (fix loop (fuel count : nat) (s : MState) {struct fuel} : option MState :=
       let stop := if (lo <=? count)%nat then k s else None in
       match fuel with
       | O => stop
       | S fuel' =>
         if match hi with Some h => (count <? h)%nat | None => true end
         then
           match run a s (fun s' =>
                   if (count <? lo)%nat || (pos s <? pos s')%nat
                   then loop fuel' (S count) s' else None) with
           | Some res => Some res
           | None => stop
           end
         else stop
       end) (lo + List.length input + 1)%nat O s
  | Group n a =>
    run a s (fun s' => k (mkMState (pos s') ((n, (pos s, pos s')) :: caps s')))
  | WordBoundary =>
    let before := match pos s with O => false | S i => wordAt i end in
    if xorb before (wordAt (pos s)) then k s else None
  | StartOfInput => if (pos s =? 0)%nat then k s else None
  | EndOfInput => if (pos s =? List.length input)%nat then k s else None
  | NotFollowedBy a =>
    match run a s (fun s' => Some s') with
    | Some _ => None
    | None => k s
    end
  end.

(** The leftmost match: the start positions are tried in turn. *)
Fixpoint searchFrom (r : re) (fuel start : nat) : option (nat * MState) :=
  match fuel with
  | O => None
  | S fuel' =>
    match run r (mkMState start []) (fun s => Some s) with
    | Some s => Some (start, s)
    | None => searchFrom r fuel' (S start)
    end
  end.

Definition slice (a b : nat) : string :=
  string_of_list_ascii (firstn (b - a) (skipn a input)).

Fixpoint capture (cs : list (nat * (nat * nat))) (n : nat) : option string :=
  match cs with
  | [] => None
  | (m, (a, b)) :: rest => if (m =? n)%nat then Some (slice a b) else capture rest n
  end.

End Matcher.

(** The number of capture groups. *)
Fixpoint groupCount (r : re) : nat :=
  match r with
  | Seq a b | Alt a b => groupCount a + groupCount b
  | Repeat a _ _ | NotFollowedBy a => groupCount a
  | Group _ a => S (groupCount a)
  | _ => O
  end.

(** A regular expression with its flag. *)
Record RegExp := mkRegExp {
  body : re;
  flag_i : bool
}.

(** The array [str.match(re)] returns for a regular expression without
    the flag [g]: the matched text, then one entry per group
    ([None] for [undefined]). *)
Definition matchRe (rx : RegExp) (str : string) : option (list (option string)) :=
  let input := list_ascii_of_string str in
  match searchFrom (flag_i rx) input (body rx) (S (List.length input)) 0 with
  | None => None
  | Some (start, s) =>
    Some (Some (slice input start (pos s))
          :: map (fun n => capture input (caps s) n) (seq 1 (groupCount (body rx))))
  end.

(** [re.test(str)] *)
Definition test (rx : RegExp) (str : string) : bool :=
  match matchRe rx str with Some _ => true | None => false end.

(** Builders. *)
Fixpoint lit (s : string) : re :=
  match s with
  | EmptyString => Empty
  | String c EmptyString => Char c
  | String c rest => Seq (Char c) (lit rest)
  end.

Fixpoint seqs (l : list re) : re :=
  match l with
  | [] => Empty
  | [r] => r
  | r :: rest => Seq r (seqs rest)
  end.

Fixpoint alts (l : list re) : re :=
  match l with
  | [] => Empty
  | [r] => r
  | r :: rest => Alt r (alts rest)
  end.

Definition star (r : re) : re := Repeat r 0 None.
Definition plus (r : re) : re := Repeat r 1 None.
Definition opt (r : re) : re := Repeat r 0 (Some 1%nat).
Definition digit : re := Class isDigit.
Definition wordChar : re := Class isWord.
Definition space : re := Class isSpace.
(** [\bword\b] *)
Definition whole (s : string) : re := seqs [WordBoundary; lit s; WordBoundary].

End Regex.

(* ------------------------------------------------------------------ *)
(** * The question parser (lib/crypto-math, market parsing utilities) *)
(* ------------------------------------------------------------------ *)

Module Parser.
Import Regex.
Import CryptoMath.
Open Scope string_scope.

Definition rxi (r : re) : RegExp := mkRegExp r true.
Definition rx (r : re) : RegExp := mkRegExp r false.

Definition exclusionPatterns : list RegExp := [
  rxi (seqs [lit "market"; star space; lit "cap"]);
  rxi (whole "fdv");
  rxi (whole "tvl");
  rxi (whole "mcap");
  rxi (lit "dominance");
  rxi (seqs [WordBoundary; lit "fee"; opt (Char "s"); WordBoundary]);
  rxi (whole "gas");
  rxi (whole "staking");
  rxi (whole "airdrop");
  rxi (whole "etf");
  rxi (whole "halving");
  rxi (seqs [lit "mega"; star space; lit "eth"]);
  rxi (whole "weth");
  rxi (whole "steth");
  rxi (whole "reth");
  rxi (whole "cbeth")
].

Definition cryptoPatterns : list (RegExp * string) := [
  (rxi (Alt (whole "bitcoin") (whole "btc")), "BTC");
  (rxi (Alt (whole "ethereum") (seqs [whole "eth"; NotFollowedBy (lit "er")])), "ETH");
  (rxi (Alt (whole "solana") (seqs [whole "sol"; NotFollowedBy (lit "ar")])), "SOL");
  (rxi (Alt (whole "cardano") (whole "ada")), "ADA");
  (rxi (Alt (whole "dogecoin") (whole "doge")), "DOGE");
  (rxi (Alt (whole "xrp") (whole "ripple")), "XRP");
  (rxi (Alt (whole "polygon") (whole "matic")), "MATIC");
  (rxi (Alt (whole "avalanche") (whole "avax")), "AVAX");
  (rxi (Alt (whole "chainlink") (whole "link")), "LINK");
  (rxi (Alt (whole "polkadot") (whole "dot")), "DOT");
  (rxi (Alt (whole "litecoin") (whole "ltc")), "LTC")
].

Definition priceKeywords : RegExp :=
  rxi (alts [whole "price"; whole "hit"; whole "reach"; whole "above"; whole "below";
             whole "exceed"; whole "surpass"; Char "$"; whole "over"; whole "under";
             whole "dip"]).

(** [([\d,]+(?:\.\d+)?)] as group 1 *)
Definition amount : re :=
  Group 1 (Seq (plus (Class (fun c => isDigit c || Ascii.eqb c ",")))
               (opt (Seq (Char ".") (plus digit)))).

Definition pricePatterns : list RegExp := [
  rxi (seqs [opt (Char "$"); amount; star space; Char "k"]);
  rxi (seqs [opt (Char "$"); amount; star space; lit "thousand"]);
  rx (seqs [Char "$"; amount]);
  rxi (seqs [amount; star space; Alt (Seq (lit "dollar") (opt (Char "s"))) (lit "usd")])
].

Definition oneTouchKeywords : RegExp :=
  rxi (alts [lit "hit"; lit "reach"; lit "touch"; lit "surpass"; lit "exceed";
             lit "dip"; lit "drop"; lit "crash"]).

Definition belowKeywords : RegExp :=
  rxi (alts [lit "below"; lit "under"; lit "less than"; lit "fall"; lit "dip";
             lit "drop"; lit "crash"; lit "sink"; lit "plunge"; lit "decline"]).

(** [(?:st|nd|rd|th)?] *)
Definition ordinal : re := opt (alts [lit "st"; lit "nd"; lit "rd"; lit "th"]).

Definition datePatterns : list RegExp := [
  rxi (seqs [Group 1 (plus wordChar); plus space; Group 2 (Repeat digit 1 (Some 2%nat));
             ordinal; opt (Char ","); star space; Group 3 (Repeat digit 4 (Some 4%nat))]);
  rxi (seqs [Group 1 (Repeat digit 1 (Some 2%nat)); ordinal; plus space;
             Group 2 (plus wordChar); opt (Char ","); star space;
             Group 3 (Repeat digit 4 (Some 4%nat))]);
  rx (seqs [Group 1 (Repeat digit 1 (Some 2%nat)); Char "/";
            Group 2 (Repeat digit 1 (Some 2%nat)); Char "/";
            Group 3 (Repeat digit 4 (Some 4%nat))]);
  rxi (seqs [lit "by"; plus space;
             opt (seqs [lit "end"; plus space; lit "of"; plus space]);
             Group 1 (Repeat digit 4 (Some 4%nat))]);
  rxi (seqs [lit "before"; plus space; Group 1 (Repeat digit 4 (Some 4%nat))]);
  rxi (seqs [lit "in"; plus space; Group 1 (Repeat digit 4 (Some 4%nat))])
].

Definition months : list (string * Z) := [
  ("january", 0%Z); ("jan", 0%Z);
  ("february", 1%Z); ("feb", 1%Z);
  ("march", 2%Z); ("mar", 2%Z);
  ("april", 3%Z); ("apr", 3%Z);
  ("may", 4%Z);
  ("june", 5%Z); ("jun", 5%Z);
  ("july", 6%Z); ("jul", 6%Z);
  ("august", 7%Z); ("aug", 7%Z);
  ("september", 8%Z); ("sep", 8%Z); ("sept", 8%Z);
  ("october", 9%Z); ("oct", 9%Z);
  ("november", 10%Z); ("nov", 10%Z);
  ("december", 11%Z); ("dec", 11%Z)
].

Fixpoint lookupMonth (l : list (string * Z)) (k : string) : option Z :=
  match l with
  | [] => None
  | (name, m) :: rest => if String.eqb name k then Some m else lookupMonth rest k
  end.

(** The names every object inherits from [Object.prototype]. *)
Definition objectPrototypeKeys : list string := [
  "constructor"; "__defineGetter__"; "__defineSetter__"; "hasOwnProperty";
  "__lookupGetter__"; "__lookupSetter__"; "isPrototypeOf";
  "propertyIsEnumerable"; "toString"; "valueOf"; "__proto__"; "toLocaleString"
].

(** What [months[k]] evaluates to.  [months] is an object literal, so a key
    that is not its own is looked up in [Object.prototype]: the value is then
    a function or an object, which is not [undefined] and is not a number. *)
Inductive MonthEntry :=
| ownMonth (m : Z)
| inheritedProperty
| undefinedEntry.

Definition monthsEntry (k : string) : MonthEntry :=
  match lookupMonth months k with
  | Some m => ownMonth m
  | None =>
    if existsb (String.eqb k) objectPrototypeKeys then inheritedProperty
    else undefinedEntry
  end.

(** A [Date] object: a time value in milliseconds, or the Invalid Date,
    whose time value is [NaN]. *)
Inductive Date :=
| instant (t : Z)
| invalidDate.

(** The leading decimal digits of a text and what follows them. *)
Fixpoint digitsValue (acc : Z) (n : nat) (l : list ascii) : Z * nat * list ascii :=
  match l with
  | c :: rest =>
    if isDigit c
    then digitsValue (10 * acc + Z.of_nat (nat_of_ascii c - 48)) (S n) rest
    else (acc, n, l)
  | [] => (acc, n, l)
  end.

(** [parseInt] on a text without sign or blanks: [None] is [NaN]. *)
Definition parseInt (s : string) : option Z :=
  match digitsValue 0 0 (list_ascii_of_string s) with
  | (_, O, _) => None
  | (v, S _, _) => Some v
  end.

(** [parseFloat] on a text without sign, blanks or exponent. *)
Definition parseFloat (s : string) : option Q :=
  match digitsValue 0 0 (list_ascii_of_string s) with
  | (ip, n, rest) =>
    let frac :=
      match rest with
      | "."%char :: more =>
        match digitsValue 0 0 more with
        | (_, O, _) => None
        | (fp, S d, _) => Some (inject_Z fp / inject_Z (10 ^ Z.of_nat (S d)))%Q
        end
      | _ => None
      end in
    match n, frac with
    | O, None => None
    | _, Some f => Some (inject_Z ip + f)%Q
    | S _, None => Some (inject_Z ip)
    end
  end.

(** [s.replace(/,/g, '')] *)
Definition removeCommas (s : string) : string :=
  string_of_list_ascii
    (filter (fun c => negb (Ascii.eqb c ",")) (list_ascii_of_string s)).

(** Days from 1970-01-01 to the given day of the proleptic Gregorian
    calendar ([m] from 1 to 12). *)
Definition daysFromCivil (y m d : Z) : Z :=
  let y' := if (m <=? 2)%Z then (y - 1)%Z else y in
  let era := (y' / 400)%Z in
  let yoe := (y' - era * 400)%Z in
  let mp := if (m >? 2)%Z then (m - 3)%Z else (m + 9)%Z in
  let doy := ((153 * mp + 2) / 5 + d - 1)%Z in
  let doe := (yoe * 365 + yoe / 4 - yoe / 100 + doy)%Z in
  (era * 146097 + doe - 719468)%Z.

(** The time value of the civil date and time read as UTC; the month is an
    index from 0, and months and days out of range carry over, as in
    [MakeDay]. *)
Definition utcTime (year month day h mi s : Z) : Z :=
  let year := if ((0 <=? year) && (year <=? 99))%Z then (1900 + year)%Z else year in
  let ym := (year + month / 12)%Z in
  let mn := (month mod 12)%Z in
  let days := (daysFromCivil ym (mn + 1) 1 + day - 1)%Z in
  (days * 86400000 + ((h * 60 + mi) * 60 + s) * 1000)%Z.

(** [new Date(year, month, day, h, mi, s).getTime()]: the arguments are
    read in the local time zone of the process.  [tzOffset] is what
    [getTimezoneOffset()] returns for that local time, in minutes: UTC minus
    local time. *)
Definition newDate (tzOffset : Z) (year month day h mi s : Z) : Z :=
  (utcTime year month day h mi s + tzOffset * 60000)%Z.

Definition nthGroup (m : list (option string)) (n : nat) : string :=
  match nth n m None with Some s => s | None => "" end.

Definition intOf (s : string) : Z :=
  match parseInt s with Some v => v | None => 0%Z end.

(** The body of the loop of [parseDateFromQuestion] for a pattern that
    matched: [Some] is a [return], [None] goes on with the next pattern. *)
Definition dateOfMatch (tzOffset : Z) (m : list (option string)) : option Date :=
  if (List.length m =? 2)%nat then
    let year := intOf (nthGroup m 1) in
    let effectiveYear :=
      if test (rxi (lit "before")) (nthGroup m 0) then (year - 1)%Z else year in
    Some (instant (newDate tzOffset effectiveYear 11 31 23 59 59))
  else if test (rx (Seq StartOfInput digit)) (nthGroup m 1)
          && test (rx (Seq StartOfInput digit)) (nthGroup m 2) then
    let month := (intOf (nthGroup m 1) - 1)%Z in
    let day := intOf (nthGroup m 2) in
    let year := intOf (nthGroup m 3) in
    Some (instant (newDate tzOffset year month day 23 59 59))
  else
    let firstIsDay :=
      test (rx (seqs [StartOfInput; plus digit; EndOfInput])) (nthGroup m 1) in
    let monthStr :=
      if firstIsDay then toLowerCase (nthGroup m 2) else toLowerCase (nthGroup m 1) in
    let day := if firstIsDay then intOf (nthGroup m 1) else intOf (nthGroup m 2) in
    let year := intOf (nthGroup m 3) in
    match monthsEntry monthStr with
    | ownMonth month => Some (instant (newDate tzOffset year month day 23 59 59))
    | inheritedProperty => Some invalidDate
    | undefinedEntry => None
    end.

Fixpoint datePatternLoop (tzOffset : Z) (patterns : list RegExp) (question : string)
  : option Date :=
  match patterns with
  | [] => None
  | pattern :: rest =>
    match matchRe pattern question with
    | Some m =>
      match dateOfMatch tzOffset m with
      | Some d => Some d
      | None => datePatternLoop tzOffset rest question
      end
    | None => datePatternLoop tzOffset rest question
    end
  end.

Definition parseDateFromQuestion (tzOffset : Z) (question : string) : option Date :=
  match datePatternLoop tzOffset datePatterns question with
  | Some d => Some d
  | None =>
    match matchRe (rx (seqs [lit "20"; Repeat digit 2 (Some 2%nat)])) question with
    | Some m => Some (instant (newDate tzOffset (intOf (nthGroup m 0)) 11 31 23 59 59))
    | None => None
    end
  end.

Fixpoint priceLoop (patterns : list RegExp) (question : string) : option Q :=
  match patterns with
  | [] => None
  | pattern :: rest =>
    match matchRe pattern question with
    | Some m =>
      let priceStr := removeCommas (nthGroup m 1) in
      match parseFloat priceStr with
      | Some price =>
        let price :=
          if test (rxi (Char "k")) (nthGroup m 0)
             || test (rxi (lit "thousand")) (nthGroup m 0)
          then (price * 1000)%Q else price in
        if QB.gtb price 0 then Some price else priceLoop rest question
      | None => priceLoop rest question
      end
    | None => priceLoop rest question
    end
  end.

Fixpoint detectCrypto (patterns : list (RegExp * string)) (question : string)
  : option string :=
  match patterns with
  | [] => None
  | (pattern, symbol) :: rest =>
    if test pattern question then Some symbol else detectCrypto rest question
  end.

Record ParsedQuestion := mkParsed {
  crypto : string;
  targetPrice : Q;
  expiryDate : option Date;
  betType : BetType;
  direction : Direction
}.

Definition parseCryptoMarketQuestion (tzOffset : Z) (question : string)
  : option ParsedQuestion :=
  if existsb (fun pattern => test pattern question) exclusionPatterns then None
  else
    match detectCrypto cryptoPatterns question with
    | None => None
    | Some crypto =>
      if negb (test priceKeywords question) then None
      else
        match priceLoop pricePatterns question with
        | None => None
        | Some targetPrice =>
          let betType := if test oneTouchKeywords question then one_touch else binary in
          let direction := if test belowKeywords question then below else above in
          let expiryDate := parseDateFromQuestion tzOffset question in
          Some (mkParsed crypto targetPrice expiryDate betType direction)
        end
    end.

(** The instant 2025-12-31T23:59:59Z as a time value. *)
Definition utc_2025_12_31_23_59_59 : Z := 1767225599000.

Definition bitcoin200k : string := "Will Bitcoin hit $200k by December 31, 2025?".

(** [getTimezoneOffset()] in New York in winter: five hours behind UTC. *)
Definition newYorkWinter : Z := 300.

(** A date moved by [ms] milliseconds; the Invalid Date stays invalid. *)
Definition shiftDate (ms : Z) (d : Date) : Date :=
  match d with
  | instant t => instant (t + ms)
  | invalidDate => invalidDate
  end.

End Parser.

(* ------------------------------------------------------------------ *)
(** * What the paper bot keeps true of its positions and its books *)
(* ------------------------------------------------------------------ *)

Module PaperBotRules.
Import QB PaperBot.
Open Scope Q_scope.

(** The size of a position lies between the base size and the largest
    size of [CONFIG]. *)
Definition sizeInRange (p : Position) : Prop :=
  basePositionSize CONFIG <= size p /\ size p <= maxPositionSize CONFIG.

(** The side is the one the entry edge asks for, and the entry edge
    reaches the threshold. *)
Definition sideFollowsEdge (p : Position) : Prop :=
  side p = (if gtb (entryEdge p) 0 then short else long) /\
  minEdgeToEnter CONFIG <= Qabs (entryEdge p).

(** The counter of trades is the length of the log, and the log holds one
    trade per open position and two per closed one. *)
Definition booksAgree (state : BotState) : Prop :=
  totalTrades state = List.length (trades state) /\
  List.length (trades state)
  = (List.length (openPositions state) + 2 * List.length (closedPositions state))%nat.





(** The sum of the [realizedPnl] of a list of positions. *)
Definition realizedTotal (l : list Position) : Q :=
  fold_right (fun p acc => match realizedPnl p with
                           | Some pnl => pnl + acc
                           | None => acc
                           end) 0 l.

(** A position as [closePosition] files it. *)
Definition filed (p : Position) : Prop :=
  status p = status_closed /\ realizedPnl p <> None /\ closePrice p <> None.

(** The total and the win statistics agree with the closed positions. *)
Definition ledgerAgrees (state : BotState) : Prop :=
  totalPnl state == realizedTotal (closedPositions state) /\
  (winningTrades state + losingTrades state
   <= List.length (closedPositions state))%nat /\
  0 <= winRate state /\ winRate state <= 1 /\
  Forall filed (closedPositions state).

(** The state after [openPosition] and the [push] of the entry loop. *)
Definition entered (env : CycleEnv) (k : nat) (opp : ArbitrageOpportunity)
    (state : BotState) : BotState :=
  let entryCheck := shouldEnterPosition (now env) opp state CONFIG in
  let (position, state1) :=
    openPosition env k opp (ec_side entryCheck) (ec_edge entryCheck) state CONFIG in
  withOpenPositions (openPositions state1 ++ [position]) state1.

End PaperBotRules.

(* ------------------------------------------------------------------ *)
(** * The rest of the probability engine (lib/crypto-math) *)
(* ------------------------------------------------------------------ *)

Module CryptoMathMore.
Open Scope R_scope.
Import RB CryptoMath.

(** The polynomial of [normalCDF] in [t], with its last factor [t]. *)
Definition erfcPolynomial (t : R) : R :=
  (((((1.061405429 * t + -1.453152027) * t) + 1.421413741) * t + -0.284496736) * t
   + 0.254829592) * t.

(** The part of [normalCDF] that does not depend on the sign of its
    argument. *)
Definition tailTerm (x : R) : R :=
  let x' := Rabs x / sqrt 2 in
  let t := 1 / (1 + 0.3275911 * x') in
  erfcPolynomial t * exp (- x' * x').



(** [xs.reduce((a, b) => a + b, 0)] *)
Definition sum (xs : list R) : R := fold_left Rplus xs 0.


Definition calculateBrierScore (prediction : R) (outcome : bool) : R :=
  let outcomeNum := if outcome then 1 else 0 in
  (prediction - outcomeNum) * (prediction - outcomeNum).

(** The [reduce] of [calculateAverageBrierScore] carries the index [i] of
    [outcomes[i]] along with the sum. *)
Definition calculateAverageBrierScore (predictions : list R) (outcomes : list bool) : R :=
  if negb (List.length predictions =? List.length outcomes)%nat
     || (List.length predictions =? 0)%nat
  then 0
  else
    let totalScore :=
      fst (fold_left
             (fun (acc : R * nat) pred =>
                let (total, i) := acc in
                (total + calculateBrierScore pred (nth i outcomes false), S i))
             predictions (0, O)) in
    totalScore / INR (List.length predictions).

End CryptoMathMore.

(* ------------------------------------------------------------------ *)
(** * Reading the markets (fetchPolymarketCryptoMarkets of route.ts) *)
(* ------------------------------------------------------------------ *)

Module Fetch.
Import CryptoMath.
Open Scope string_scope.

(** What [market.question || ''] evaluates to: the empty text when the
    field is absent or falsy, a text, or a truthy value that is not a text,
    on which [question.toLowerCase()] throws a [TypeError]. *)
Inductive Question :=
| noQuestion
| questionText (s : string)
| questionOther.

(** One object of the array the prediction market returns, as far as the
    loop reads it.  [raw_endDate] is [new Date(market.endDate)] when
    [market.endDate] is truthy; [raw_firstPrice] is [parseFloat(prices[0])]
    where [outcomePrices] is present and decodes to a finite number, and is
    absent where the source leaves [polymarketPrice] at 0 (no
    [outcomePrices], a [JSON.parse] that throws, or [NaN]) or reads an
    infinity, which the test on the price rejects like 0. *)
Record RawMarket := mkRawMarket {
  raw_conditionId : option string;
  raw_id : option string;
  raw_question : Question;
  raw_endDate : option Parser.Date;
  raw_firstPrice : option Q
}.

(** An element of the array: [null], on which [market.question] throws a
    [TypeError], or an object.  (An element that is a number, a text or a
    boolean has no field and reads as an object without fields.) *)
Inductive Element :=
| nullElement
| marketObject (raw : RawMarket).

(** A market as the loop pushes it; the fields [slug], [description],
    [volume] and [liquidity], which are copied and never read, are left
    out. *)
Record FetchedMarket := mkFetchedMarket {
  fm_id : option string;
  fm_question : string;
  fm_crypto : string;
  fm_targetPrice : Q;
  fm_expiryDate : Parser.Date;
  fm_betType : BetType;
  fm_direction : Direction;
  fm_polymarketPrice : Q
}.

(** How one iteration of the loop ends. *)
Inductive Step :=
| pushed (m : FetchedMarket)
| continued
| thrown.

Definition readObject (tzOffset : Z) (raw : RawMarket) : Step :=
  match raw_question raw with
  | questionOther => thrown
  | q =>
    let question := match q with questionText s => s | _ => "" end in
    match Parser.parseCryptoMarketQuestion tzOffset question with
    | None => continued
    | Some parsed =>
      let expiry :=
        match Parser.expiryDate parsed with
        | Some d => Some d
        | None => raw_endDate raw
        end in
      match expiry with
      | None => continued
      | Some expiryDate =>
        let polymarketPrice :=
          match raw_firstPrice raw with Some p => p | None => 0%Q end in
        if QB.leb polymarketPrice 0 || QB.geb polymarketPrice 1 then continued
        else
          pushed (mkFetchedMarket
                    (match raw_conditionId raw with
                     | Some c => Some c
                     | None => raw_id raw
                     end)
                    question
                    (Parser.crypto parsed)
                    (Parser.targetPrice parsed)
                    expiryDate
                    (Parser.betType parsed)
                    (Parser.direction parsed)
                    polymarketPrice)
      end
    end
  end.

(** The body of the loop. *)
Definition readMarket (tzOffset : Z) (e : Element) : Step :=
  match e with
  | nullElement => thrown
  | marketObject raw => readObject tzOffset raw
  end.

(** The loop inside the [try] block: a throw ends it, and the [catch] block
    keeps the markets pushed so far. *)
Fixpoint fetchLoop (tzOffset : Z) (data : list Element) (markets : list FetchedMarket)
  : list FetchedMarket :=
  match data with
  | [] => markets
  | e :: rest =>
    match readMarket tzOffset e with
    | pushed m => fetchLoop tzOffset rest (markets ++ [m])
    | continued => fetchLoop tzOffset rest markets
    | thrown => markets
    end
  end.

(** [a.slice(0, limit)]: [limit] is the number [parseInt] returned, [None]
    for [NaN], which [slice] reads as 0; a negative [limit] counts from the
    end of the array. *)
Definition slice0 {A : Type} (limit : option Z) (a : list A) : list A :=
  match limit with
  | None => []
  | Some n =>
    if (n <? 0)%Z
    then firstn (Z.to_nat (Z.of_nat (List.length a) + n)) a
    else firstn (Z.to_nat n) a
  end.

(** [fetchPolymarketCryptoMarkets(limit)] on the elements [data] of the
    array the request returned (none when the request fails or does not
    return an array, which throws as well). *)
Definition fetchPolymarketCryptoMarkets (tzOffset : Z) (limit : option Z)
    (data : list Element) : list FetchedMarket :=
  slice0 limit (fetchLoop tzOffset data []).

(** What the tests of the loop hold of a market it pushes. *)
Definition wellRead (m : FetchedMarket) : Prop :=
  (0 < fm_polymarketPrice m)%Q /\ (fm_polymarketPrice m < 1)%Q
  /\ (0 < fm_targetPrice m)%Q
  /\ In (fm_crypto m) (map snd Parser.cryptoPatterns).

(** The array with the one market of the question about 200k, priced at
    0.40. *)
Definition exampleData : list Element :=
  [marketObject
     (mkRawMarket (Some "0xabc") None (questionText Parser.bitcoin200k) None
                  (Some 0.4%Q))].

End Fetch.

Unset Implicit Arguments.

(* ================================================================== *)
(** * Facts on the comparisons *)
(* ================================================================== *)

Module QBFacts.
Import QB.
Open Scope Q_scope.
Local Ltac lra := Lqa.lra.

Lemma ltb_lt x y : ltb x y = true <-> x < y.
Proof.
  unfold ltb. rewrite negb_true_iff.
  split; intro H.
  - apply Qnot_le_lt. intro Hle. apply Qle_bool_iff in Hle. congruence.
  - destruct (Qle_bool y x) eqn:E; trivial.
    apply Qle_bool_iff in E. exfalso. apply (Qlt_not_le _ _ H E).
Qed.

Lemma ltb_ge x y : ltb x y = false <-> y <= x.
Proof.
  unfold ltb. rewrite negb_false_iff. apply Qle_bool_iff.
Qed.

Lemma gtb_gt x y : gtb x y = true <-> y < x.
Proof. apply ltb_lt. Qed.

Lemma gtb_le x y : gtb x y = false <-> x <= y.
Proof. apply ltb_ge. Qed.

End QBFacts.

(* ================================================================== *)
(** * The paper bot: exposure, balance and profit *)
(* ================================================================== *)

Module PaperBotFacts.
Import QB QBFacts PaperBot.
Open Scope Q_scope.
Local Ltac lra := Lqa.lra.

(** ** The exposure is the sum of the sizes *)

Lemma exposure_acc (l : list Position) (a : Q) :
  fold_left (fun sum p => sum + size p) l a == a + getTotalExposure l.
Proof.
  unfold getTotalExposure. revert a.
  induction l as [|p l IH]; intro a; simpl.
  - lra.
  - rewrite (IH (a + size p)), (IH (0 + size p)). lra.
Qed.

Lemma exposure_nil : getTotalExposure [] = 0.
Proof. reflexivity. Qed.

Lemma exposure_cons (p : Position) (l : list Position) :
  getTotalExposure (p :: l) == size p + getTotalExposure l.
Proof.
  unfold getTotalExposure at 1. simpl. rewrite exposure_acc. lra.
Qed.

Lemma exposure_app (l1 l2 : list Position) :
  getTotalExposure (l1 ++ l2) == getTotalExposure l1 + getTotalExposure l2.
Proof.
  induction l1 as [|p l1 IH]; simpl.
  - rewrite exposure_nil. lra.
  - rewrite !exposure_cons, IH. lra.
Qed.

Lemma exposure_snoc (l : list Position) (p : Position) :
  getTotalExposure (l ++ [p]) == getTotalExposure l + size p.
Proof.
  rewrite exposure_app, exposure_cons, exposure_nil. lra.
Qed.

Definition otherThan (p : Position) : Position -> bool :=
  fun q => negb (String.eqb (pos_id q) (pos_id p)).

(** Removing the one position that bears an identifier takes its size off
    the exposure. *)
Lemma exposure_filter_out (l : list Position) (p : Position) :
  NoDup (map pos_id l) -> In p l ->
  getTotalExposure (filter (otherThan p) l) == getTotalExposure l - size p.
Proof.
  induction l as [|q l IH]; intros Hnd Hin; [contradiction|].
  simpl in Hnd. inversion Hnd as [|? ? Hnotin Hnd']; subst.
  destruct Hin as [-> | Hin].
  - simpl. unfold otherThan at 1. rewrite String.eqb_refl. simpl.
    rewrite exposure_cons.
    assert (Hall : filter (otherThan p) l = l).
    { clear IH Hnd Hnd'. induction l as [|r l IHl]; simpl; trivial.
      unfold otherThan at 1.
      destruct (String.eqb (pos_id r) (pos_id p)) eqn:E.
      - apply String.eqb_eq in E. exfalso. apply Hnotin. left. exact E.
      - simpl. f_equal. apply IHl. intro H. apply Hnotin. right. exact H. }
    rewrite Hall. lra.
  - simpl. unfold otherThan at 1.
    destruct (String.eqb (pos_id q) (pos_id p)) eqn:E.
    + apply String.eqb_eq in E. exfalso. apply Hnotin. rewrite E.
      apply in_map. exact Hin.
    + simpl. rewrite !exposure_cons, (IH Hnd' Hin). lra.
Qed.

(** Removing positions cannot raise the exposure when no size is
    negative. *)
Lemma exposure_filter_le (f : Position -> bool) (l : list Position) :
  (forall p, In p l -> 0 <= size p) ->
  getTotalExposure (filter f l) <= getTotalExposure l.
Proof.
  induction l as [|q l IH]; intro Hpos; simpl.
  - lra.
  - assert (Hq : 0 <= size q) by (apply Hpos; left; reflexivity).
    assert (Hl : getTotalExposure (filter f l) <= getTotalExposure l)
      by (apply IH; intros p Hp; apply Hpos; right; exact Hp).
    pose proof (exposure_cons q l) as E1.
    pose proof (exposure_cons q (filter f l)) as E2.
    destruct (f q); lra.
Qed.

Lemma nodup_ids_filter (f : Position -> bool) (l : list Position) :
  NoDup (map pos_id l) -> NoDup (map pos_id (filter f l)).
Proof.
  induction l as [|q l IH]; intro Hnd; simpl; [constructor|].
  simpl in Hnd. inversion Hnd as [|? ? Hnotin Hnd']; subst.
  destruct (f q); simpl; [constructor|]; auto.
  intro Hin. apply Hnotin.
  apply in_map_iff in Hin. destruct Hin as [r [Hr Hin]].
  apply filter_In in Hin. rewrite <- Hr. apply in_map. tauto.
Qed.

(** ** Refreshing keeps what the accounts depend on *)

Lemma refresh_size opps p : size (refreshPosition opps p) = size p.
Proof. unfold refreshPosition. destruct (findOpportunity _ _); reflexivity. Qed.

Lemma refresh_id opps p : pos_id (refreshPosition opps p) = pos_id p.
Proof. unfold refreshPosition. destruct (findOpportunity _ _); reflexivity. Qed.

Lemma refresh_shares opps p : shares (refreshPosition opps p) = shares p.
Proof. unfold refreshPosition. destruct (findOpportunity _ _); reflexivity. Qed.

Lemma refresh_entryPrice opps p : entryPrice (refreshPosition opps p) = entryPrice p.
Proof. unfold refreshPosition. destruct (findOpportunity _ _); reflexivity. Qed.

Lemma refresh_side opps p : side (refreshPosition opps p) = side p.
Proof. unfold refreshPosition. destruct (findOpportunity _ _); reflexivity. Qed.

Lemma refresh_ids opps l : map pos_id (map (refreshPosition opps) l) = map pos_id l.
Proof.
  rewrite map_map. apply map_ext. intro p. apply refresh_id.
Qed.

Lemma refresh_exposure opps l :
  getTotalExposure (map (refreshPosition opps) l) == getTotalExposure l.
Proof.
  induction l as [|p l IH]; simpl.
  - reflexivity.
  - rewrite !exposure_cons, IH, refresh_size. reflexivity.
Qed.

(** ** The balance equation, with identifiers that are all different *)

Definition sound (state : BotState) : Prop :=
  balanced state /\ NoDup (map pos_id (openPositions state)).

Lemma close_sound env j p price edge reason state :
  sound state -> In p (openPositions state) ->
  sound (closePosition env j p price edge reason state).
Proof.
  intros [Hbal Hnd] Hin. split.
  - unfold balanced in *. simpl.
    change (fun q => negb (String.eqb (pos_id q) (pos_id p))) with (otherThan p).
    rewrite (exposure_filter_out _ _ Hnd Hin). lra.
  - simpl. apply nodup_ids_filter. exact Hnd.
Qed.

Lemma exitLoop_sound env snapshot : forall j state,
  sound state ->
  NoDup (map pos_id snapshot) ->
  (forall p, In p snapshot -> In p (openPositions state)) ->
  sound (exitLoop env j snapshot state).
Proof.
  induction snapshot as [|p rest IH]; intros j state Hs Hnd Hsub; simpl.
  - exact Hs.
  - simpl in Hnd. inversion Hnd as [|? ? Hnotin Hnd']; subst.
    destruct (shouldExit _).
    + apply IH; trivial.
      * apply close_sound; trivial. apply Hsub. left. reflexivity.
      * intros q Hq. simpl. apply filter_In. split.
        -- apply Hsub. right. exact Hq.
        -- destruct (String.eqb (pos_id q) (pos_id p)) eqn:E; trivial.
           apply String.eqb_eq in E. exfalso. apply Hnotin. rewrite <- E.
           apply in_map. exact Hq.
    + apply IH; trivial. intros q Hq. apply Hsub. right. exact Hq.
Qed.

(** The identifiers of the open positions after the exit loop were there
    before. *)
Lemma exitLoop_ids env snapshot : forall j state i,
  In i (map pos_id (openPositions (exitLoop env j snapshot state))) ->
  In i (map pos_id (openPositions state)).
Proof.
  induction snapshot as [|p rest IH]; intros j state i Hin; simpl in *.
  - exact Hin.
  - destruct (shouldExit _).
    + apply IH in Hin. simpl in Hin.
      apply in_map_iff in Hin. destruct Hin as [r [Hr Hin]].
      apply filter_In in Hin. rewrite <- Hr. apply in_map. tauto.
    + apply IH in Hin. exact Hin.
Qed.

Lemma enter_balanced env k opp sd edge state :
  balanced state ->
  balanced (let (position, state1) := openPosition env k opp sd edge state CONFIG in
            withOpenPositions (openPositions state1 ++ [position]) state1).
Proof.
  unfold balanced. simpl. intro H.
  rewrite exposure_snoc. simpl. lra.
Qed.

Lemma entryLoop_sound env (ids0 : list string) opps : forall k state,
  sound state ->
  (forall a b, (a < k + List.length opps)%nat -> (b < k + List.length opps)%nat ->
     newPositionId env a = newPositionId env b -> a = b) ->
  (forall a, (a < k + List.length opps)%nat -> ~ In (newPositionId env a) ids0) ->
  (forall i, In i (map pos_id (openPositions state)) ->
     In i ids0 \/ exists a, (a < k)%nat /\ i = newPositionId env a) ->
  sound (entryLoop env k opps state).
Proof.
  induction opps as [|opp rest IH]; intros k state Hs Hinj Hfresh Hids; simpl.
  - exact Hs.
  - simpl in Hinj, Hfresh.
    destruct (shouldEnter _).
    + apply IH.
      * destruct Hs as [Hbal Hnd]. split.
        -- apply enter_balanced; exact Hbal.
        -- simpl. rewrite map_app. simpl.
           apply NoDup_app; [exact Hnd | repeat constructor; simpl; tauto |].
           intros i Hi [<- | []].
           destruct (Hids _ Hi) as [H0 | [a [Ha Heq]]].
           ++ apply (Hfresh k); [lia | exact H0].
           ++ assert (k = a) by (apply Hinj; [lia | lia | exact Heq]). lia.
      * intros a b Ha Hb. apply Hinj; lia.
      * intros a Ha. apply Hfresh. lia.
      * intros i Hi. simpl in Hi. rewrite map_app in Hi.
        apply in_app_or in Hi. destruct Hi as [Hi | [<- | []]].
        -- destruct (Hids _ Hi) as [H0 | [a [Ha Heq]]]; [left; exact H0|].
           right. exists a. split; [lia | exact Heq].
        -- right. exists k. simpl. split; [lia | reflexivity].
    + apply IH; trivial.
      * intros a b Ha Hb. apply Hinj; lia.
      * intros a Ha. apply Hfresh. lia.
      * intros i Hi. destruct (Hids _ Hi) as [H0 | [a [Ha Heq]]]; [left; exact H0|].
        right. exists a. split; [lia | exact Heq].
Qed.

Lemma update_sound opps state :
  sound state -> sound (updateOpenPositions opps state).
Proof.
  intros [Hbal Hnd]. split.
  - unfold balanced in *. simpl.
    pose proof (refresh_exposure opps (openPositions state)). lra.
  - simpl. rewrite refresh_ids. exact Hnd.
Qed.

Lemma cycleState_sound env state :
  sound state -> freshIds env state -> sound (cycleState env state).
Proof.
  intros Hs [Hinj Hfresh]. unfold cycleState.
  destruct (opportunities env) as [|o os] eqn:Eo; [exact Hs|].
  rewrite <- Eo.
  set (s1 := updateOpenPositions (opportunities env) state).
  assert (Hs1 : sound s1) by (apply update_sound; exact Hs).
  set (s2 := exitLoop env 0 (openPositions s1) s1).
  assert (Hs2 : sound s2).
  { apply exitLoop_sound; [exact Hs1 | apply Hs1 | trivial]. }
  assert (Hs3 : sound (entryLoop env 0 (opportunities env) s2)).
  { apply entryLoop_sound with (ids0 := map pos_id (openPositions state)).
    - exact Hs2.
    - simpl. rewrite Eo. exact Hinj.
    - simpl. rewrite Eo. exact Hfresh.
    - intros i Hi. left. unfold s2 in Hi. apply exitLoop_ids in Hi.
      unfold s1 in Hi. simpl in Hi. rewrite refresh_ids in Hi. exact Hi. }
  destruct Hs3 as [Hbal Hnd]. split; [exact Hbal | exact Hnd].
Qed.

Lemma initial_sound t : sound (initialState t).
Proof.
  split.
  - unfold balanced. simpl. rewrite exposure_nil. lra.
  - simpl. constructor.
Qed.

Lemma reachable_sound state : reachable state -> sound state.
Proof.
  induction 1 as [t | env state Hr IH Hfresh].
  - apply initial_sound.
  - apply cycleState_sound; assumption.
Qed.

(** [runBotCycle] leaves the state [cycleState] computes. *)
Lemma runBotCycle_state file env state fs :
  fst (runBotCycle file env state fs) = cycleState env state.
Proof.
  unfold runBotCycle, cycleState.
  destruct (opportunities env); reflexivity.
Qed.

(** ** The exposure cap *)

Lemma shouldEnter_gate t opp state cfg :
  shouldEnter (shouldEnterPosition t opp state cfg) = true ->
  ec_edge (shouldEnterPosition t opp state cfg) = effectiveEdge opp /\
  getTotalExposure (openPositions state)
    + calculatePositionSize (effectiveEdge opp) cfg <= maxTotalExposure cfg /\
  calculatePositionSize (effectiveEdge opp) cfg <= currentBalance state.
Proof.
  unfold shouldEnterPosition.
  destruct (ltb (Qabs (effectiveEdge opp)) (minEdgeToEnter cfg)); [discriminate|].
  destruct (ltb _ (minTimeToExpiry cfg)); [discriminate|].
  destruct (find _ _); [discriminate|].
  destruct (gtb _ (maxTotalExposure cfg)) eqn:Ecap; [discriminate|].
  destruct (gtb _ (currentBalance state)) eqn:Ebal; [discriminate|].
  intros _. simpl. apply gtb_le in Ecap. apply gtb_le in Ebal. auto.
Qed.

Lemma entryLoop_capped env opps : forall k state,
  getTotalExposure (openPositions state) <= maxTotalExposure CONFIG ->
  getTotalExposure (openPositions (entryLoop env k opps state))
    <= maxTotalExposure CONFIG.
Proof.
  remember (maxTotalExposure CONFIG) as cap eqn:Ecap.
  induction opps as [|opp rest IH]; intros k state Hcap; simpl.
  - exact Hcap.
  - destruct (shouldEnter _) eqn:Eenter; [|apply IH; exact Hcap].
    apply IH. simpl.
    destruct (shouldEnter_gate _ _ _ _ Eenter) as [Hedge [Hgate _]].
    rewrite <- Ecap in Hgate. rewrite Hedge.
    pose proof (exposure_snoc (openPositions state)
      (fst (openPosition env k opp
              (ec_side (shouldEnterPosition (now env) opp state CONFIG))
              (effectiveEdge opp) state CONFIG))) as Hsnoc.
    simpl in Hsnoc. lra.
Qed.

Lemma exitLoop_shrinks env snapshot : forall j state,
  (forall p, In p (openPositions state) -> 0 <= size p) ->
  (forall p, In p (openPositions (exitLoop env j snapshot state)) -> 0 <= size p) /\
  getTotalExposure (openPositions (exitLoop env j snapshot state))
    <= getTotalExposure (openPositions state).
Proof.
  induction snapshot as [|p rest IH]; intros j state Hpos; simpl.
  - split; [exact Hpos | lra].
  - destruct (shouldExit _).
    + match goal with |- context [exitLoop env (S j) rest ?st] =>
        destruct (IH (S j) st) as [Hpos' Hle] end.
      * simpl. intros q Hq. apply filter_In in Hq. apply Hpos. tauto.
      * split; [exact Hpos'|].
        simpl in Hle.
        pose proof (exposure_filter_le
          (fun q => negb (String.eqb (pos_id q) (pos_id p)))
          (openPositions state) Hpos).
        lra.
    + apply IH. exact Hpos.
Qed.

Lemma cycleState_capped env state :
  (forall p, In p (openPositions state) -> 0 <= size p) ->
  getTotalExposure (openPositions state) <= maxTotalExposure CONFIG ->
  getTotalExposure (openPositions (cycleState env state)) <= maxTotalExposure CONFIG.
Proof.
  intros Hpos Hcap. unfold cycleState.
  destruct (opportunities env) as [|o os] eqn:Eo; [exact Hcap|].
  rewrite <- Eo. simpl.
  apply entryLoop_capped.
  set (s1 := updateOpenPositions (opportunities env) state).
  destruct (exitLoop_shrinks env (openPositions s1) 0 s1) as [_ Hle].
  - unfold s1. simpl. intros p Hp.
    apply in_map_iff in Hp. destruct Hp as [q [<- Hq]].
    rewrite refresh_size. apply Hpos. exact Hq.
  - pose proof (refresh_exposure (opportunities env) (openPositions state)) as Hr.
    unfold s1 in Hle at 3. simpl in Hle. lra.
Qed.

End PaperBotFacts.

Module PaperBotClaims.
Import QB QBFacts PaperBot PaperBotFacts.
Open Scope Q_scope.
Local Ltac lra := Lqa.lra.

(** C2. A cycle of the paper bot keeps the exposure under the cap: when the
    sizes of the open positions, none of them negative, sum to at most
    [maxTotalExposure] before the cycle, they do so after it. *)
Theorem exposure_cap_preserved (env : CycleEnv) (state : BotState) :
  (forall p, In p (openPositions state) -> 0 <= size p) ->
  getTotalExposure (openPositions state) <= maxTotalExposure CONFIG ->
  forall file fs,
    getTotalExposure (openPositions (fst (runBotCycle file env state fs)))
    <= maxTotalExposure CONFIG.
Proof.
  intros Hpos Hcap file fs. rewrite runBotCycle_state.
  apply cycleState_capped; assumption.
Qed.

Lemma exposure_cap_preserved_witness :
  getTotalExposure (openPositions Scenario.afterOpen) <= maxTotalExposure CONFIG /\
  getTotalExposure
    (openPositions (fst (runBotCycle ["data"%string; "bot-state.json"%string]
                           Scenario.secondCycle Scenario.afterOpen
                           (Persistence.mkFS [] [] [])))) <= maxTotalExposure CONFIG.
Proof.
  assert (Hcap : getTotalExposure (openPositions Scenario.afterOpen)
                 <= maxTotalExposure CONFIG) by (vm_compute; discriminate).
  split; [exact Hcap|].
  apply exposure_cap_preserved; [|exact Hcap].
  intros p [<- | []]. vm_compute. discriminate.
Defined.

(** C5. A position opened at the price [p0] holds [size / p0] shares when
    long and [size / (1 - p0)] shares when short; refreshing it changes
    neither; closing it at the price [p] realizes [shares * (p - p0)] when
    long and [shares * (p0 - p)] when short, which is what the closed
    position records and what is added to the total. *)
Theorem realized_pnl_formula (env : CycleEnv) (k : nat) (opp : ArbitrageOpportunity)
    (sd : Side) (edge : Q) (state : BotState) (config : BotConfig)
    (env' : CycleEnv) (j : nat) (p e : Q) (reason : ExitReason) (state' : BotState) :
  let position := fst (openPosition env k opp sd edge state config) in
  let held := refreshPosition (opportunities env') position in
  let p0 := polymarketProb opp in
  let s := shares position in
  let pnl := match sd with long => s * (p - p0) | short => s * (p0 - p) end in
  let closed := closePosition env' j held p e reason state' in
  entryPrice position = p0 /\
  s = match sd with
      | long => size position / p0
      | short => size position / (1 - p0)
      end /\
  shares held = s /\ entryPrice held = p0 /\ side held = sd /\
  last (closedPositions closed) held = closedPosition (now env') held p e reason /\
  realizedPnl (closedPosition (now env') held p e reason) = Some pnl /\
  totalPnl closed = totalPnl state' + pnl /\
  currentBalance closed = currentBalance state' + (size position + pnl).
Proof.
  intros position held p0 s pnl closed.
  assert (Hs : shares held = s) by apply refresh_shares.
  assert (Hp : entryPrice held = p0) by apply refresh_entryPrice.
  assert (Hd : side held = sd) by apply refresh_side.
  assert (Hz : size held = size position) by apply refresh_size.
  assert (Hpnl : closePnl held p = pnl).
  { unfold closePnl. rewrite Hs, Hp, Hd. reflexivity. }
  repeat split; trivial.
  - unfold s, position. simpl. destruct sd; reflexivity.
  - unfold closed. simpl. apply last_last.
  - simpl. rewrite Hpnl. reflexivity.
  - unfold closed. simpl. rewrite Hpnl. reflexivity.
  - unfold closed. simpl. rewrite Hpnl, Hz. reflexivity.
Qed.

End PaperBotClaims.

(* ================================================================== *)
(** * The balance equation in binary64 arithmetic *)
(* ================================================================== *)

Module BalanceFacts.
Import PrimFloat.
Import PaperBot64.
Open Scope Q_scope.
Local Ltac lra := Lqa.lra.






End BalanceFacts.

Module BalanceClaims.
Import PrimFloat.
Import PaperBot64 BalanceFacts.
Open Scope Q_scope.




End BalanceClaims.

(* ================================================================== *)
(** * Saving the state *)
(* ================================================================== *)

Module PersistenceFacts.
Import Persistence.

Lemma path_eqb_refl (p : path) : path_eqb p p = true.
Proof.
  induction p as [|a p IH]; simpl; trivial.
  rewrite String.eqb_refl. exact IH.
Qed.

Lemma skipn_length_app {A : Type} (l x : list A) :
  skipn (List.length l) (l ++ x) = x.
Proof. induction l as [|a l IH]; simpl; trivial. Qed.

Section Save.
Variable Content : Type.
Implicit Types (fs : FS Content) (state : Content).

Lemma outcome_log c fs : outcome (log c fs) = outcomeAfter 1 fs.
Proof.
  unfold outcome, outcomeAfter, log. simpl.
  rewrite length_app. simpl. f_equal. lia.
Qed.

(** What the [try] block of [saveState] does, case by case: the directory
    is there, it is made, or making it throws. *)
Lemma saveState_try_eq target state fs :
  saveState_try target state fs
  = let dir := dirname target in
    let fs1 := log (existsSync dir) fs in
    if fst (fs_existsSync dir fs) then fs_writeFileSync target state fs1
    else match outcomeAfter 1 fs with
         | succeeds => fs_writeFileSync target state (snd (fs_mkdirSync dir fs1))
         | throwsAfter _ => (None, snd (fs_mkdirSync dir fs1))
         end.
Proof.
  unfold saveState_try, fs_existsSync. cbn [fst snd].
  destruct (dir_exists fs (dirname target) || _); cbn [negb]; [reflexivity|].
  unfold fs_mkdirSync. rewrite outcome_log.
  destruct (outcomeAfter 1 fs); reflexivity.
Qed.

Lemma calls_write target state fs :
  calls (snd (fs_writeFileSync target state fs))
  = calls fs ++ [writeFileSync target state].
Proof. unfold fs_writeFileSync. destruct (outcome fs) as [|[|n]]; reflexivity. Qed.

Lemma calls_mkdir dir fs :
  calls (snd (fs_mkdirSync dir fs)) = calls fs ++ [mkdirSync dir true].
Proof. unfold fs_mkdirSync. destruct (outcome fs); reflexivity. Qed.

Lemma files_mkdir dir fs : files (snd (fs_mkdirSync dir fs)) = files fs.
Proof. unfold fs_mkdirSync. destruct (outcome fs); reflexivity. Qed.

(** The calls of [saveState], in order. *)
Lemma saveState_calls_eq target state fs :
  saveState_calls target state fs
  = existsSync (dirname target)
    :: (if fst (fs_existsSync (dirname target) fs) then []
        else [mkdirSync (dirname target) true])
    ++ (if fst (fs_existsSync (dirname target) fs) || answers 1 fs
        then [writeFileSync target state] else []).
Proof.
  unfold saveState_calls, saveState, answers. rewrite saveState_try_eq. cbv zeta.
  destruct (fst (fs_existsSync (dirname target) fs)); cbn [orb].
  - rewrite calls_write. cbn [log calls].
    rewrite <- app_assoc. apply skipn_length_app.
  - destruct (outcomeAfter 1 fs); cbn [snd].
    + rewrite calls_write, calls_mkdir. cbn [log calls].
      rewrite <- !app_assoc. apply skipn_length_app.
    + rewrite calls_mkdir. cbn [log calls].
      rewrite <- !app_assoc. apply skipn_length_app.
Qed.

(** What a file other than the one written holds after a write. *)
Lemma read_after_write target other state fs :
  path_eqb other target = false ->
  read_file (snd (fs_writeFileSync target state fs)) other = read_file fs other.
Proof.
  intro E. unfold fs_writeFileSync, read_file.
  destruct (outcome fs) as [|[|n]]; simpl; rewrite ?E; reflexivity.
Qed.

(** What the file written holds after a write. *)
Lemma read_written target state fs :
  read_file (snd (fs_writeFileSync target state fs)) target
  = match outcome fs with
    | succeeds => Some (json state)
    | throwsAfter O => read_file fs target
    | throwsAfter (S _) => Some unparsable
    end.
Proof.
  unfold fs_writeFileSync, read_file.
  destruct (outcome fs) as [|[|n]]; simpl; rewrite ?path_eqb_refl; reflexivity.
Qed.

Lemma read_after_mkdir dir other fs :
  read_file (snd (fs_mkdirSync dir fs)) other = read_file fs other.
Proof. unfold read_file. rewrite files_mkdir. reflexivity. Qed.

Lemma read_file_log c other fs : read_file (log c fs) other = read_file fs other.
Proof. reflexivity. Qed.

(** A save that completes has written the state. *)
Lemma saved_file target state fs :
  fst (saveState_try target state fs) = Some tt ->
  read_file (saveState target state fs) target = Some (json state).
Proof.
  unfold saveState. rewrite saveState_try_eq. cbv zeta.
  assert (Hw : forall fs',
             fst (fs_writeFileSync target state fs') = Some tt ->
             read_file (snd (fs_writeFileSync target state fs')) target
             = Some (json state)).
  { intros fs' H. rewrite read_written. revert H. unfold fs_writeFileSync.
    destruct (outcome fs') as [|[|n]]; simpl; [reflexivity | discriminate..]. }
  destruct (fst (fs_existsSync (dirname target) fs)); [apply Hw|].
  destruct (outcomeAfter 1 fs); [apply Hw | discriminate].
Qed.

(** [loadState] on a file system whose state file holds a state. *)
Lemma load_json target state initial fs :
  read_file fs target = Some (json state) ->
  fst (loadState target initial fs) = if answers 1 fs then state else initial.
Proof.
  intro Hread. unfold loadState, fs_existsSync, fs_readFileSync, answers.
  rewrite Hread, orb_true_r. rewrite outcome_log, read_file_log, Hread.
  destruct (outcomeAfter 1 fs); reflexivity.
Qed.

(** [loadState] after a [saveState] that has completed. *)
Lemma load_after_save target state initial fs :
  fst (saveState_try target state fs) = Some tt ->
  fst (loadState target initial (saveState target state fs))
  = if answers 1 (saveState target state fs) then state else initial.
Proof.
  intro Hsaved. apply load_json. apply saved_file. exact Hsaved.
Qed.

End Save.
End PersistenceFacts.

Module PersistenceClaims.
Import Persistence PersistenceFacts.

(** C3, as stated, fails: saving the initial state of the paper bot into an
    empty file system is not a write to a temporary file followed by a
    rename; no file is renamed at all. *)
Lemma saveState_not_atomic_counterexample :
  ~ writeTempThenRename
      (STATE_FILE ["app"%string] "bot-state.json")
      (saveState_calls (STATE_FILE ["app"%string] "bot-state.json")
                       (PaperBot.initialState 0) (mkFS [] [] [])).
Proof.
  intros [tmp [data [_ [_ [_ [Hren _]]]]]].
  rewrite saveState_calls_eq in Hren. simpl in Hren.
  destruct Hren as [H | [H | [H | []]]]; discriminate H.
Qed.

(** C3, amended.  [saveState] writes in place.  It asks whether the
    directory of the state file exists, makes it when it does not, and then
    hands the state to one [writeFileSync] on the state file itself; an
    error thrown by either call is caught, and when making the directory
    throws the write is not attempted.  Nothing is renamed and no file but
    the state file is written, so every other file is left as it was; the
    state file afterwards holds the state saved, or a text cut short by a
    write that failed, or what it held before. *)
Theorem saveState_writes_in_place (Content : Type) (target other : path)
    (state : Content) (fs : FS Content) :
  saveState_calls target state fs
  = existsSync (dirname target)
    :: (if fst (fs_existsSync (dirname target) fs) then []
        else [mkdirSync (dirname target) true])
    ++ (if fst (fs_existsSync (dirname target) fs) || answers 1 fs
        then [writeFileSync target state] else [])
  /\ forallb (fun c => negb (is_rename c)) (saveState_calls target state fs) = true
  /\ forallb (fun c => match writes_to c with
                       | Some p => path_eqb p target
                       | None => true
                       end) (saveState_calls target state fs) = true
  /\ (if path_eqb other target then True
      else read_file (saveState target state fs) other = read_file fs other)
  /\ (read_file (saveState target state fs) target = Some (json state)
      \/ read_file (saveState target state fs) target = Some unparsable
      \/ read_file (saveState target state fs) target = read_file fs target).
Proof.
  split; [apply saveState_calls_eq|].
  split.
  { rewrite saveState_calls_eq.
    destruct (fst (fs_existsSync (dirname target) fs)); cbn [orb];
      [|destruct (answers 1 fs)]; reflexivity. }
  split.
  { rewrite saveState_calls_eq.
    destruct (fst (fs_existsSync (dirname target) fs)); cbn [orb];
      [|destruct (answers 1 fs)]; simpl; rewrite ?path_eqb_refl; reflexivity. }
  split.
  { destruct (path_eqb other target) eqn:E; [exact I|].
    unfold saveState. rewrite saveState_try_eq. cbv zeta.
    destruct (fst (fs_existsSync (dirname target) fs)).
    - rewrite (read_after_write _ _ _ _ _ E). reflexivity.
    - destruct (outcomeAfter 1 fs); cbn [snd].
      + rewrite (read_after_write _ _ _ _ _ E), read_after_mkdir. reflexivity.
      + rewrite read_after_mkdir. reflexivity. }
  unfold saveState. rewrite saveState_try_eq. cbv zeta.
  assert (Hw : forall fs',
             read_file fs' target = read_file fs target ->
             read_file (snd (fs_writeFileSync target state fs')) target
             = Some (json state)
             \/ read_file (snd (fs_writeFileSync target state fs')) target
                = Some unparsable
             \/ read_file (snd (fs_writeFileSync target state fs')) target
                = read_file fs target).
  { intros fs' H. rewrite read_written.
    destruct (outcome fs') as [|[|n]]; [left | right; right | right; left];
      trivial. }
  destruct (fst (fs_existsSync (dirname target) fs)).
  - apply Hw. reflexivity.
  - destruct (outcomeAfter 1 fs); cbn [snd].
    + apply Hw. rewrite read_after_mkdir. reflexivity.
    + right. right. rewrite read_after_mkdir. reflexivity.
Qed.

End PersistenceClaims.

(* ================================================================== *)
(** * The guard on resolved markets *)
(* ================================================================== *)

Module GuardClaims.
Import QB QBFacts PaperBot.
Open Scope Q_scope.
Local Ltac lra := Lqa.lra.

Local Ltac branches :=
  repeat match goal with
         | |- context [match find ?f ?l with _ => _ end] => destruct (find f l)
         | |- context [if ?b then _ else _] => destruct b
         end.

Lemma real_guard (t : Z) (opp : ArbitrageOpportunity)
    (state : RealBot.RealBotState) (config : RealBot.RealBotConfig) :
  RealBot.refusedAsResolved (RealBot.shouldEnterPosition t opp state config) = true
  <-> 0.99 < polymarketProb opp \/ polymarketProb opp < 0.01.
Proof.
  unfold RealBot.shouldEnterPosition.
  destruct (gtb (polymarketProb opp) 0.99) eqn:E1.
  { simpl. split; trivial. intros _. left. apply gtb_gt. exact E1. }
  destruct (ltb (polymarketProb opp) 0.01) eqn:E2.
  { simpl. split; trivial. intros _. right. apply ltb_lt. exact E2. }
  apply gtb_le in E1. apply ltb_ge in E2.
  split.
  - branches; simpl; discriminate.
  - intros [H | H]; exfalso; lra.
Qed.

Lemma paper_guard (t : Z) (opp : ArbitrageOpportunity)
    (state : BotState) (config : BotConfig) :
  PaperBotTs.refusedAsResolved (PaperBotTs.shouldEnterPosition t opp state config) = true
  <-> 0.95 < polymarketProb opp \/ polymarketProb opp < 0.05.
Proof.
  unfold PaperBotTs.shouldEnterPosition.
  destruct (gtb (polymarketProb opp) 0.95) eqn:E1.
  { simpl. split; trivial. intros _. left. apply gtb_gt. exact E1. }
  destruct (ltb (polymarketProb opp) 0.05) eqn:E2.
  { simpl. split; trivial. intros _. right. apply ltb_lt. exact E2. }
  apply gtb_le in E1. apply ltb_ge in E2.
  split.
  - branches; simpl; discriminate.
  - intros [H | H]; exfalso; lra.
Qed.

(** C4, as stated, fails.  A price of exactly 0.99 is outside the open
    interval from 0.01 to 0.99, yet the real bot does not refuse the market
    as resolved (it enters); and a price of 0.97 is inside the interval,
    yet the TypeScript source of the paper bot refuses the market as
    resolved. *)
Lemma resolved_guard_counterexample :
  (~ (0.01 < polymarketProb RealBot.quotedAt99 /\ polymarketProb RealBot.quotedAt99 < 0.99)
   /\ RealBot.refusedAsResolved
        (RealBot.shouldEnterPosition 0 RealBot.quotedAt99 RealBot.emptyState
                                     RealBot.CONFIG) = false
   /\ RealBot.shouldEnter
        (RealBot.shouldEnterPosition 0 RealBot.quotedAt99 RealBot.emptyState
                                     RealBot.CONFIG) = true)
  /\
  ((0.01 < polymarketProb PaperBotTs.quotedAt97 /\ polymarketProb PaperBotTs.quotedAt97 < 0.99)
   /\ PaperBotTs.refusedAsResolved
        (PaperBotTs.shouldEnterPosition 0 PaperBotTs.quotedAt97 (initialState 0)
                                        CONFIG) = true).
Proof.
  split; [split; [|split] | split; [split|]].
  - intros [_ H]. revert H. vm_compute. intro H. discriminate H.
  - vm_compute. reflexivity.
  - vm_compute. reflexivity.
  - vm_compute. reflexivity.
  - vm_compute. reflexivity.
  - vm_compute. reflexivity.
Qed.

(** C4, amended.  The real bot refuses an opportunity as resolved exactly
    when its price is above 0.99 or below 0.01, so that the prices 0.01 and
    0.99 themselves pass the guard; the TypeScript source of the paper bot
    does so exactly when the price is above 0.95 or below 0.05. *)
Theorem resolved_guard_thresholds (t : Z) (opp : ArbitrageOpportunity)
    (realState : RealBot.RealBotState) (realConfig : RealBot.RealBotConfig)
    (state : BotState) (config : BotConfig) :
  (RealBot.refusedAsResolved
     (RealBot.shouldEnterPosition t opp realState realConfig) = true
   <-> 0.99 < polymarketProb opp \/ polymarketProb opp < 0.01)
  /\
  (PaperBotTs.refusedAsResolved
     (PaperBotTs.shouldEnterPosition t opp state config) = true
   <-> 0.95 < polymarketProb opp \/ polymarketProb opp < 0.05).
Proof.
  split; [apply real_guard | apply paper_guard].
Qed.

End GuardClaims.

(* ================================================================== *)
(** * Comparisons on reals *)
(* ================================================================== *)

Module RBFacts.
Import RB.
Open Scope R_scope.

Lemma Rltb_lt x y : ltb x y = true <-> x < y.
Proof. unfold ltb. destruct (Rlt_dec x y); split; intro; trivial; try discriminate; tauto. Qed.

Lemma Rltb_ge x y : ltb x y = false <-> y <= x.
Proof.
  unfold ltb. destruct (Rlt_dec x y); split; intro; trivial; try discriminate; lra.
Qed.

Lemma Rgtb_gt x y : gtb x y = true <-> y < x.
Proof. apply Rltb_lt. Qed.

Lemma Rgtb_le x y : gtb x y = false <-> x <= y.
Proof. apply Rltb_ge. Qed.

Lemma Rleb_le x y : leb x y = true <-> x <= y.
Proof. unfold leb. destruct (Rle_dec x y); split; intro; trivial; try discriminate; tauto. Qed.

Lemma Rleb_gt x y : leb x y = false <-> y < x.
Proof.
  unfold leb. destruct (Rle_dec x y); split; intro; trivial; try discriminate; lra.
Qed.

Lemma truthy_nonzero x : truthy x = true <-> x <> 0.
Proof.
  unfold truthy. destruct (Req_dec_T x 0); split; intro; trivial; try discriminate; tauto.
Qed.

End RBFacts.

(* ================================================================== *)
(** * Sorting with a comparator that subtracts keys *)
(* ================================================================== *)

Module SortFacts.
Import RB RBFacts Pipeline.
Open Scope R_scope.

Section ByKey.
Variable A : Type.
Variable key : A -> R.







(** Elements that a predicate on the key selects keep their order. *)
Variable p : A -> bool.
Hypothesis p_key : forall a b, p a = true -> p b = true -> key a = key b.



End ByKey.







End SortFacts.

Module RankingClaims.
Import RB RBFacts Pipeline SortFacts.
Open Scope R_scope.



End RankingClaims.

(* ================================================================== *)
(** * The probability engine and the estimates of the pipeline *)
(* ================================================================== *)

Module EngineFacts.
Import RB RBFacts CryptoMath Pipeline.
Open Scope R_scope.

Lemma one_point_zero : 1.0 = 1.
Proof. lra. Qed.

(** On positive inputs the z-score is finite and is the scaled log
    distance. *)
Lemma zscore_of_positive (S K sigma T : R) :
  0 < S -> 0 < K -> 0 < sigma -> 0 < T ->
  calculateZScore S K sigma T = finite (ln (K / S) / (sigma * sqrt T)).
Proof.
  intros HS HK Hs HT. unfold calculateZScore.
  assert (E1 : leb S 0 = false) by (apply Rleb_gt; exact HS).
  assert (E2 : leb K 0 = false) by (apply Rleb_gt; exact HK).
  assert (E3 : leb sigma 0 = false) by (apply Rleb_gt; exact Hs).
  assert (E4 : leb T 0 = false) by (apply Rleb_gt; exact HT).
  rewrite E1, E2, E3, E4. reflexivity.
Qed.

Lemma gtb_as_dec (x y : R) (B : Type) (a b : B) :
  (if gtb x y then a else b) = (if Rlt_dec y x then a else b).
Proof. unfold gtb, ltb. destruct (Rlt_dec y x); reflexivity. Qed.

(** The z-score estimate of a one-touch market is the one-touch
    probability at its target; the direction plays no part. *)
Lemma zscoreEstimate_one_touch (m : CryptoMarket) (cp vol T : R) :
  betType m = one_touch ->
  zscoreEstimate m cp vol T = calculateOneTouchProbability cp (targetPrice m) vol T.
Proof.
  intro H. unfold zscoreEstimate. rewrite H. destruct (direction m); reflexivity.
Qed.

Lemma deltaProbability_one_touch (m : CryptoMarket) (cp strikeIv T : R) :
  betType m = one_touch ->
  deltaProbability m cp strikeIv T
  = Rmin 1 (2 * (if Rlt_dec cp (targetPrice m)
                 then calculateCallDelta cp (targetPrice m) strikeIv T
                 else 1 - calculateCallDelta cp (targetPrice m) strikeIv T)).
Proof.
  intro H. unfold deltaProbability. rewrite H, one_point_zero, gtb_as_dec. reflexivity.
Qed.

Lemma zscoreEstimate_direction (d : Direction) (m : CryptoMarket) (cp vol T : R) :
  betType m = one_touch ->
  zscoreEstimate (withDirection d m) cp vol T = zscoreEstimate m cp vol T.
Proof.
  intro H. rewrite !zscoreEstimate_one_touch; trivial.
Qed.

Lemma deltaProbability_direction (d : Direction) (m : CryptoMarket) (cp iv T : R) :
  betType m = one_touch ->
  deltaProbability (withDirection d m) cp iv T = deltaProbability m cp iv T.
Proof.
  intro H. rewrite !deltaProbability_one_touch; trivial.
Qed.

Lemma deltaEstimate_direction (d : Direction) (m : CryptoMarket)
    (deribitData : string -> option DeribitOptionsData) (cp T : R) :
  betType m = one_touch ->
  deltaEstimate (withDirection d m) deribitData cp T = deltaEstimate m deribitData cp T.
Proof.
  intro H. unfold deltaEstimate.
  cbn [withDirection crypto targetPrice expiryDate].
  destruct (deribitData (crypto m)) as [deribit|]; trivial.
  destruct (includes DERIBIT_SUPPORTED (crypto m)); trivial.
  destruct (findClosestStrikeIV deribit (targetPrice m) (expiryDate m)) as [ivData|]; trivial.
  destruct (gtb (iv ivData) 0); trivial.
  rewrite (deltaProbability_direction d m cp (iv ivData) T H). reflexivity.
Qed.

(** An options-delta estimate, when there is one, carries the probability
    computed from the closest strike, and that probability lies strictly
    between 0 and 1. *)
Lemma deltaEstimate_some (m : CryptoMarket)
    (deribitData : string -> option DeribitOptionsData) (cp T : R)
    (est : ProbabilityEstimate) :
  deltaEstimate m deribitData cp T = Some est ->
  method est = deribit_delta /\
  0 < probability est < 1 /\
  exists deribit ivData,
    deribitData (crypto m) = Some deribit /\
    findClosestStrikeIV deribit (targetPrice m) (expiryDate m) = Some ivData /\
    probability est = deltaProbability m cp (iv ivData) T.
Proof.
  unfold deltaEstimate.
  destruct (deribitData (crypto m)) as [deribit|]; [|discriminate].
  destruct (includes DERIBIT_SUPPORTED (crypto m)); [|discriminate].
  destruct (findClosestStrikeIV deribit (targetPrice m) (expiryDate m))
    as [ivData|] eqn:Eiv; [|discriminate].
  destruct (gtb (iv ivData) 0); [|discriminate].
  destruct (gtb (deltaProbability m cp (iv ivData) T) 0) eqn:E0; [|discriminate].
  destruct (ltb (deltaProbability m cp (iv ivData) T) 1) eqn:E1; [|discriminate].
  simpl. intro H. injection H as <-. simpl.
  apply Rgtb_gt in E0. apply Rltb_lt in E1.
  split; [reflexivity|]. split; [split; assumption|].
  exists deribit, ivData. auto.
Qed.

(** No estimate at the boundaries or beyond. *)
Lemma deltaEstimate_none (m : CryptoMarket)
    (deribitData : string -> option DeribitOptionsData) (cp T : R)
    (deribit : DeribitOptionsData) (ivData : StrikeIV) :
  deribitData (crypto m) = Some deribit ->
  findClosestStrikeIV deribit (targetPrice m) (expiryDate m) = Some ivData ->
  deltaProbability m cp (iv ivData) T <= 0 \/ 1 <= deltaProbability m cp (iv ivData) T ->
  deltaEstimate m deribitData cp T = None.
Proof.
  intros Hd Hiv HP. unfold deltaEstimate. rewrite Hd.
  destruct (includes DERIBIT_SUPPORTED (crypto m)); trivial.
  rewrite Hiv.
  destruct (gtb (iv ivData) 0); trivial.
  destruct HP as [HP | HP].
  - apply Rgtb_le in HP. rewrite HP. reflexivity.
  - apply Rltb_ge in HP. rewrite HP, andb_false_r. reflexivity.
Qed.

(** What [processMarket] puts into the opportunity it pushes. *)
Lemma processMarket_some (prices : string -> option R)
    (deribitData : string -> option DeribitOptionsData) (nowMs : R)
    (m : CryptoMarket) (opp : ArbitrageOpportunity) :
  processMarket prices deribitData nowMs m = Some opp ->
  let T := timeToExpiryYears (expiryDate m) nowMs in
  prices (crypto m) = Some (currentPrice opp) /\
  0 < currentPrice opp /\ 0 < T /\
  zscoreProb opp
  = zscoreEstimate m (currentPrice opp)
                   (volatility (getVolatilityData (crypto m) deribitData)) T /\
  deribitProb opp = deltaEstimate m deribitData (currentPrice opp) T /\
  edgeVsZscore opp = polymarketPrice m - probability (zscoreProb opp) /\
  edgeVsDeribit opp
  = option_map (fun e => polymarketPrice m - probability e) (deribitProb opp).
Proof.
  unfold processMarket.
  destruct (prices (crypto m)) as [cp|]; [|discriminate].
  destruct (negb (truthy cp) || leb cp 0) eqn:Ecp; [discriminate|].
  destruct (leb (timeToExpiryYears (expiryDate m) nowMs) 0) eqn:ET; [discriminate|].
  intro H. injection H as <-. simpl.
  apply orb_false_iff in Ecp. destruct Ecp as [_ Ecp].
  apply Rleb_gt in Ecp. apply Rleb_gt in ET.
  repeat split; trivial.
  destruct (deltaEstimate m deribitData cp _); reflexivity.
Qed.

Lemma year_from_zero : timeToExpiryYears msPerYear 0 = 1.
Proof.
  unfold timeToExpiryYears.
  assert (Hpos : 0 < msPerYear) by (unfold msPerYear; lra).
  replace ((msPerYear - 0) / msPerYear) with 1 by (field; lra).
  unfold Rmax. destruct (Rle_dec 0 1); lra.
Qed.

(** The example market is processed. *)
Lemma example_processed :
  exists opp,
    processMarket Example.prices Example.deribitData 0 Example.btc120k = Some opp.
Proof.
  unfold processMarket. simpl.
  assert (E1 : negb (truthy 100000) || leb 100000 0 = false).
  { apply orb_false_iff. split.
    - apply negb_false_iff. apply truthy_nonzero. lra.
    - apply Rleb_gt. lra. }
  rewrite E1, year_from_zero.
  assert (E2 : leb 1 0 = false) by (apply Rleb_gt; lra).
  rewrite E2. eexists. reflexivity.
Qed.

End EngineFacts.

Module EngineClaims.
Import RB RBFacts CryptoMath Pipeline EngineFacts.
Open Scope R_scope.

(** C7. An opportunity carries an options-delta estimate only when the
    probability computed from the closest strike lies strictly between 0
    and 1; when that probability is at most 0 or at least 1 the opportunity
    has no options-delta estimate and no options-delta edge, and carries
    the z-score estimate alone. *)
Theorem delta_estimate_only_strictly_inside (prices : string -> option R)
    (deribitData : string -> option DeribitOptionsData) (nowMs : R)
    (m : CryptoMarket) (opp : ArbitrageOpportunity) :
  processMarket prices deribitData nowMs m = Some opp ->
  let T := timeToExpiryYears (expiryDate m) nowMs in
  method (zscoreProb opp) = zscore
  /\ (forall est, deribitProb opp = Some est ->
        method est = deribit_delta /\ 0 < probability est < 1 /\
        exists deribit ivData,
          deribitData (crypto m) = Some deribit /\
          findClosestStrikeIV deribit (targetPrice m) (expiryDate m) = Some ivData /\
          probability est = deltaProbability m (currentPrice opp) (iv ivData) T)
  /\ (forall deribit ivData,
        deribitData (crypto m) = Some deribit ->
        findClosestStrikeIV deribit (targetPrice m) (expiryDate m) = Some ivData ->
        deltaProbability m (currentPrice opp) (iv ivData) T <= 0
        \/ 1 <= deltaProbability m (currentPrice opp) (iv ivData) T ->
        deribitProb opp = None /\ edgeVsDeribit opp = None).
Proof.
  intros H T.
  destruct (processMarket_some _ _ _ _ _ H) as [_ [_ [_ [Hz [Hd [_ He]]]]]].
  fold T in Hz, Hd.
  split; [|split].
  - rewrite Hz. unfold zscoreEstimate.
    destruct (betType m); [destruct (direction m)|]; reflexivity.
  - intros est Hest. rewrite Hd in Hest. apply (deltaEstimate_some _ _ _ _ _ Hest).
  - intros deribit ivData Hdd Hiv HP.
    assert (Hnone : deribitProb opp = None).
    { rewrite Hd. apply (deltaEstimate_none _ _ _ _ _ _ Hdd Hiv HP). }
    split; [exact Hnone|]. rewrite He, Hnone. reflexivity.
Qed.

Lemma delta_estimate_only_strictly_inside_witness :
  exists opp,
    processMarket Example.prices Example.deribitData 0 Example.btc120k = Some opp
    /\ method (zscoreProb opp) = zscore
    /\ forall est, deribitProb opp = Some est -> 0 < probability est < 1.
Proof.
  destruct example_processed as [opp H].
  exists opp. split; [exact H|].
  destruct (delta_estimate_only_strictly_inside _ _ _ _ _ H) as [Hm [Hin _]].
  split; [exact Hm|].
  intros est Hest. apply (Hin est Hest).
Defined.

(** C8. On positive inputs the one-touch probability is [min(1, 2q)], where
    [q] is [1 - normalCDF(z)] when the target is above the current price and
    [normalCDF(z)] otherwise, [z] being [ln(K/S) / (sigma * sqrt T)]; and for
    a one-touch market the options-delta method applies the same rule to the
    call delta or its complement, whatever implied volatility it is given. *)
Theorem one_touch_rule (S K sigma T : R) (m : CryptoMarket)
    (currentPrice strikeIv timeYears : R) :
  0 < S -> 0 < K -> 0 < sigma -> 0 < T ->
  betType m = one_touch ->
  let z := ln (K / S) / (sigma * sqrt T) in
  let q := if Rlt_dec S K then 1 - normalCDF (finite z) else normalCDF (finite z) in
  let callDelta := calculateCallDelta currentPrice (targetPrice m) strikeIv timeYears in
  let baseDelta :=
    if Rlt_dec currentPrice (targetPrice m) then callDelta else 1 - callDelta in
  probability (calculateOneTouchProbability S K sigma T) = Rmin 1 (2 * q)
  /\ deltaProbability m currentPrice strikeIv timeYears = Rmin 1 (2 * baseDelta).
Proof.
  intros HS HK Hs HT Hm z q callDelta baseDelta. split.
  - unfold calculateOneTouchProbability. simpl.
    rewrite (zscore_of_positive _ _ _ _ HS HK Hs HT), one_point_zero, gtb_as_dec.
    reflexivity.
  - apply deltaProbability_one_touch. exact Hm.
Qed.

Lemma one_touch_rule_witness :
  probability (calculateOneTouchProbability 100000 120000 0.55 0.25)
  = Rmin 1 (2 * (if Rlt_dec 100000 120000
                 then 1 - normalCDF (finite (ln (120000 / 100000) / (0.55 * sqrt 0.25)))
                 else normalCDF (finite (ln (120000 / 100000) / (0.55 * sqrt 0.25))))).
Proof.
  apply (one_touch_rule 100000 120000 0.55 0.25 Example.btc120k 100000 0.55 1);
    try lra.
  reflexivity.
Defined.

(** C10. For a one-touch market the pipeline computes the same estimates,
    edges and recommendation whichever direction the market is given: the
    z-score estimate is the one-touch probability at the target, which looks
    only at whether the target is above the current price. *)
Theorem one_touch_ignores_direction (prices : string -> option R)
    (deribitData : string -> option DeribitOptionsData) (nowMs : R)
    (m : CryptoMarket) (d : Direction) (cp vol T : R) :
  betType m = one_touch ->
  option_map modelView (processMarket prices deribitData nowMs (withDirection d m))
  = option_map modelView (processMarket prices deribitData nowMs m)
  /\ zscoreEstimate (withDirection d m) cp vol T
     = calculateOneTouchProbability cp (targetPrice m) vol T
  /\ deltaEstimate (withDirection d m) deribitData cp T
     = deltaEstimate m deribitData cp T.
Proof.
  intro H. split; [|split].
  - unfold processMarket.
    cbn [withDirection crypto targetPrice expiryDate polymarketPrice].
    destruct (prices (crypto m)) as [price|]; trivial.
    destruct (negb (truthy price) || leb price 0); trivial.
    destruct (leb (timeToExpiryYears (expiryDate m) nowMs) 0); trivial.
    simpl. unfold modelView. simpl.
    rewrite (zscoreEstimate_direction d m _ _ _ H).
    rewrite (deltaEstimate_direction d m deribitData _ _ H).
    reflexivity.
  - rewrite (zscoreEstimate_direction d m _ _ _ H).
    apply zscoreEstimate_one_touch. exact H.
  - apply deltaEstimate_direction. exact H.
Qed.

Lemma one_touch_ignores_direction_witness :
  option_map modelView
    (processMarket Example.prices Example.deribitData 0
                   (withDirection below Example.btc120k))
  = option_map modelView
      (processMarket Example.prices Example.deribitData 0 Example.btc120k).
Proof.
  apply (one_touch_ignores_direction Example.prices Example.deribitData 0
           Example.btc120k below 100000 0.55 1).
  reflexivity.
Defined.

End EngineClaims.

(* ================================================================== *)
(** * The question parser on the question about 200k *)
(* ================================================================== *)

Module ParserClaims.
Import Regex CryptoMath Parser.
Open Scope string_scope.

(** What the parser returns for the question, in any time zone. *)
Lemma utcTime_end_of_2025 : utcTime 2025 11 31 23 59 59 = utc_2025_12_31_23_59_59.
Proof. vm_compute. reflexivity. Qed.

Lemma parse_bitcoin200k (tzOffset : Z) :
  parseCryptoMarketQuestion tzOffset bitcoin200k
  = Some (mkParsed "BTC" 200000
                   (Some (instant (newDate tzOffset 2025 11 31 23 59 59)))
                   one_touch above).
Proof. lazy -[newDate]. reflexivity. Qed.

(** C9, as stated, fails where the process does not run on UTC: in New
    York in winter the expiry parsed from the question is the instant
    2026-01-01T04:59:59Z, five hours after 2025-12-31T23:59:59Z. *)
Lemma parser_expiry_counterexample :
  option_map expiryDate (parseCryptoMarketQuestion newYorkWinter bitcoin200k)
  = Some (Some (instant (utc_2025_12_31_23_59_59 + 5 * 3600 * 1000)))
  /\ option_map expiryDate (parseCryptoMarketQuestion newYorkWinter bitcoin200k)
     <> Some (Some (instant utc_2025_12_31_23_59_59)).
Proof.
  split.
  - vm_compute. reflexivity.
  - vm_compute. intro H. discriminate H.
Qed.

(** C9, amended.  The parser accepts the question and returns the symbol
    BTC, the target price 200000, the bet type one-touch, the direction
    above, and as expiry 23:59:59 on 31 December 2025 in the local time zone
    of the process; that is the instant 2025-12-31T23:59:59Z exactly when
    the local time zone has no offset from UTC. *)
Theorem parser_accepts_bitcoin200k (tzOffset : Z) :
  exists parsed,
    parseCryptoMarketQuestion tzOffset bitcoin200k = Some parsed
    /\ crypto parsed = "BTC"
    /\ targetPrice parsed = 200000%Q
    /\ betType parsed = one_touch
    /\ direction parsed = above
    /\ expiryDate parsed = Some (instant (newDate tzOffset 2025 11 31 23 59 59))
    /\ expiryDate parsed = Some (instant (utc_2025_12_31_23_59_59 + tzOffset * 60000))
    /\ (expiryDate parsed = Some (instant utc_2025_12_31_23_59_59) <-> tzOffset = 0%Z).
Proof.
  eexists. split; [apply parse_bitcoin200k|].
  cbn [crypto targetPrice betType direction expiryDate].
  assert (E : newDate tzOffset 2025 11 31 23 59 59
              = (utc_2025_12_31_23_59_59 + tzOffset * 60000)%Z).
  { unfold newDate. rewrite utcTime_end_of_2025. reflexivity. }
  rewrite E.
  split; [reflexivity|]. split; [reflexivity|]. split; [reflexivity|].
  split; [reflexivity|]. split; [reflexivity|]. split; [reflexivity|].
  split.
  - intro H.
    assert (H' : (utc_2025_12_31_23_59_59 + tzOffset * 60000
                  = utc_2025_12_31_23_59_59)%Z) by congruence.
    lia.
  - intros ->. reflexivity.
Qed.

End ParserClaims.

(* ================================================================== *)
(** * The paper bot: what every cycle keeps *)
(* ================================================================== *)

Module PaperBotCycleFacts.
Import QB QBFacts PaperBot PaperBotFacts PaperBotRules.
Open Scope Q_scope.
Local Ltac lra := Lqa.lra.

Section Preservation.

(** A property of states that closing an open position, entering a
    position, refreshing and stamping keep. *)
Variable I : BotState -> Prop.

Hypothesis close_keeps : forall env j p price edge reason state,
  I state -> sound state -> In p (openPositions state) ->
  I (closePosition env j p price edge reason state).

Hypothesis enter_keeps : forall env k opp state,
  I state ->
  shouldEnter (shouldEnterPosition (now env) opp state CONFIG) = true ->
  I (entered env k opp state).

Hypothesis update_keeps : forall opps state,
  I state -> I (updateOpenPositions opps state).

Hypothesis stamp_keeps : forall t state, I state -> I (stamp t state).

Lemma exitLoop_keeps env snapshot : forall j state,
  I state -> sound state ->
  NoDup (map pos_id snapshot) ->
  (forall p, In p snapshot -> In p (openPositions state)) ->
  I (exitLoop env j snapshot state).
Proof.
  induction snapshot as [|p rest IH]; intros j state HI Hs Hnd Hsub; simpl.
  - exact HI.
  - simpl in Hnd. inversion Hnd as [|? ? Hnotin Hnd']; subst.
    destruct (shouldExit _).
    + apply IH; trivial.
      * apply close_keeps; trivial. apply Hsub. left. reflexivity.
      * apply close_sound; trivial. apply Hsub. left. reflexivity.
      * intros q Hq. simpl. apply filter_In. split.
        -- apply Hsub. right. exact Hq.
        -- destruct (String.eqb (pos_id q) (pos_id p)) eqn:E; trivial.
           apply String.eqb_eq in E. exfalso. apply Hnotin. rewrite <- E.
           apply in_map. exact Hq.
    + apply IH; trivial. intros q Hq. apply Hsub. right. exact Hq.
Qed.

Lemma entryLoop_keeps env opps : forall k state,
  I state -> I (entryLoop env k opps state).
Proof.
  induction opps as [|opp rest IH]; intros k state HI; simpl.
  - exact HI.
  - destruct (shouldEnter _) eqn:E; [|apply IH; exact HI].
    apply IH. apply (enter_keeps env k opp state HI E).
Qed.

Lemma cycleState_keeps env state :
  I state -> sound state -> I (cycleState env state).
Proof.
  intros HI Hs. unfold cycleState.
  destruct (opportunities env) as [|o os] eqn:Eo; [exact HI|].
  rewrite <- Eo.
  apply stamp_keeps. apply entryLoop_keeps.
  apply exitLoop_keeps.
  - apply update_keeps. exact HI.
  - apply update_sound. exact Hs.
  - apply update_sound. exact Hs.
  - trivial.
Qed.

Hypothesis initial_holds : forall t, I (initialState t).

Lemma reachable_keeps state : reachable state -> I state.
Proof.
  induction 1 as [t | env state Hr IH Hfresh].
  - apply initial_holds.
  - apply cycleState_keeps; [exact IH|]. apply reachable_sound. exact Hr.
Qed.

End Preservation.

(** ** Properties of each open position *)

Section EachPosition.

Variable P : Position -> Prop.

Hypothesis refresh_keeps : forall opps p, P p -> P (refreshPosition opps p).

Hypothesis opened_has : forall env k opp state,
  shouldEnter (shouldEnterPosition (now env) opp state CONFIG) = true ->
  P (fst (openPosition env k opp
            (ec_side (shouldEnterPosition (now env) opp state CONFIG))
            (ec_edge (shouldEnterPosition (now env) opp state CONFIG))
            state CONFIG)).

Lemma reachable_each state : reachable state -> Forall P (openPositions state).
Proof.
  apply reachable_keeps with (I := fun s => Forall P (openPositions s)).
  - intros env j p price edge reason st HI _ _. simpl.
    apply Forall_forall. intros q Hq. apply filter_In in Hq.
    apply (proj1 (Forall_forall _ _) HI). tauto.
  - intros env k opp st HI E. unfold entered. simpl.
    apply Forall_app. split; [exact HI|].
    constructor; [|constructor].
    apply (opened_has env k opp st E).
  - intros opps st HI. simpl.
    apply Forall_forall. intros q Hq.
    apply in_map_iff in Hq. destruct Hq as [r [<- Hr]].
    apply refresh_keeps. apply (proj1 (Forall_forall _ _) HI). exact Hr.
  - intros t st HI. exact HI.
  - intro t. constructor.
Qed.

End EachPosition.

Lemma refresh_marketId opps p : marketId (refreshPosition opps p) = marketId p.
Proof. unfold refreshPosition. destruct (findOpportunity _ _); reflexivity. Qed.

Lemma refresh_entryEdge opps p : entryEdge (refreshPosition opps p) = entryEdge p.
Proof. unfold refreshPosition. destruct (findOpportunity _ _); reflexivity. Qed.

Lemma nodup_map_filter {A B : Type} (f : A -> B) (g : A -> bool) (l : list A) :
  NoDup (map f l) -> NoDup (map f (filter g l)).
Proof.
  induction l as [|q l IH]; intro Hnd; simpl; [constructor|].
  simpl in Hnd. inversion Hnd as [|? ? Hnotin Hnd']; subst.
  destruct (g q); simpl; [constructor|]; auto.
  intro Hin. apply Hnotin.
  apply in_map_iff in Hin. destruct Hin as [r [Hr Hin]].
  apply filter_In in Hin. rewrite <- Hr. apply in_map. tauto.
Qed.

Lemma find_none_not_in (l : list Position) (mid : string) :
  find (fun p => String.eqb (marketId p) mid) l = None ->
  ~ In mid (map marketId l).
Proof.
  intros Hfind Hin. apply in_map_iff in Hin. destruct Hin as [p [Hp Hin]].
  pose proof (find_none _ _ Hfind p Hin) as H. simpl in H.
  rewrite Hp, String.eqb_refl in H. discriminate H.
Qed.

(** What an admitted entry has passed, gate by gate. *)
Lemma shouldEnter_passed t opp state cfg :
  shouldEnter (shouldEnterPosition t opp state cfg) = true ->
  ec_edge (shouldEnterPosition t opp state cfg) = effectiveEdge opp /\
  ec_side (shouldEnterPosition t opp state cfg)
  = (if gtb (effectiveEdge opp) 0 then short else long) /\
  minEdgeToEnter cfg <= Qabs (effectiveEdge opp) /\
  minTimeToExpiry cfg <= inject_Z (m_expiryDate (market opp) - t) / msPerDay /\
  find (fun p => String.eqb (marketId p) (m_id (market opp))) (openPositions state)
  = None.
Proof.
  unfold shouldEnterPosition.
  destruct (ltb (Qabs (effectiveEdge opp)) (minEdgeToEnter cfg)) eqn:E1; [discriminate|].
  destruct (ltb _ (minTimeToExpiry cfg)) eqn:E2; [discriminate|].
  destruct (find _ _) eqn:E3; [discriminate|].
  destruct (gtb _ (maxTotalExposure cfg)); [discriminate|].
  destruct (gtb _ (currentBalance state)); [discriminate|].
  intros _. simpl. apply ltb_ge in E1. apply ltb_ge in E2. auto.
Qed.

Lemma size_in_config_range (edge : Q) :
  basePositionSize CONFIG <= calculatePositionSize edge CONFIG /\
  calculatePositionSize edge CONFIG <= maxPositionSize CONFIG.
Proof.
  unfold calculatePositionSize. simpl.
  pose proof (Qabs_nonneg edge) as Habs.
  split.
  - apply Q.min_glb; [|discriminate].
    assert (0 <= Qabs edge * 500) by (apply Qmult_le_0_compat; [exact Habs | discriminate]).
    lra.
  - apply Q.le_min_r.
Qed.

End PaperBotCycleFacts.

Module PaperBotExtras.
Import QB QBFacts PaperBot PaperBotFacts PaperBotRules PaperBotCycleFacts.
Open Scope Q_scope.
Local Ltac lra := Lqa.lra.

(** X1. In every state the paper bot reaches, no two open positions are on
    the same market. *)
Theorem one_position_per_market (state : BotState) :
  reachable state -> NoDup (map marketId (openPositions state)).
Proof.
  apply reachable_keeps
    with (I := fun s => NoDup (map marketId (openPositions s))).
  - intros env j p price edge reason st HI _ _. simpl.
    apply nodup_map_filter. exact HI.
  - intros env k opp st HI E. unfold entered. simpl.
    rewrite map_app. simpl.
    destruct (shouldEnter_passed _ _ _ _ E) as [_ [_ [_ [_ Hfind]]]].
    apply NoDup_app; [exact HI | repeat constructor; simpl; tauto |].
    intros i Hi [<- | []].
    apply (find_none_not_in _ _ Hfind Hi).
  - intros opps st HI. simpl. rewrite map_map.
    rewrite (map_ext _ marketId); [exact HI|].
    intro p. apply refresh_marketId.
  - intros t st HI. exact HI.
  - intro t. constructor.
Qed.

Lemma one_position_per_market_witness :
  NoDup (map marketId (openPositions Scenario.afterOpen)).
Proof.
  apply one_position_per_market.
  unfold Scenario.afterOpen.
  apply reachable_cycle; [apply reachable_initial|].
  split; simpl; intros; [lia | tauto].
Defined.

(** X2. In every state the paper bot reaches, the size of each open
    position lies between the base size 25 and the largest size 100, and the
    sizes sum to at most the exposure cap 500. *)
Theorem sizes_and_exposure_bounded (state : BotState) :
  reachable state ->
  Forall sizeInRange (openPositions state)
  /\ getTotalExposure (openPositions state) <= maxTotalExposure CONFIG.
Proof.
  intro Hr.
  assert (Hsizes : Forall sizeInRange (openPositions state)).
  { revert Hr. apply reachable_each.
    - intros opps p Hp. unfold sizeInRange. rewrite refresh_size. exact Hp.
    - intros env k opp st E. unfold sizeInRange. simpl. apply size_in_config_range. }
  split; [exact Hsizes|].
  clear Hsizes. induction Hr as [t | env st Hr IH Hfresh].
  - simpl. rewrite exposure_nil. discriminate.
  - apply cycleState_capped; [|exact IH].
    assert (Hs : Forall sizeInRange (openPositions st)).
    { revert Hr. apply reachable_each.
      - intros opps p Hp. unfold sizeInRange. rewrite refresh_size. exact Hp.
      - intros env' k opp st' E. unfold sizeInRange. simpl. apply size_in_config_range. }
    intros p Hp.
    destruct (proj1 (Forall_forall _ _) Hs p Hp) as [Hlo _].
    simpl in Hlo. lra.
Qed.

Lemma sizes_and_exposure_bounded_witness :
  Forall sizeInRange (openPositions Scenario.afterOpen)
  /\ getTotalExposure (openPositions Scenario.afterOpen) <= maxTotalExposure CONFIG.
Proof.
  apply sizes_and_exposure_bounded.
  unfold Scenario.afterOpen.
  apply reachable_cycle; [apply reachable_initial|].
  split; simpl; intros; [lia | tauto].
Defined.

(** X3. In every state the paper bot reaches, each open position is short
    when its entry edge is positive and long otherwise, and its entry edge is
    at least the entry threshold in absolute value. *)
Theorem side_follows_entry_edge (state : BotState) :
  reachable state -> Forall sideFollowsEdge (openPositions state).
Proof.
  apply reachable_each.
  - intros opps p Hp. unfold sideFollowsEdge.
    rewrite refresh_side, refresh_entryEdge. exact Hp.
  - intros env k opp st E. unfold sideFollowsEdge. simpl.
    destruct (shouldEnter_passed _ _ _ _ E) as [He [Hs [Hmin _]]].
    rewrite He, Hs. split; [reflexivity | exact Hmin].
Qed.

Lemma side_follows_entry_edge_witness :
  Forall sideFollowsEdge (openPositions Scenario.afterOpen).
Proof.
  apply side_follows_entry_edge.
  unfold Scenario.afterOpen.
  apply reachable_cycle; [apply reachable_initial|].
  split; simpl; intros; [lia | tauto].
Defined.

End PaperBotExtras.

Module PaperBotMoreFacts.
Import QB QBFacts PaperBot PaperBotFacts PaperBotRules PaperBotCycleFacts.
Open Scope Q_scope.
Local Ltac lra := Lqa.lra.

Lemma length_filter_out (l : list Position) (p : Position) :
  NoDup (map pos_id l) -> In p l ->
  S (List.length (filter (otherThan p) l)) = List.length l.
Proof.
  induction l as [|q l IH]; intros Hnd Hin; [contradiction|].
  simpl in Hnd. inversion Hnd as [|? ? Hnotin Hnd']; subst.
  destruct Hin as [-> | Hin].
  - simpl. unfold otherThan at 1. rewrite String.eqb_refl. simpl. f_equal.
    clear IH Hnd Hnd'. induction l as [|r l IHl]; simpl; trivial.
    unfold otherThan at 1.
    destruct (String.eqb (pos_id r) (pos_id p)) eqn:E.
    + apply String.eqb_eq in E. exfalso. apply Hnotin. left. exact E.
    + simpl. f_equal. apply IHl. intro H. apply Hnotin. right. exact H.
  - simpl. unfold otherThan at 1.
    destruct (String.eqb (pos_id q) (pos_id p)) eqn:E.
    + apply String.eqb_eq in E. exfalso. apply Hnotin. rewrite E.
      apply in_map. exact Hin.
    + simpl. f_equal. apply IH; assumption.
Qed.

(** ** Money never owed *)








End PaperBotMoreFacts.

Module PaperBotBooks.
Import QB QBFacts PaperBot PaperBotFacts PaperBotRules PaperBotCycleFacts.
Import PaperBotMoreFacts.
Open Scope Q_scope.
Local Ltac lra := Lqa.lra.

(** X4. In every state the paper bot reaches, [totalTrades] is the length
    of the trade log, and the log holds exactly one trade for each open
    position and two for each closed one. *)
Theorem trade_log_accounts_for_positions (state : BotState) :
  reachable state ->
  totalTrades state = List.length (trades state)
  /\ List.length (trades state)
     = (List.length (openPositions state)
        + 2 * List.length (closedPositions state))%nat.
Proof.
  apply reachable_keeps with (I := booksAgree).
  - intros env j p price edge reason st [Hc Hl] [_ Hnd] Hin.
    unfold booksAgree. simpl.
    change (fun q => negb (String.eqb (pos_id q) (pos_id p))) with (otherThan p).
    pose proof (length_filter_out _ _ Hnd Hin) as Hf.
    rewrite !length_app. simpl. lia.
  - intros env k opp st [Hc Hl] _. unfold booksAgree, entered. simpl.
    rewrite !length_app. simpl. lia.
  - intros opps st [Hc Hl]. unfold booksAgree. simpl.
    rewrite length_map. auto.
  - intros t st H. exact H.
  - intro t. split; reflexivity.
Qed.

Lemma trade_log_accounts_for_positions_witness :
  totalTrades Scenario.afterClose = List.length (trades Scenario.afterClose)
  /\ List.length (trades Scenario.afterClose)
     = (List.length (openPositions Scenario.afterClose)
        + 2 * List.length (closedPositions Scenario.afterClose))%nat.
Proof.
  apply trade_log_accounts_for_positions.
  unfold Scenario.afterClose, Scenario.afterOpen.
  apply reachable_cycle; [apply reachable_cycle; [apply reachable_initial|] |].
  - split; simpl; intros; [lia | tauto].
  - split; simpl.
    + intros; lia.
    + intros a _ [H | []]. discriminate H.
Defined.



(** X6. The entry and exit rules of [CONFIG] do not fight over one quote: a
    position entered on an opportunity is not closed by the exit check on
    that same opportunity, at whatever time and after whatever refresh. *)
Theorem no_exit_on_the_entry_quote (env : CycleEnv) (k : nat)
    (opp : ArbitrageOpportunity) (state : BotState)
    (opps : list ArbitrageOpportunity) (t : Z) :
  shouldEnter (shouldEnterPosition (now env) opp state CONFIG) = true ->
  let check := shouldEnterPosition (now env) opp state CONFIG in
  let position :=
    refreshPosition opps
      (fst (openPosition env k opp (ec_side check) (ec_edge check) state CONFIG)) in
  shouldExit (shouldExitPosition t position (Some opp) CONFIG) = false.
Proof.
  intros E check position.
  destruct (shouldEnter_passed _ _ _ _ E) as [_ [Hs [Hmin _]]].
  unfold shouldExitPosition.
  assert (E1 : ltb (Qabs (effectiveEdge opp)) (maxEdgeToExit CONFIG) = false).
  { apply ltb_ge. exact Hmin. }
  rewrite E1.
  assert (E2 : side position = (if gtb (effectiveEdge opp) 0 then short else long)).
  { unfold position. rewrite refresh_side. simpl. exact Hs. }
  rewrite E2.
  destruct (gtb (effectiveEdge opp) 0); reflexivity.
Qed.

Lemma no_exit_on_the_entry_quote_witness :
  shouldExit
    (shouldExitPosition 60000
       (refreshPosition [Scenario.firstQuote]
          (fst (openPosition Scenario.firstCycle 0 Scenario.firstQuote
                  (ec_side (shouldEnterPosition 0 Scenario.firstQuote
                              (initialState 0) CONFIG))
                  (ec_edge (shouldEnterPosition 0 Scenario.firstQuote
                              (initialState 0) CONFIG))
                  (initialState 0) CONFIG)))
       (Some Scenario.firstQuote) CONFIG) = false.
Proof.
  apply (no_exit_on_the_entry_quote Scenario.firstCycle 0 Scenario.firstQuote
           (initialState 0) [Scenario.firstQuote] 60000).
  vm_compute. reflexivity.
Defined.

End PaperBotBooks.

Module PersistenceExtras.
Import Persistence PersistenceFacts.

(** X7. When [saveState] has completed without an error, [loadState]
    returns the state that was saved, not the initial state, unless reading
    the file throws, when it returns the initial state. *)
Theorem load_returns_what_was_saved (Content : Type) (target : path)
    (state initial : Content) (fs : FS Content) :
  fst (saveState_try target state fs) = Some tt ->
  fst (loadState target initial (saveState target state fs))
  = if answers 1 (saveState target state fs) then state else initial.
Proof.
  apply load_after_save.
Qed.

Lemma load_returns_what_was_saved_witness :
  fst (loadState ["data"%string; "bot-state.json"%string] 0%nat
         (saveState ["data"%string; "bot-state.json"%string] 7%nat (mkFS [] [] [])))
  = 7%nat.
Proof.
  apply (load_returns_what_was_saved nat ["data"%string; "bot-state.json"%string]
           7%nat 0%nat (mkFS [] [] [])).
  reflexivity.
Defined.



End PersistenceExtras.

(* ================================================================== *)
(** * The probability engine: bounds, symmetry and degenerate inputs *)
(* ================================================================== *)

Module NormalFacts.
Import RB RBFacts CryptoMath CryptoMathMore.
Open Scope R_scope.

Lemma polynomial_split (t : R) :
  erfcPolynomial t
  = 0.999999999
    - (1 - t) * (0.999999999 + 0.745170407 * t + 1.029667143 * t * t
                 - 0.391746598 * t * t * t + 1.061405429 * t * t * t * t).
Proof. unfold erfcPolynomial. nra. Qed.

Lemma polynomial_le_1 (t : R) : 0 <= t <= 1 -> erfcPolynomial t <= 1.
Proof.
  intros [H0 H1]. rewrite polynomial_split.
  assert (0 <= t * t) by nra.
  assert (t * t * t <= t * t) by nra.
  assert (0 <= t * t * t * t) by nra.
  assert (0 <= 0.999999999 + 0.745170407 * t + 1.029667143 * t * t
               - 0.391746598 * t * t * t + 1.061405429 * t * t * t * t) by nra.
  nra.
Qed.

Lemma polynomial_ge_0 (t : R) : 0 <= t <= 1 -> 0 <= erfcPolynomial t.
Proof.
  intros [H0 H1]. unfold erfcPolynomial.
  pose proof (pow2_ge_0 (t - 0.68)) as S1.
  pose proof (pow2_ge_0 (t - 0.15)) as S2.
  assert (I1 : 0.92 <= (1.061405429 * t + -1.453152027) * t + 1.421413741) by nra.
  assert (I2 : 0 <= t * t) by nra.
  assert (I3 : 0.92 * (t * t)
               <= ((1.061405429 * t + -1.453152027) * t + 1.421413741) * (t * t)) by nra.
  assert (I4 : 0 <= 0.254829592 + -0.284496736 * t + 0.92 * (t * t)) by nra.
  nra.
Qed.

Lemma exp_le_1 (y : R) : y <= 0 -> exp y <= 1.
Proof.
  intro H. destruct (Req_dec y 0) as [-> | Hne].
  - rewrite exp_0. lra.
  - rewrite <- exp_0. left. apply exp_increasing. lra.
Qed.

Lemma sqrt2_pos : 0 < sqrt 2.
Proof. apply sqrt_lt_R0. lra. Qed.

Lemma normalCDF_finite_eq (x : R) :
  normalCDF_finite x = 0.5 * (1 + (if ltb x 0 then -1 else 1) * (1 - tailTerm x)).
Proof. reflexivity. Qed.

Lemma tailTerm_range (x : R) : 0 <= tailTerm x <= 1.
Proof.
  unfold tailTerm.
  set (x' := Rabs x / sqrt 2).
  assert (Hx : 0 <= x').
  { unfold x', Rdiv. apply Rmult_le_pos; [apply Rabs_pos|].
    left. apply Rinv_0_lt_compat. apply sqrt2_pos. }
  set (d := 1 + 0.3275911 * x').
  assert (Hd : 1 <= d) by (unfold d; nra).
  set (t := 1 / d).
  assert (Htd : t * d = 1) by (unfold t; field; lra).
  assert (Ht0 : 0 < t).
  { unfold t, Rdiv. rewrite Rmult_1_l. apply Rinv_0_lt_compat. lra. }
  assert (Ht1 : t <= 1) by nra.
  pose proof (polynomial_ge_0 t (conj (Rlt_le _ _ Ht0) Ht1)) as P0.
  pose proof (polynomial_le_1 t (conj (Rlt_le _ _ Ht0) Ht1)) as P1.
  pose proof (exp_pos (- x' * x')) as E0.
  assert (E1 : exp (- x' * x') <= 1) by (apply exp_le_1; nra).
  split; nra.
Qed.

Lemma tailTerm_even (x : R) : tailTerm (- x) = tailTerm x.
Proof. unfold tailTerm. rewrite Rabs_Ropp. reflexivity. Qed.

Lemma tailTerm_0 : tailTerm 0 = 0.999999999.
Proof.
  unfold tailTerm. rewrite Rabs_R0.
  replace (0 / sqrt 2) with 0 by (unfold Rdiv; ring).
  replace (- 0 * 0) with 0 by ring. rewrite exp_0.
  replace (1 / (1 + 0.3275911 * 0)) with 1 by (field; lra).
  unfold erfcPolynomial. lra.
Qed.

Lemma normalCDF_finite_range (x : R) : 0 <= normalCDF_finite x <= 1.
Proof.
  rewrite normalCDF_finite_eq. pose proof (tailTerm_range x).
  destruct (ltb x 0); lra.
Qed.

Lemma normalCDF_range (x : Num) : 0 <= normalCDF x <= 1.
Proof.
  destruct x; simpl; [apply normalCDF_finite_range | lra | lra].
Qed.

Lemma normalCDF_upper_half (x : R) : 0 <= x -> 0.5 <= normalCDF_finite x.
Proof.
  intro Hx. rewrite normalCDF_finite_eq. pose proof (tailTerm_range x).
  assert (E : ltb x 0 = false) by (apply Rltb_ge; exact Hx).
  rewrite E. lra.
Qed.

Lemma normalCDF_lower_half (x : R) : x < 0 -> normalCDF_finite x <= 0.5.
Proof.
  intro Hx. rewrite normalCDF_finite_eq. pose proof (tailTerm_range x).
  assert (E : ltb x 0 = true) by (apply Rltb_lt; exact Hx).
  rewrite E. lra.
Qed.

Lemma normalCDF_0 : normalCDF_finite 0 = 0.5000000005.
Proof.
  rewrite normalCDF_finite_eq, tailTerm_0.
  assert (E : ltb 0 0 = false) by (apply Rltb_ge; lra).
  rewrite E. lra.
Qed.



End NormalFacts.

Module EngineExtras.
Import RB RBFacts CryptoMath CryptoMathMore Pipeline EngineFacts NormalFacts.
Open Scope R_scope.

(** X9. [normalCDF] returns a probability on every input, finite or
    infinite; it is at least one half on a non-negative argument and at most
    one half on a negative one. *)
Theorem normalCDF_is_a_probability (x : Num) (r : R) :
  0 <= normalCDF x <= 1
  /\ (if Rle_dec 0 r then 0.5 <= normalCDF (finite r) else normalCDF (finite r) <= 0.5).
Proof.
  split; [apply normalCDF_range|].
  destruct (Rle_dec 0 r) as [H | H]; simpl.
  - apply normalCDF_upper_half. exact H.
  - apply normalCDF_lower_half. lra.
Qed.

(** X10. [normalCDF(x) + normalCDF(-x)] is exactly 1 for every real [x]
    other than 0 and for the two infinities; at 0, where the sign test sends
    both arguments to the positive branch, the sum is 1.000000001 because
    [normalCDF(0)] is 0.5000000005. *)
Theorem normalCDF_symmetry (x : R) :
  normalCDF (finite x) + normalCDF (finite (- x))
  = (if Req_dec_T x 0 then 1.000000001 else 1)
  /\ normalCDF plus_infinity + normalCDF minus_infinity = 1.
Proof.
  split; [|simpl; lra]. simpl.
  destruct (Req_dec_T x 0) as [-> | Hne].
  - replace (- 0) with 0 by ring. rewrite normalCDF_0. lra.
  - rewrite !normalCDF_finite_eq, tailTerm_even.
    destruct (Rlt_dec x 0) as [Hneg | Hpos].
    + assert (E1 : ltb x 0 = true) by (apply Rltb_lt; exact Hneg).
      assert (E2 : ltb (- x) 0 = false) by (apply Rltb_ge; lra).
      rewrite E1, E2. lra.
    + assert (E1 : ltb x 0 = false) by (apply Rltb_ge; lra).
      assert (E2 : ltb (- x) 0 = true) by (apply Rltb_lt; lra).
      rewrite E1, E2. lra.
Qed.


(** X12. On an input that is not positive (a time to expiry of zero, say)
    the z-score is an infinity and the engine answers without dividing: the
    one-touch probability is 0, and the settle-above probability is 0 when
    the target is above the current price and 1 otherwise. *)
Theorem degenerate_inputs (S K sigma T : R) :
  S <= 0 \/ K <= 0 \/ sigma <= 0 \/ T <= 0 ->
  calculateZScore S K sigma T
  = (if Rlt_dec S K then plus_infinity else minus_infinity)
  /\ probability (calculateOneTouchProbability S K sigma T) = 0
  /\ probability (calculateZScoreProbability S K sigma T)
     = (if Rlt_dec S K then 0 else 1).
Proof.
  intro H.
  assert (E : leb S 0 || leb K 0 || leb sigma 0 || leb T 0 = true).
  { destruct H as [H | [H | [H | H]]]; apply Rleb_le in H; rewrite H;
      rewrite ?orb_true_r; reflexivity. }
  assert (Hz : calculateZScore S K sigma T
               = (if Rlt_dec S K then plus_infinity else minus_infinity)).
  { unfold calculateZScore. rewrite E. apply gtb_as_dec. }
  split; [exact Hz|].
  unfold calculateOneTouchProbability, calculateZScoreProbability. simpl.
  rewrite Hz, gtb_as_dec.
  destruct (Rlt_dec S K); simpl; split; try lra;
    unfold Rmin; destruct (Rle_dec _ _); lra.
Qed.

Lemma degenerate_inputs_witness :
  probability (calculateOneTouchProbability 100000 120000 0.55 0) = 0.
Proof.
  apply (degenerate_inputs 100000 120000 0.55 0).
  right. right. right. lra.
Defined.



End EngineExtras.

Module EngineMoreFacts.
Import RB RBFacts CryptoMath CryptoMathMore Pipeline EngineFacts NormalFacts.
Open Scope R_scope.





(** The running sum and index of [calculateAverageBrierScore]. *)
Lemma brier_total_range (outcomes : list bool) (predictions : list R) :
  Forall (fun p => 0 <= p <= 1) predictions ->
  forall total i,
    let result :=
      fold_left
        (fun (acc : R * nat) pred =>
           let (total, i) := acc in
           (total + calculateBrierScore pred (nth i outcomes false), S i))
        predictions (total, i) in
    total <= fst result <= total + INR (List.length predictions).
Proof.
  induction 1 as [|p l Hp Hl IH]; intros total i; simpl.
  - lra.
  - specialize (IH (total + calculateBrierScore p (nth i outcomes false)) (S i)).
    simpl in IH.
    assert (Hb : 0 <= calculateBrierScore p (nth i outcomes false) <= 1).
    { unfold calculateBrierScore. destruct (nth i outcomes false); nra. }
    destruct (List.length l); [simpl in *; lra|].
    lra.
Qed.

End EngineMoreFacts.

Module EngineMoreExtras.
Import RB RBFacts CryptoMath CryptoMathMore Pipeline EngineFacts NormalFacts.
Import EngineMoreFacts.
Open Scope R_scope.



(** X15. The edge classifier.  The edge is the market price minus the model
    probability; the signal is neutral exactly when the edge is below 0.03 in
    absolute value, sell exactly when it is at least 0.03 and buy exactly
    when it is at most -0.03; the confidence is high exactly above 0.10 and
    low exactly up to 0.05 in absolute value.  Hence a neutral signal always
    comes with low confidence. *)
Theorem edge_classifier (polymarketPrice modelProbability : R) :
  let e := calculateEdge polymarketPrice modelProbability in
  let d := polymarketPrice - modelProbability in
  edge e = d
  /\ (signal e = neutral <-> Rabs d < 0.03)
  /\ (signal e = sell <-> 0.03 <= d)
  /\ (signal e = buy <-> d <= -0.03)
  /\ (confidence e = high <-> 0.10 < Rabs d)
  /\ (confidence e = low <-> Rabs d <= 0.05)
  /\ match signal e with neutral => confidence e = low | _ => True end.
Proof.
  intros e d. unfold e, calculateEdge. fold d. simpl.
  unfold gtb, ltb.
  assert (Habs : (0 <= d /\ Rabs d = d) \/ (d < 0 /\ Rabs d = - d)).
  { unfold Rabs. destruct (Rcase_abs d); [right | left]; lra. }
  split; [reflexivity|].
  destruct (Rlt_dec (Rabs d) 0.03);
    destruct (Rlt_dec 0 d);
    destruct (Rlt_dec 0.10 (Rabs d));
    destruct (Rlt_dec 0.05 (Rabs d));
    repeat split; intros; try discriminate; try reflexivity;
    destruct Habs as [[? ?] | [? ?]]; lra.
Qed.



(** X17. The average Brier score of predictions between 0 and 1 lies
    between 0 and 1, whatever the outcomes; it is 0 by convention when there
    are no predictions or when the two lists differ in length. *)
Theorem average_brier_score_in_unit_interval (predictions : list R)
    (outcomes : list bool) :
  Forall (fun p => 0 <= p <= 1) predictions ->
  0 <= calculateAverageBrierScore predictions outcomes <= 1
  /\ (if (List.length predictions =? List.length outcomes)%nat then True
      else calculateAverageBrierScore predictions outcomes = 0)
  /\ calculateAverageBrierScore [] outcomes = 0.
Proof.
  intro Hp. split; [|split].
  - unfold calculateAverageBrierScore.
    destruct (negb (List.length predictions =? List.length outcomes)%nat
              || (List.length predictions =? 0)%nat) eqn:E; [lra|].
    apply orb_false_iff in E. destruct E as [_ E].
    apply Nat.eqb_neq in E.
    pose proof (brier_total_range outcomes predictions Hp 0 0%nat) as Ht.
    simpl in Ht.
    assert (Hn : 0 < INR (List.length predictions)).
    { apply lt_0_INR. lia. }
    set (n := INR (List.length predictions)) in *.
    set (tot := fst _) in *.
    assert (Hi : 0 < / n) by (apply Rinv_0_lt_compat; exact Hn).
    assert (Hone : n * / n = 1) by (field; lra).
    unfold Rdiv. split; nra.
  - destruct (List.length predictions =? List.length outcomes)%nat eqn:Hne;
      [exact I|].
    unfold calculateAverageBrierScore. rewrite Hne. reflexivity.
  - unfold calculateAverageBrierScore. simpl.
    rewrite orb_true_r. reflexivity.
Qed.

Lemma average_brier_score_in_unit_interval_witness :
  0 <= calculateAverageBrierScore [0.25; 0.5] [true; false] <= 1.
Proof.
  apply (average_brier_score_in_unit_interval [0.25; 0.5] [true; false]).
  repeat constructor; lra.
Defined.



End EngineMoreExtras.

(* ================================================================== *)
(** * The pipeline: strikes, volatility and what the response holds *)
(* ================================================================== *)

Module PipelineFacts.
Import RB RBFacts CryptoMath CryptoMathMore Pipeline EngineFacts NormalFacts.
Open Scope R_scope.

(** The [reduce] over the strikes ends on a strike that is at least as
    close to the target as the one it started from and as every strike it
    has seen. *)
Lemma closestStrike_invariant (target : R) (strikes : list R) : forall best,
  let c := closestStrike strikes target best in
  In c (best :: strikes)
  /\ Rabs (c - target) <= Rabs (best - target)
  /\ Forall (fun s => Rabs (c - target) <= Rabs (s - target)) strikes.
Proof.
  induction strikes as [|s rest IH]; intro best; simpl.
  - split; [left; reflexivity|]. split; [lra | constructor].
  - unfold closestStrike in *. simpl.
    destruct (ltb (Rabs (s - target)) (Rabs (best - target))) eqn:E.
    + apply Rltb_lt in E.
      destruct (IH s) as [Hin [Hle Hall]]. simpl in Hin, Hle, Hall.
      split; [|split].
      * destruct Hin as [<- | Hin]; [right; left; reflexivity | right; right; exact Hin].
      * lra.
      * constructor; [exact Hle | exact Hall].
    + apply Rltb_ge in E.
      destruct (IH best) as [Hin [Hle Hall]]. simpl in Hin, Hle, Hall.
      split; [|split].
      * destruct Hin as [<- | Hin]; [left; reflexivity | right; right; exact Hin].
      * exact Hle.
      * constructor; [lra | exact Hall].
Qed.

Lemma lookupStrike_in (l : list (R * StrikeData)) (key : R) (data : StrikeData) :
  lookupStrike l key = Some data -> exists k, In (k, data) l.
Proof.
  induction l as [|[k d] r IH]; [discriminate|].
  simpl. destruct (Req_dec_T k key).
  - intro H. injection H as <-. exists k. left. reflexivity.
  - intro H. destruct (IH H) as [k' Hk']. exists k'. right. exact Hk'.
Qed.








End PipelineFacts.

Module PipelineExtras.
Import RB RBFacts CryptoMath CryptoMathMore Pipeline EngineFacts NormalFacts.
Import PipelineFacts.
Open Scope R_scope.

(** X19. The strike [findClosestStrikeIV] settles on is one of the strikes
    of the chain and no strike of the chain is closer to the target. *)
Theorem closest_strike_is_nearest (target first : R) (others : list R) :
  let c := closestStrike others target first in
  In c (first :: others)
  /\ Forall (fun s => Rabs (c - target) <= Rabs (s - target)) (first :: others).
Proof.
  intro c. destruct (closestStrike_invariant target others first) as [Hin [Hle Hall]].
  split; [exact Hin|]. constructor; [exact Hle | exact Hall].
Qed.

(** X20. [findClosestStrikeIV] always answers.  With an empty chain it
    gives the at-the-money volatility and no delta; otherwise the volatility
    is the call volatility of a strike of the chain, or the at-the-money one
    when that is zero, and a delta is passed on only if it lies strictly
    between 0 and 1. *)
Theorem strike_volatility_lookup (deribit : DeribitOptionsData)
    (targetStrike targetExpiry : R) :
  exists ivData,
    findClosestStrikeIV deribit targetStrike targetExpiry = Some ivData
    /\ (iv ivData = atmIv deribit
        \/ exists k data, In (k, data) (ivByStrike deribit)
                          /\ callIv data <> 0 /\ iv ivData = callIv data)
    /\ match iv_delta ivData with
       | Some d => 0 < d < 1 /\ ivByStrike deribit <> []
       | None => True
       end
    /\ match ivByStrike deribit with
       | [] => ivData = mkStrikeIV (atmIv deribit) None
       | _ :: _ => True
       end.
Proof.
  unfold findClosestStrikeIV.
  destruct (ivByStrike deribit) as [|[k0 d0] rest] eqn:El; simpl.
  - eexists. split; [reflexivity|]. simpl. repeat split; auto.
  - set (closest := closestStrike (map fst rest) targetStrike k0).
    assert (Hdelta : forall data : StrikeData,
              match
                (if ltb (Rabs (closest - targetStrike) / targetStrike) 0.2
                    && truthy (callDelta data) && gtb (callDelta data) 0
                    && ltb (callDelta data) 1
                 then Some (callDelta data) else None)
              with
              | Some d => 0 < d < 1 /\ (k0, d0) :: rest <> []
              | None => True
              end).
    { intro data. destruct (_ && _ && _ && _) eqn:E; [|exact I].
      apply andb_true_iff in E. destruct E as [E E2].
      apply andb_true_iff in E. destruct E as [_ E1].
      apply Rgtb_gt in E1. apply Rltb_lt in E2.
      split; [lra | discriminate]. }
    assert (Hiv : forall k data, In (k, data) ((k0, d0) :: rest) ->
              orElse (callIv data) (atmIv deribit) = atmIv deribit
              \/ exists k' data', In (k', data') ((k0, d0) :: rest)
                   /\ callIv data' <> 0
                   /\ orElse (callIv data) (atmIv deribit) = callIv data').
    { intros k data Hin. unfold orElse, truthy.
      destruct (Req_dec_T (callIv data) 0); [left; reflexivity|].
      right. exists k, data. auto. }
    destruct (Req_dec_T k0 closest) as [E0 | E0].
    + eexists. split; [reflexivity|]. simpl.
      split; [apply (Hiv k0 d0); left; reflexivity|].
      split; [apply Hdelta | exact I].
    + destruct (lookupStrike rest closest) as [data|] eqn:Ek.
      * destruct (lookupStrike_in _ _ _ Ek) as [k Hk].
        eexists. split; [reflexivity|]. simpl.
        split; [apply (Hiv k data); right; exact Hk|].
        split; [apply Hdelta | exact I].
      * eexists. split; [reflexivity|]. simpl. repeat split; auto.
Qed.





End PipelineExtras.

(* ================================================================== *)
(** * The real bot's entries, the parser and the markets read *)
(* ================================================================== *)

Module RealBotFacts.
Import QB QBFacts PaperBot.
Open Scope Q_scope.
Local Ltac lra := Lqa.lra.



End RealBotFacts.

Module RealBotExtras.
Import QB QBFacts PaperBot RealBotFacts.
Open Scope Q_scope.
Local Ltac lra := Lqa.lra.



End RealBotExtras.

Module ParserFacts.
Import Regex CryptoMath Parser.
Open Scope string_scope.

Lemma priceLoop_positive (patterns : list RegExp) (question : string) (price : Q) :
  priceLoop patterns question = Some price -> (0 < price)%Q.
Proof.
  induction patterns as [|pattern rest IH]; simpl; [discriminate|].
  destruct (matchRe pattern question) as [m|]; [|exact IH].
  destruct (parseFloat (removeCommas (nthGroup m 1))) as [p|]; [|exact IH].
  destruct (QB.gtb _ 0) eqn:E; [|exact IH].
  intro H. injection H as <-. apply QBFacts.gtb_gt. exact E.
Qed.

Lemma detectCrypto_listed (patterns : list (RegExp * string)) (question symbol : string) :
  detectCrypto patterns question = Some symbol -> In symbol (map snd patterns).
Proof.
  induction patterns as [|[pattern s] rest IH]; simpl; [discriminate|].
  destruct (test pattern question).
  - intro H. injection H as <-. left. reflexivity.
  - intro H. right. apply IH. exact H.
Qed.

Lemma newDate_shift (tzOffset y mo d h mi s : Z) :
  newDate tzOffset y mo d h mi s = (newDate 0 y mo d h mi s + tzOffset * 60000)%Z.
Proof. unfold newDate. lia. Qed.

Lemma dateOfMatch_shift (tzOffset : Z) (m : list (option string)) :
  dateOfMatch tzOffset m
  = option_map (shiftDate (tzOffset * 60000)) (dateOfMatch 0 m).
Proof.
  unfold dateOfMatch.
  destruct (List.length m =? 2)%nat.
  - simpl. do 2 f_equal. apply newDate_shift.
  - destruct (_ && _).
    + simpl. do 2 f_equal. apply newDate_shift.
    + destruct (monthsEntry _); [|reflexivity..].
      simpl. do 2 f_equal. apply newDate_shift.
Qed.

Lemma datePatternLoop_shift (tzOffset : Z) (patterns : list RegExp) (question : string) :
  datePatternLoop tzOffset patterns question
  = option_map (shiftDate (tzOffset * 60000))
      (datePatternLoop 0 patterns question).
Proof.
  induction patterns as [|pattern rest IH]; simpl; [reflexivity|].
  destruct (matchRe pattern question) as [m|]; [|exact IH].
  rewrite dateOfMatch_shift.
  destruct (dateOfMatch 0 m); [reflexivity | exact IH].
Qed.

Lemma parseDate_shift (tzOffset : Z) (question : string) :
  parseDateFromQuestion tzOffset question
  = option_map (shiftDate (tzOffset * 60000))
      (parseDateFromQuestion 0 question).
Proof.
  unfold parseDateFromQuestion. rewrite datePatternLoop_shift.
  destruct (datePatternLoop 0 datePatterns question); [reflexivity|].
  cbn [option_map].
  destruct (matchRe _ question) as [m|]; [|reflexivity].
  cbn [option_map shiftDate]. do 2 f_equal. apply newDate_shift.
Qed.

End ParserFacts.

Module ParserExtras.
Import Regex CryptoMath Parser ParserFacts.
Open Scope string_scope.

(** X24. Whatever the question, a claim the parser returns has a positive
    target price and one of the eleven symbols of its table, and the
    question matched none of the exclusion patterns. *)
Theorem parsed_claims_are_well_formed (tzOffset : Z) (question : string)
    (parsed : ParsedQuestion) :
  parseCryptoMarketQuestion tzOffset question = Some parsed ->
  (0 < targetPrice parsed)%Q
  /\ In (crypto parsed)
        ["BTC"; "ETH"; "SOL"; "ADA"; "DOGE"; "XRP"; "MATIC"; "AVAX"; "LINK"; "DOT"; "LTC"]
  /\ Forall (fun pattern => test pattern question = false) exclusionPatterns
  /\ test priceKeywords question = true.
Proof.
  unfold parseCryptoMarketQuestion.
  destruct (existsb _ exclusionPatterns) eqn:Ex; [discriminate|].
  destruct (detectCrypto cryptoPatterns question) as [symbol|] eqn:Ec; [|discriminate].
  destruct (test priceKeywords question) eqn:Ek; cbn [negb]; [|discriminate].
  destruct (priceLoop pricePatterns question) as [price|] eqn:Ep; [|discriminate].
  intro H. injection H as <-. simpl.
  split; [apply (priceLoop_positive _ _ _ Ep)|].
  split; [apply (detectCrypto_listed _ _ _ Ec)|].
  split; [|reflexivity].
  apply Forall_forall. intros pattern Hin.
  destruct (test pattern question) eqn:Et; [|reflexivity].
  assert (Hex : existsb (fun pattern => test pattern question) exclusionPatterns = true).
  { apply existsb_exists. exists pattern. split; assumption. }
  rewrite Hex in Ex. discriminate Ex.
Qed.

Lemma parsed_claims_are_well_formed_witness :
  exists parsed,
    parseCryptoMarketQuestion 0 bitcoin200k = Some parsed
    /\ (0 < targetPrice parsed)%Q.
Proof.
  pose proof (ParserClaims.parse_bitcoin200k 0) as H.
  eexists. split; [exact H|].
  apply (parsed_claims_are_well_formed _ _ _ H).
Defined.

(** X25. The time zone of the process enters the parse only through the
    expiry: for every question, parsing with a zone offset gives the same
    symbol, price, bet type and direction as parsing on UTC, and an expiry
    that is later by exactly the offset; an expiry that is the Invalid Date
    on UTC, as after a month word that names a property of
    [Object.prototype], is the Invalid Date in every zone. *)
Theorem time_zone_shifts_only_the_expiry (tzOffset : Z) (question : string) :
  parseCryptoMarketQuestion tzOffset question
  = option_map
      (fun parsed =>
         mkParsed (crypto parsed) (targetPrice parsed)
                  (option_map (shiftDate (tzOffset * 60000)) (expiryDate parsed))
                  (betType parsed) (direction parsed))
      (parseCryptoMarketQuestion 0 question).
Proof.
  unfold parseCryptoMarketQuestion.
  destruct (existsb _ exclusionPatterns); [reflexivity|].
  destruct (detectCrypto cryptoPatterns question); [|reflexivity].
  destruct (negb (test priceKeywords question)); [reflexivity|].
  destruct (priceLoop pricePatterns question); [|reflexivity].
  cbn [option_map crypto targetPrice expiryDate betType direction].
  rewrite (parseDate_shift tzOffset question). reflexivity.
Qed.

End ParserExtras.

Module FetchExtras.
Import Parser ParserFacts Fetch.
Open Scope Q_scope.
Local Ltac lra := Lqa.lra.

(** The markets the symbols of which the parser knows. *)
Lemma parsed_symbol (tzOffset : Z) (question : string) (parsed : ParsedQuestion) :
  parseCryptoMarketQuestion tzOffset question = Some parsed ->
  0 < targetPrice parsed /\ In (crypto parsed) (map snd cryptoPatterns).
Proof.
  unfold parseCryptoMarketQuestion.
  destruct (existsb _ exclusionPatterns); [discriminate|].
  destruct (detectCrypto cryptoPatterns question) as [symbol|] eqn:Ec; [|discriminate].
  destruct (negb _); [discriminate|].
  destruct (priceLoop pricePatterns question) as [price|] eqn:Ep; [|discriminate].
  intro H. injection H as <-. simpl. split.
  - apply (priceLoop_positive _ _ _ Ep).
  - apply (detectCrypto_listed _ _ _ Ec).
Qed.

Lemma readObject_pushed (tzOffset : Z) (raw : RawMarket) (m : FetchedMarket) :
  readObject tzOffset raw = pushed m -> wellRead m.
Proof.
  unfold readObject.
  set (question := match raw_question raw with questionText s => s | _ => ""%string end).
  assert (H : match parseCryptoMarketQuestion tzOffset question with
              | None => continued
              | Some parsed =>
                match match expiryDate parsed with
                      | Some d => Some d
                      | None => raw_endDate raw
                      end with
                | None => continued
                | Some expiry =>
                  if QB.leb match raw_firstPrice raw with Some p => p | None => 0 end 0
                     || QB.geb match raw_firstPrice raw with Some p => p | None => 0 end 1
                  then continued
                  else pushed (mkFetchedMarket
                                 match raw_conditionId raw with
                                 | Some c => Some c
                                 | None => raw_id raw
                                 end question (crypto parsed) (targetPrice parsed)
                                 expiry (betType parsed) (direction parsed)
                                 match raw_firstPrice raw with Some p => p | None => 0 end)
                end
              end = pushed m -> wellRead m).
  { destruct (parseCryptoMarketQuestion tzOffset question) as [parsed|] eqn:Ep;
      [|discriminate].
    destruct (match expiryDate parsed with
              | Some d => Some d
              | None => raw_endDate raw
              end) as [expiry|]; [|discriminate].
    destruct (QB.leb _ 0 || QB.geb _ 1) eqn:E; [discriminate|].
    intro H. injection H as <-. unfold wellRead. simpl.
    apply orb_false_iff in E. destruct E as [E0 E1].
    unfold QB.leb in E0. unfold QB.geb in E1.
    destruct (parsed_symbol _ _ _ Ep) as [HK Hc].
    split; [|split; [|split; assumption]].
    - apply Qnot_le_lt. intro Hle. apply Qle_bool_iff in Hle. congruence.
    - apply Qnot_le_lt. intro Hle. apply Qle_bool_iff in Hle. congruence. }
  destruct (raw_question raw); [exact H | exact H | discriminate].
Qed.

Lemma fetchLoop_wellRead (tzOffset : Z) (data : list Element) :
  forall markets,
    Forall wellRead markets -> Forall wellRead (fetchLoop tzOffset data markets).
Proof.
  induction data as [|e rest IH]; intros markets Hm; simpl; [exact Hm|].
  destruct (readMarket tzOffset e) as [m| |] eqn:E; [|apply IH; exact Hm|exact Hm].
  apply IH. apply Forall_app. split; [exact Hm|].
  constructor; [|constructor].
  destruct e as [|raw]; [discriminate|]. apply (readObject_pushed _ _ _ E).
Qed.

Lemma fetchLoop_length (tzOffset : Z) (data : list Element) :
  forall markets,
    (List.length (fetchLoop tzOffset data markets)
     <= List.length markets + List.length data)%nat.
Proof.
  induction data as [|e rest IH]; intros markets; simpl; [lia|].
  destruct (readMarket tzOffset e).
  - specialize (IH (markets ++ [m])%list). rewrite length_app in IH. simpl in IH. lia.
  - specialize (IH markets). lia.
  - lia.
Qed.

Lemma slice0_incl {A : Type} (limit : option Z) (a : list A) (x : A) :
  In x (slice0 limit a) -> In x a.
Proof.
  assert (Hf : forall n (l : list A), In x (firstn n l) -> In x l).
  { induction n as [|n IH]; intros l H; [contradiction|].
    destruct l as [|b l]; [contradiction|].
    simpl in H. destruct H as [-> | H]; [left; reflexivity | right; apply IH; exact H]. }
  unfold slice0. destruct limit as [n|]; [|contradiction].
  destruct (n <? 0)%Z; apply Hf.
Qed.

(** X26. Every market [fetchPolymarketCryptoMarkets] returns has a price
    strictly between 0 and 1, a positive target price and one of the eleven
    symbols of the parser.  It returns no more markets than the array has
    elements; with a limit that is not negative it returns at most that
    many, with a negative limit it drops that many from the end of what it
    has read instead, and with a limit that is not a number it returns
    none. *)
Theorem fetched_markets_are_unresolved (tzOffset : Z) (limit : option Z)
    (data : list Element) (m : FetchedMarket) :
  In m (fetchPolymarketCryptoMarkets tzOffset limit data) ->
  0 < fm_polymarketPrice m /\ fm_polymarketPrice m < 1
  /\ 0 < fm_targetPrice m
  /\ In (fm_crypto m)
        ["BTC"; "ETH"; "SOL"; "ADA"; "DOGE"; "XRP"; "MATIC"; "AVAX"; "LINK"; "DOT";
         "LTC"]%string
  /\ (List.length (fetchPolymarketCryptoMarkets tzOffset limit data)
      <= List.length data)%nat
  /\ match limit with
     | None => fetchPolymarketCryptoMarkets tzOffset limit data = []
     | Some n =>
       (Z.of_nat (List.length (fetchPolymarketCryptoMarkets tzOffset limit data))
        <= Z.max 0 (if n <? 0 then Z.of_nat (List.length data) + n else n))%Z
     end.
Proof.
  unfold fetchPolymarketCryptoMarkets. intro Hin.
  assert (Hall : Forall wellRead (fetchLoop tzOffset data []))
    by (apply fetchLoop_wellRead; constructor).
  pose proof (fetchLoop_length tzOffset data []) as Hlen. simpl in Hlen.
  rewrite Forall_forall in Hall.
  destruct (Hall m (slice0_incl _ _ _ Hin)) as [H0 [H1 [HK Hc]]].
  split; [exact H0|]. split; [exact H1|]. split; [exact HK|]. split; [exact Hc|].
  unfold slice0. destruct limit as [n|]; [|split; [simpl; lia | reflexivity]].
  destruct (n <? 0)%Z eqn:En; rewrite length_firstn; split; lia.
Qed.

Lemma fetched_markets_are_unresolved_witness :
  exists m,
    In m (fetchPolymarketCryptoMarkets 0 (Some 10%Z) exampleData)
    /\ 0 < fm_polymarketPrice m.
Proof.
  assert (Hread : exists m,
            fetchPolymarketCryptoMarkets 0 (Some 10%Z) exampleData = [m]).
  { unfold fetchPolymarketCryptoMarkets, exampleData, fetchLoop, readMarket,
      readObject.
    cbn [raw_question].
    rewrite (ParserClaims.parse_bitcoin200k 0).
    cbn [expiryDate raw_firstPrice].
    replace (QB.leb 0.4 0 || QB.geb 0.4 1) with false by (vm_compute; reflexivity).
    eexists. reflexivity. }
  destruct Hread as [m Hm]. exists m.
  assert (Hin : In m (fetchPolymarketCryptoMarkets 0 (Some 10%Z) exampleData))
    by (rewrite Hm; left; reflexivity).
  split; [exact Hin|].
  apply (fetched_markets_are_unresolved 0 (Some 10%Z) exampleData m Hin).
Defined.

End FetchExtras.

(* ================================================================== *)
(** * The ledger of the paper bot, and its two entry checks *)
(* ================================================================== *)

Module LedgerFacts.
Import QB QBFacts PaperBot PaperBotFacts PaperBotRules PaperBotCycleFacts.
Open Scope Q_scope.
Local Ltac lra := Lqa.lra.

Lemma realizedTotal_snoc (l : list Position) (p : Position) (pnl : Q) :
  realizedPnl p = Some pnl ->
  realizedTotal (l ++ [p]) == realizedTotal l + pnl.
Proof.
  intro Hp. induction l as [|q l IH]; simpl.
  - rewrite Hp. lra.
  - destruct (realizedPnl q); lra.
Qed.

(** The win rate [closePosition] computes is a rate. *)
Lemma winRate_range (w l : nat) :
  0 <= inject_Z (Z.of_nat w) / inject_Z (Z.of_nat (Nat.max 1 (w + l)))
  /\ inject_Z (Z.of_nat w) / inject_Z (Z.of_nat (Nat.max 1 (w + l))) <= 1.
Proof.
  assert (Hd : 0 < inject_Z (Z.of_nat (Nat.max 1 (w + l)))).
  { change 0 with (inject_Z 0). rewrite <- Zlt_Qlt. lia. }
  assert (Hw : 0 <= inject_Z (Z.of_nat w)).
  { change 0 with (inject_Z 0). rewrite <- Zle_Qle. lia. }
  assert (Hle : inject_Z (Z.of_nat w) <= inject_Z (Z.of_nat (Nat.max 1 (w + l)))).
  { rewrite <- Zle_Qle. lia. }
  split.
  - apply Qle_shift_div_l; [exact Hd|]. lra.
  - apply Qle_shift_div_r; [exact Hd|]. lra.
Qed.

End LedgerFacts.

Module LedgerExtras.
Import QB QBFacts PaperBot PaperBotFacts PaperBotRules PaperBotCycleFacts LedgerFacts.
Open Scope Q_scope.
Local Ltac lra := Lqa.lra.

(** X27. In every state the paper bot reaches, the total realized profit
    and loss is the sum of the realized amounts of the closed positions, each
    of which is marked closed and carries its amount and its closing price;
    wins and losses together number at most the closed positions, and the win
    rate lies between 0 and 1. *)
Theorem ledger_agrees_with_closed_positions (state : BotState) :
  reachable state ->
  totalPnl state == realizedTotal (closedPositions state)
  /\ (winningTrades state + losingTrades state
      <= List.length (closedPositions state))%nat
  /\ 0 <= winRate state /\ winRate state <= 1
  /\ Forall filed (closedPositions state).
Proof.
  apply reachable_keeps with (I := ledgerAgrees).
  - intros env j p price edge reason st (Ht & Hc & Hw0 & Hw1 & Hf) _ _.
    unfold ledgerAgrees. simpl.
    split; [|split; [|split; [|split]]].
    + rewrite (realizedTotal_snoc (closedPositions st)
                 (closedPosition (now env) p price edge reason)
                 (closePnl p price) eq_refl).
      lra.
    + rewrite length_app. simpl.
      destruct (gtb (closePnl p price) 0); [lia|].
      destruct (ltb (closePnl p price) 0); lia.
    + apply winRate_range.
    + apply winRate_range.
    + apply Forall_app. split; [exact Hf|].
      constructor; [|constructor].
      unfold filed. simpl. repeat split; discriminate.
  - intros env k opp st H _. exact H.
  - intros opps st H. exact H.
  - intros t st H. exact H.
  - intro t. unfold ledgerAgrees. simpl.
    repeat split; try reflexivity; try discriminate; try lia. constructor.
Qed.

Lemma ledger_agrees_with_closed_positions_witness :
  totalPnl Scenario.afterClose == realizedTotal (closedPositions Scenario.afterClose).
Proof.
  apply ledger_agrees_with_closed_positions.
  unfold Scenario.afterClose, Scenario.afterOpen.
  apply reachable_cycle; [apply reachable_cycle; [apply reachable_initial|] |].
  - split; simpl; intros; [lia | tauto].
  - split; simpl.
    + intros; lia.
    + intros a _ [H | []]. discriminate H.
Defined.

(** X28. The TypeScript source of the paper bot is the stricter of its two
    entry checks: an entry it admits is admitted, with the same side and
    edge, by the compiled bot, and moreover has a price between 0.05 and
    0.95. *)
Theorem source_check_is_stricter_than_compiled (t : Z) (opp : ArbitrageOpportunity)
    (state : BotState) (config : BotConfig) :
  PaperBotTs.shouldEnter (PaperBotTs.shouldEnterPosition t opp state config) = true ->
  shouldEnter (shouldEnterPosition t opp state config) = true
  /\ ec_side (shouldEnterPosition t opp state config)
     = PaperBotTs.ec_side (PaperBotTs.shouldEnterPosition t opp state config)
  /\ ec_edge (shouldEnterPosition t opp state config)
     = PaperBotTs.ec_edge (PaperBotTs.shouldEnterPosition t opp state config)
  /\ 0.05 <= polymarketProb opp /\ polymarketProb opp <= 0.95.
Proof.
  unfold PaperBotTs.shouldEnterPosition, shouldEnterPosition.
  destruct (gtb (polymarketProb opp) 0.95) eqn:E1; [discriminate|].
  destruct (ltb (polymarketProb opp) 0.05) eqn:E2; [discriminate|].
  destruct (_ && _ && leb _ _); [discriminate|].
  destruct (_ && _ && geb _ _); [discriminate|].
  destruct (_ && gtb _ 0.90 && _); [discriminate|].
  destruct (_ && ltb _ 0.10 && _); [discriminate|].
  destruct (ltb (Qabs (effectiveEdge opp)) (minEdgeToEnter config)); [discriminate|].
  destruct (ltb _ (minTimeToExpiry config)); [discriminate|].
  destruct (find _ _); [discriminate|].
  destruct (gtb _ (maxTotalExposure config)); [discriminate|].
  destruct (gtb _ (currentBalance state)); [discriminate|].
  intros _. simpl. apply gtb_le in E1. apply ltb_ge in E2.
  repeat split; trivial.
Qed.

Lemma source_check_is_stricter_than_compiled_witness :
  shouldEnter (shouldEnterPosition 0 Scenario.firstQuote (initialState 0) CONFIG) = true.
Proof.
  apply (source_check_is_stricter_than_compiled 0 Scenario.firstQuote
           (initialState 0) CONFIG).
  vm_compute. reflexivity.
Defined.

End LedgerExtras.
